(** * daily-notes: the key-management core of [AuthService]

    A shallow embedding of [auth.service.ts] (the service that registers
    accounts, logs in through the account password or the master secret,
    resets passwords and loads/saves the encrypted note blob) and of
    [crypto.service.ts] (its wrappers around WebCrypto).

    Modelling conventions.
    - WebCrypto ([crypto.subtle]), [TextEncoder]/[TextDecoder] and the
      application's [JSON] codec for notes are the browser's, not the
      repository's: they are the operations of the class [Browser], and what the
      proofs need of them is stated once, in [BrowserLaws].
    - Base64 text is identified with the buffer it encodes ([b64dec] after
      [b64enc] is the identity), so [saltB64], [iv] and [data] hold [bytes].
    - A value kept in [localStorage] is modelled by the JSON value its text
      denotes ([Stored]); text of any other shape is [JText].
    - Random values ([crypto.randomUUID], [randBytes], [generateDEK]) and
      the clock are explicit arguments of the operation that draws them.
    - A [string] is a sequence of code units below 256.
    - [localStorage.setItem] stores what it is given (no quota).
    - An [async] method is run to completion: one caller, no interleaving.
    - A thrown exception leaves the assignments made before it in place, so
      every operation returns its result together with the state it left. *)

From stdpp Require Import gmap strings list.
From Stdlib Require Import ZArith String Ascii.

Open Scope string_scope.

(** ** The browser platform *)

(** What [JSON.parse] returns for the text of a note blob: a collection of
    notes (an array), or a value of another shape (an object, a number, a
    string, a boolean, [null]). *)
Inductive Json (N : Type) :=
| Collection (l : list N)
| Other.
Arguments Collection {N} l.
Arguments Other {N}.

Class Browser := {
  (** [CryptoKey] *)
  key : Type;
  (** contents of an [ArrayBuffer] *)
  bytes : Type;
  (** [importKey('raw', encode(password), 'PBKDF2')] followed by
      [deriveKey] with 200000 iterations of SHA-256 to an AES-GCM 256 key *)
  pbkdf2 : string -> bytes -> key;
  (** [crypto.subtle.encrypt({name: 'AES-GCM', iv}, k, pt)] *)
  aes_gcm_encrypt : key -> bytes -> bytes -> bytes;
  (** [crypto.subtle.decrypt({name: 'AES-GCM', iv}, k, ct)]; [None] when it
      rejects (the tag does not verify) *)
  aes_gcm_decrypt : key -> bytes -> bytes -> option bytes;
  (** [crypto.subtle.exportKey('raw', k)] *)
  exportKey : key -> bytes;
  (** [crypto.subtle.importKey('raw', b, {name: 'AES-GCM'})]; [None] when
      the length is not that of an AES key *)
  importKey : bytes -> option key;
  (** [new TextEncoder().encode] and [new TextDecoder().decode] *)
  utf8_encode : string -> bytes;
  utf8_decode : bytes -> string;
  (** an element of the note collection, [JSON.stringify] on collections,
      and [JSON.parse] on the text of a note blob: [None] where it throws
      (the text is not JSON) *)
  Note : Type;
  JSON_stringify : list Note -> string;
  JSON_parse : string -> option (Json Note);
}.

(** What the development assumes of the platform, in the idealised form
    usual for symbolic reasoning about cryptography (events of negligible
    probability do not occur): AES-GCM opens what it sealed; a ciphertext
    sealed under [k] opens under no other key; a ciphertext that opens is the
    sealing of what it opens to (sealing is deterministic in key, nonce and
    plaintext); raw export and import of a key are inverse; UTF-8 and JSON
    round-trip on the texts and collections the service handles. Nothing
    is assumed of PBKDF2: two passwords may derive the same key (under
    PBKDF2-HMAC a password and the same password followed by NUL do). *)
Class BrowserLaws (B : Browser) : Prop := {
  decrypt_encrypt : forall k n pt,
    aes_gcm_decrypt k n (aes_gcm_encrypt k n pt) = Some pt;
  decrypt_authentic : forall k k' n pt pt',
    aes_gcm_decrypt k' n (aes_gcm_encrypt k n pt) = Some pt' -> k' = k;
  decrypt_sealed : forall k n ct pt,
    aes_gcm_decrypt k n ct = Some pt -> ct = aes_gcm_encrypt k n pt;
  import_export : forall k, importKey (exportKey k) = Some k;
  utf8_decode_encode : forall s, utf8_decode (utf8_encode s) = s;
  JSON_parse_stringify : forall x,
    JSON_parse (JSON_stringify x) = Some (Collection x);
}.

(** ** JavaScript strings *)

(** White space and line terminators of ECMAScript among the code units
    below 256: TAB, LF, VT, FF, CR, SP and NBSP. *)
Definition is_white_space (c : ascii) : bool :=
  match nat_of_ascii c with
  | 9 | 10 | 11 | 12 | 13 | 32 | 160 => true
  | _ => false
  end.

Fixpoint trimStart (s : string) : string :=
  match s with
  | EmptyString => EmptyString
  | String c r => if is_white_space c then trimStart r else s
  end.

Definition trimEnd (s : string) : string :=
  String.rev (trimStart (String.rev s)).

(** [String.prototype.trim] *)
Definition trim (s : string) : string := trimEnd (trimStart s).

(** Truthiness of a string: every string but the empty one. *)
Definition truthy (s : string) : bool :=
  match s with
  | EmptyString => false
  | String _ _ => true
  end.

(** ** crypto.service.ts *)

Section CryptoService.
Context {B : Browser}.

(** [{ iv: string; data: string }] *)
Record Envelope := { iv : bytes; data : bytes }.

Definition deriveKEK (password : string) (saltB64 : bytes) : key :=
  pbkdf2 password saltB64.

(** [wrapDEK(dek, kek)]; [iv] is the [randBytes(12)] it draws. *)
Definition wrapDEK (dek kek : key) (iv : bytes) : Envelope :=
  {| iv := iv; data := aes_gcm_encrypt kek iv (exportKey dek) |}.

Definition unwrapDEK (wrapped : Envelope) (kek : key) : option key :=
  match aes_gcm_decrypt kek (iv wrapped) (data wrapped) with
  | Some pt => importKey pt
  | None => None
  end.

(** [encryptString(plain, dek)]; [iv] is the [randBytes(12)] it draws. *)
Definition encryptString (plain : string) (dek : key) (iv : bytes)
  : Envelope :=
  {| iv := iv; data := aes_gcm_encrypt dek iv (utf8_encode plain) |}.

Definition decryptString (enc : Envelope) (dek : key) : option string :=
  match aes_gcm_decrypt dek (iv enc) (data enc) with
  | Some pt => Some (utf8_decode pt)
  | None => None
  end.
End CryptoService.

Arguments Envelope {B}.

(** ** auth.service.ts: data *)

Section AuthData.
Context {B : Browser}.

Record AccountMeta := {
  id : string;
  name : string;
  createdAt : Z;
  saltB64 : bytes;
  dekWrappedByAccount : Envelope;
  dekWrappedByMaster : option Envelope;
}.

(** What a [localStorage] entry holds. *)
Inductive Stored :=
| JAccounts (l : list AccountMeta)
| JMasterMeta (salt : bytes)
| JEnvelope (e : Envelope)
| JText (raw : string).

(** The service and the store it works on. [accounts] and
    [currentAccountId] are the signals, [dek] the private field. *)
Record State := {
  accounts : list AccountMeta;
  currentAccountId : option string;
  dek : option key;
  MASTER_SECRET : string;
  localStorage : gmap string Stored;
}.
End AuthData.

Arguments AccountMeta {B}.
Arguments Stored {B}.
Arguments State {B}.

Definition KEY_ACCOUNTS : string := "diary_accounts_v1".
Definition KEY_MASTER_META : string := "diary_master_meta_v1".
Definition NOTES_KEY (id : string) : string := "diary_notes_enc_" ++ id.

(** ** Results, and the monad of methods *)

(** What a method throws. The messages of the source are, in order: 'Account
    not found', 'Master meta not initialized', 'Master access not configured
    for this account.', 'Account not configured for master unwrap', 'Invalid
    password.', 'Not logged in'; [CryptoFailure] is a rejection by
    [crypto.subtle], [CorruptState] a stored text of the wrong shape. *)
Inductive Error :=
| AccountNotFound
| MasterMetaNotInitialized
| MasterNotConfigured
| AccountNotMasterEnabled
| InvalidPassword
| NotLoggedIn
| CryptoFailure
| CorruptState.

Inductive Result (A : Type) :=
| Ok (a : A)
| Err (e : Error).

Arguments Ok {A} a.
Arguments Err {A} e.

Section Monad.
Context {B : Browser}.

Definition M (A : Type) : Type := State -> Result A * State.

Definition ret {A} (a : A) : M A := fun s => (Ok a, s).

Definition throw {A} (e : Error) : M A := fun s => (Err e, s).

Definition bind {A C} (m : M A) (f : A -> M C) : M C :=
  fun s =>
    match m s with
    | (Ok a, s') => f a s'
    | (Err e, s') => (Err e, s')
    end.

(** [try { m } catch { h }] *)
Definition try_catch {A} (m h : M A) : M A :=
  fun s =>
    match m s with
    | (Ok a, s') => (Ok a, s')
    | (Err _, s') => h s'
    end.

Definition gets {A} (f : State -> A) : M A := fun s => (Ok (f s), s).

Definition modify (f : State -> State) : M unit := fun s => (Ok tt, f s).

(** [await] of a WebCrypto promise that may reject. *)
Definition await {A} (o : option A) : M A :=
  match o with
  | Some a => ret a
  | None => throw CryptoFailure
  end.
End Monad.

Notation "'let*' x ':=' m 'in' k" := (bind m (fun x => k))
  (at level 10, x name, m at level 100, k at level 200, only parsing).
Notation "m ';;' k" := (bind m (fun _ => k))
  (at level 100, k at level 200, right associativity, only parsing).

(** ** auth.service.ts: operations *)

Section AuthService.
Context {B : Browser}.

Definition set_accounts (l : list AccountMeta) (s : State) : State :=
  {| accounts := l;
     currentAccountId := currentAccountId s;
     dek := dek s;
     MASTER_SECRET := MASTER_SECRET s;
     localStorage := localStorage s |}.

Definition set_currentAccountId (c : option string) (s : State) : State :=
  {| accounts := accounts s;
     currentAccountId := c;
     dek := dek s;
     MASTER_SECRET := MASTER_SECRET s;
     localStorage := localStorage s |}.

Definition set_dek (d : option key) (s : State) : State :=
  {| accounts := accounts s;
     currentAccountId := currentAccountId s;
     dek := d;
     MASTER_SECRET := MASTER_SECRET s;
     localStorage := localStorage s |}.

Definition set_localStorage (m : gmap string Stored) (s : State) : State :=
  {| accounts := accounts s;
     currentAccountId := currentAccountId s;
     dek := dek s;
     MASTER_SECRET := MASTER_SECRET s;
     localStorage := m |}.

(** [localStorage.getItem(k)] with the test [if (!raw)] applied: absent
    and the empty text both read as [None]. *)
Definition getItem (k : string) : M (option Stored) :=
  gets (fun s =>
    match localStorage s !! k with
    | Some (JText "") => None
    | o => o
    end).

Definition setItem (k : string) (v : Stored) : M unit :=
  modify (fun s => set_localStorage (<[k := v]> (localStorage s)) s).

(** [ensureMasterMeta()]; [salt] is the [randBytes(16)] it draws when the
    entry is missing. *)
Definition ensureMasterMeta (salt : bytes) : M unit :=
  let* raw := getItem KEY_MASTER_META in
  match raw with
  | None => setItem KEY_MASTER_META (JMasterMeta salt)
  | Some _ => ret tt
  end.

Definition getMasterMeta : M bytes :=
  let* raw := getItem KEY_MASTER_META in
  match raw with
  | None => throw MasterMetaNotInitialized
  | Some (JMasterMeta salt) => ret salt
  | Some _ => throw CorruptState
  end.

Definition saveNotesBlob (id : string) (dek : key) (notes : list Note)
    (iv : bytes) : M unit :=
  let enc := encryptString (JSON_stringify notes) dek iv in
  setItem (NOTES_KEY id) (JEnvelope enc).

(** The values [registerAccount] draws: [crypto.randomUUID()], the
    account salt, [generateDEK()], the nonces of the two wraps,
    [Date.now()] and the nonce of the empty note blob. *)
Record RegisterRandom := {
  r_id : string;
  r_salt : bytes;
  r_dek : key;
  r_ivAccount : bytes;
  r_ivMaster : bytes;
  r_now : Z;
  r_ivNotes : bytes;
}.

Definition registerAccount (name accountPassword : string)
    (r : RegisterRandom) : M unit :=
  let id := r_id r in
  let saltB64 := r_salt r in
  let dek := r_dek r in
  let kekAcc := deriveKEK accountPassword saltB64 in
  let dekByAcc := wrapDEK dek kekAcc (r_ivAccount r) in
  let* mm := getMasterMeta in
  let* secret := gets MASTER_SECRET in
  let kekMaster := deriveKEK secret mm in
  let dekByMaster := wrapDEK dek kekMaster (r_ivMaster r) in
  let meta :=
    {| id := id;
       name := name;
       createdAt := r_now r;
       saltB64 := saltB64;
       dekWrappedByAccount := dekByAcc;
       dekWrappedByMaster := Some dekByMaster |} in
  let* old := gets accounts in
  let updated := meta :: old in
  modify (set_accounts updated);;
  setItem KEY_ACCOUNTS (JAccounts updated);;
  saveNotesBlob id dek [] (r_ivNotes r).

(** [this.accounts().find((a) => a.id === id)] *)
Definition find_account (i : string) (l : list AccountMeta)
  : option AccountMeta :=
  List.find (fun a => String.eqb (id a) i) l.

(** [list.map((a) => (a.id === acc.id ? updated : a))] *)
Definition replace_account (acc updated : AccountMeta)
    (l : list AccountMeta) : list AccountMeta :=
  List.map (fun a => if String.eqb (id a) (id acc) then updated else a) l.

Definition with_master (acc : AccountMeta) (w : Envelope) : AccountMeta :=
  {| id := id acc;
     name := name acc;
     createdAt := createdAt acc;
     saltB64 := saltB64 acc;
     dekWrappedByAccount := dekWrappedByAccount acc;
     dekWrappedByMaster := Some w |}.

Definition with_account (acc : AccountMeta) (salt : bytes) (w : Envelope)
  : AccountMeta :=
  {| id := id acc;
     name := name acc;
     createdAt := createdAt acc;
     saltB64 := salt;
     dekWrappedByAccount := w;
     dekWrappedByMaster := dekWrappedByMaster acc |}.

(** The owner path of [loginWithAccount]. *)
Definition login_master (i : string) (acc : AccountMeta) : M unit :=
  match dekWrappedByMaster acc with
  | None => throw MasterNotConfigured
  | Some wrapped =>
      let* mm := getMasterMeta in
      let* secret := gets MASTER_SECRET in
      let kekMaster := deriveKEK secret mm in
      let* d := await (unwrapDEK wrapped kekMaster) in
      modify (set_dek (Some d));;
      modify (set_currentAccountId (Some i))
  end.

(** The step of the normal path that adds the master wrap to an account
    that has none ([if (this.MASTER_SECRET && !acc.dekWrappedByMaster)]);
    [d] is [this.dek], just assigned, and [iv] the nonce of the new wrap. *)
Definition migrate (acc : AccountMeta) (d : key) (iv : bytes) : M unit :=
  let* secret := gets MASTER_SECRET in
  match truthy secret, dekWrappedByMaster acc with
  | true, None =>
      let* mm := getMasterMeta in
      let kekMaster := deriveKEK secret mm in
      let wrappedByMaster := wrapDEK d kekMaster iv in
      let updated := with_master acc wrappedByMaster in
      modify (fun s =>
        set_accounts (replace_account acc updated (accounts s)) s);;
      let* l := gets accounts in
      setItem KEY_ACCOUNTS (JAccounts l)
  | _, _ => ret tt
  end.

(** The body of the [try] of the normal path. *)
Definition login_account (i pw : string) (acc : AccountMeta) (iv : bytes)
  : M unit :=
  let kek := deriveKEK pw (saltB64 acc) in
  let* d := await (unwrapDEK (dekWrappedByAccount acc) kek) in
  modify (set_dek (Some d));;
  modify (set_currentAccountId (Some i));;
  migrate acc d iv.

(** [loginWithAccount(id, password)]; [iv] is the nonce the migration
    step draws when it runs. *)
Definition loginWithAccount (i password : string) (iv : bytes) : M unit :=
  let* l := gets accounts in
  match find_account i l with
  | None => throw AccountNotFound
  | Some acc =>
      let pw := trim password in
      let* secret := gets MASTER_SECRET in
      if truthy secret && String.eqb pw secret
      then login_master i acc
      else try_catch (login_account i pw acc iv) (throw InvalidPassword)
  end.

Definition logout : M unit :=
  modify (set_currentAccountId None);;
  modify (set_dek None).

(** The session the guards of [loadNotes] and [saveNotes] let through:
    [this.dek] and a truthy [this.currentAccountId()]. *)
Definition session (s : State) : option (string * key) :=
  match dek s, currentAccountId s with
  | Some d, Some i => if truthy i then Some (i, d) else None
  | _, _ => None
  end.

Definition loadNotes : M (Json Note) :=
  let* ses := gets session in
  match ses with
  | None => ret (Collection [])
  | Some (i, d) =>
      let* raw := getItem (NOTES_KEY i) in
      match raw with
      | None => ret (Collection [])
      | Some (JEnvelope blob) =>
          let* json := await (decryptString blob d) in
          match JSON_parse json with
          | Some v => ret v
          | None => throw CorruptState
          end
      | Some _ => throw CorruptState
      end
  end.

(** [saveNotes(notes)]; [iv] is the nonce [encryptString] draws. *)
Definition saveNotes (notes : list Note) (iv : bytes) : M unit :=
  let* ses := gets session in
  match ses with
  | None => throw NotLoggedIn
  | Some (i, d) => saveNotesBlob i d notes iv
  end.

Definition loadAccounts : M (list AccountMeta) :=
  let* raw := getItem KEY_ACCOUNTS in
  match raw with
  | None => ret []
  | Some (JAccounts l) => ret l
  | Some _ => throw CorruptState
  end.

(** [resetAccountPassword(accountId, newAccountPassword)]; [newSaltB64]
    and [iv] are the salt and the nonce it draws. *)
Definition resetAccountPassword (accountId newAccountPassword : string)
    (newSaltB64 iv : bytes) : M unit :=
  let* l := gets accounts in
  match find_account accountId l with
  | None => throw AccountNotFound
  | Some acc =>
      match dekWrappedByMaster acc with
      | None => throw AccountNotMasterEnabled
      | Some wrapped =>
          let* mm := getMasterMeta in
          let* secret := gets MASTER_SECRET in
          let kekMaster := deriveKEK secret mm in
          let* d := await (unwrapDEK wrapped kekMaster) in
          let kekNewAcc := deriveKEK newAccountPassword newSaltB64 in
          let dekByNewAcc := wrapDEK d kekNewAcc iv in
          let updatedMeta := with_account acc newSaltB64 dekByNewAcc in
          modify (fun s =>
            set_accounts (replace_account acc updatedMeta (accounts s)) s);;
          let* l' := gets accounts in
          setItem KEY_ACCOUNTS (JAccounts l')
      end
  end.

(** The service as its constructor leaves it on the store [ls] with
    [environment.masterSecret || ''] being [secret]: the field
    initialisers, then [ensureMasterMeta()]. *)
Definition new_AuthService (secret : string) (ls : gmap string Stored)
    (salt : bytes) : Result unit * State :=
  let s0 :=
    {| accounts := [];
       currentAccountId := None;
       dek := None;
       MASTER_SECRET := secret;
       localStorage := ls |} in
  (let* l := loadAccounts in
   modify (set_accounts l);;
   ensureMasterMeta salt) s0.
End AuthService.

(** ** Vocabulary of the properties *)

Section Invariant.
Context {B : Browser}.

(** The two wraps of [acc] agree: whenever the account wrap opens under the
    KEK of some password and the account's salt, and the master wrap (when
    there is one) opens under the KEK of the master secret and the master
    salt [mm], they open to the same DEK. *)
Definition wraps_agree (secret : string) (mm : bytes) (acc : AccountMeta)
  : Prop :=
  forall wm pw dA dM,
    dekWrappedByMaster acc = Some wm ->
    unwrapDEK (dekWrappedByAccount acc) (deriveKEK pw (saltB64 acc))
      = Some dA ->
    unwrapDEK wm (deriveKEK secret mm) = Some dM ->
    dA = dM.

(** The records of the registry: those of the [accounts] signal and those
    of the list persisted under [KEY_ACCOUNTS]. *)
Definition in_registry (s : State) (acc : AccountMeta) : Prop :=
  In acc (accounts s) \/
  exists l, localStorage s !! KEY_ACCOUNTS = Some (JAccounts l) /\ In acc l.

(** Every record of the registry has agreeing wraps, for the master secret
    of the service and the master salt in the store. *)
Definition registry_consistent (s : State) : Prop :=
  forall mm acc,
    fst (getMasterMeta s) = Ok mm ->
    in_registry s acc ->
    wraps_agree (MASTER_SECRET s) mm acc.

(** [LoggedOut]: one of the two guards of the note operations fails. *)
Definition logged_out (s : State) : Prop := session s = None.

(** [s] after the two assignments of a successful login,
    [this.dek = d] and [this.currentAccountId.set(i)]. *)
Definition logged_in (i : string) (d : key) (s : State) : State :=
  set_currentAccountId (Some i) (set_dek (Some d) s).
End Invariant.

(** ** An ideal platform

    Symbolic cryptography: a buffer is raw data, a derived key or a sealed
    box, and a box opens under the key and nonce it was sealed with and
    under no other. It satisfies [BrowserLaws], and the operations of the
    service compute on it. *)

Module Ideal.

Inductive term :=
| Raw (s : string)
| Kdf (password : string) (salt : term)
| Seal (k n pt : term).

Fixpoint term_eqb (a b : term) : bool :=
  match a, b with
  | Raw s, Raw t => String.eqb s t
  | Kdf p s, Kdf q t => String.eqb p q && term_eqb s t
  | Seal k n p, Seal k' n' p' =>
      term_eqb k k' && term_eqb n n' && term_eqb p p'
  | _, _ => false
  end.

Definition open (k n ct : term) : option term :=
  match ct with
  | Seal k' n' pt => if term_eqb k k' && term_eqb n n' then Some pt else None
  | _ => None
  end.

Definition text_of (b : term) : string :=
  match b with
  | Raw s => s
  | _ => ""
  end.

(** A note is one character, and a collection is printed between
    brackets; [{}] and [null] are the values of another shape, and no
    other text parses. *)
Definition stringify (l : list ascii) : string :=
  String "[" (string_of_list_ascii (l ++ ["]"%char])).

Definition parse (s : string) : option (Json ascii) :=
  match s with
  | String "[" r =>
      match List.rev (list_ascii_of_string r) with
      | "]"%char :: l => Some (Collection (List.rev l))
      | _ => None
      end
  | _ => if String.eqb s "{}" || String.eqb s "null" then Some Other else None
  end.

Definition browser : Browser :=
  {| key := term;
     bytes := term;
     pbkdf2 := Kdf;
     aes_gcm_encrypt := Seal;
     aes_gcm_decrypt := open;
     exportKey := fun k => k;
     importKey := Some;
     utf8_encode := Raw;
     utf8_decode := text_of;
     Note := ascii;
     JSON_stringify := stringify;
     JSON_parse := parse |}.

#[local] Existing Instance browser.

(** A first run on an empty store with master secret [secret]. *)
Definition fresh (secret : string) : @State browser :=
  snd (@new_AuthService browser secret ∅ (Raw "master-salt")).

Definition draw (i : string) : @RegisterRandom browser :=
  {| r_id := i;
     r_salt := Raw ("salt-" ++ i);
     r_dek := Raw ("dek-" ++ i);
     r_ivAccount := Raw "n1";
     r_ivMaster := Raw "n2";
     r_now := 1700000000000%Z;
     r_ivNotes := Raw "n3" |}.

(** [fresh secret] after [registerAccount('alice', pw)] drew the id [a1]. *)
Definition registered (secret pw : string) : @State browser :=
  snd (@registerAccount browser "alice" pw (draw "a1") (fresh secret)).

(** An account written before the master wrap existed, with password
    [pw]. *)
Definition legacy_account (pw : string) : @AccountMeta browser :=
  {| id := "a0";
     name := "old";
     createdAt := 1600000000000%Z;
     saltB64 := Raw "salt-a0";
     dekWrappedByAccount :=
       @wrapDEK browser (Raw "dek-a0") (Kdf pw (Raw "salt-a0")) (Raw "n0");
     dekWrappedByMaster := None |}.

(** A service holding [legacy_account pw] whose store has lost the master
    salt (the entry [KEY_MASTER_META] was removed after start-up). *)
Definition legacy_no_master_meta (secret pw : string) : @State browser :=
  {| accounts := [legacy_account pw];
     currentAccountId := None;
     dek := None;
     MASTER_SECRET := secret;
     localStorage := {[ KEY_ACCOUNTS := JAccounts [legacy_account pw] ]} |}.

(** The same service with the master salt in place. *)
Definition legacy (secret pw : string) : @State browser :=
  {| accounts := [legacy_account pw];
     currentAccountId := None;
     dek := None;
     MASTER_SECRET := secret;
     localStorage :=
       <[ KEY_MASTER_META := JMasterMeta (Raw "master-salt") ]>
         {[ KEY_ACCOUNTS := JAccounts [legacy_account pw] ]} |}.

End Ideal.

(** * The rest of the application

    Beyond the key management: the base64 layer of [crypto.service.ts],
    [local-storage.service.ts], the theme service, the note model and the
    parts of [app.component.ts] that compute (the editor, the derived
    lists, the calendar, the image viewer, the admin panel, the custom
    title). What belongs to the DOM, to Angular or to the translation
    service is an argument of the operation that reads it. *)

From stdpp Require Import pretty.
From Stdlib Require Import NArith Lia Sorting.Sorted Sorting.Permutation.

(** ** JavaScript strings, on lists *)

(** [trimStart] on the list of code units. *)
Fixpoint drop_space (l : list ascii) : list ascii :=
  match l with
  | [] => []
  | c :: r => if is_white_space c then drop_space r else l
  end.

(** ** auth.service.ts: the store and the master secret *)

Section Persistence.
Context {B : Browser}.

(** The registry in the store is the registry in memory: what
    [loadAccounts] would read is the [accounts] signal. *)
Definition registry_persisted (s : State) : Prop :=
  fst (loadAccounts s) = Ok (accounts s).

(** The master secret opens [acc]: it has a master wrap, and the wrap opens
    under the KEK of the master secret and the stored master salt. *)
Definition master_opens (s : State) (acc : AccountMeta) : Prop :=
  exists wm mm d,
    dekWrappedByMaster acc = Some wm /\
    fst (getMasterMeta s) = Ok mm /\
    unwrapDEK wm (deriveKEK (MASTER_SECRET s) mm) = Some d.

Definition master_opens_all (s : State) : Prop :=
  forall acc, In acc (accounts s) -> master_opens s acc.

(** The state a login leaves when its migration step ran: the session is
    set, and the registry, with the master wrap added to [acc], is in the
    signal and in the store. *)
Definition migrated (i : string) (d : key) (acc : AccountMeta) (w : Envelope)
    (s : State) : State :=
  let l := replace_account acc (with_master acc w) (accounts s) in
  set_localStorage (<[ KEY_ACCOUNTS := JAccounts l ]> (localStorage s))
    (set_accounts l (logged_in i d s)).
End Persistence.

(** ** [btoa] and [atob]

    The two functions of the platform that [b64enc] and [b64dec] call, as
    RFC 4648 and the HTML standard (forgiving-base64 decode) define them,
    on strings of code units below 256. *)

Module Base64.

(** The base64 alphabet (RFC 4648, table 1). *)
Definition alphabet : list ascii :=
  list_ascii_of_string
    "ABCDEFGHIJKLMNOPQRSTUVWXYZabcdefghijklmnopqrstuvwxyz0123456789+/".

(** The character of a 6-bit value. *)
Definition digit (v : N) : ascii := List.nth (N.to_nat v) alphabet "A"%char.

Fixpoint index_of (c : ascii) (l : list ascii) : option nat :=
  match l with
  | [] => None
  | x :: r => if Ascii.eqb c x then Some 0%nat else option_map S (index_of c r)
  end.

(** The 6-bit value of a character of the alphabet. *)
Definition value (c : ascii) : option N :=
  option_map N.of_nat (index_of c alphabet).

Definition byte (n : N) : ascii := ascii_of_N n.

(** The four characters of three bytes. *)
Definition quad (a b c : ascii) : list ascii :=
  let n := (N_of_ascii a * 65536 + N_of_ascii b * 256 + N_of_ascii c)%N in
  [digit (n / 262144); digit ((n / 4096) mod 64);
   digit ((n / 64) mod 64); digit (n mod 64)].

(** Base64 encoding with padding: one or two bytes left over give two or
    three characters and the padding. *)
Fixpoint encode (l : list ascii) : list ascii :=
  match l with
  | [] => []
  | [a] =>
      let n := (N_of_ascii a * 16)%N in
      [digit (n / 64); digit (n mod 64); "="; "="]%char
  | [a; b] =>
      let n := ((N_of_ascii a * 256 + N_of_ascii b) * 4)%N in
      [digit (n / 4096); digit ((n / 64) mod 64); digit (n mod 64); "="]%char
  | a :: b :: c :: r => (quad a b c ++ encode r)%list
  end.

(** [btoa(s)], for a string of code units below 256. *)
Definition btoa (s : string) : string :=
  string_of_list_ascii (encode (list_ascii_of_string s)).

(** ASCII whitespace: TAB, LF, FF, CR and SPACE. *)
Definition is_ascii_whitespace (c : ascii) : bool :=
  match nat_of_ascii c with
  | 9 | 10 | 12 | 13 | 32 => true
  | _ => false
  end.

(** Removal of one or two trailing [=]. *)
Definition strip_padding (l : list ascii) : list ascii :=
  match List.rev l with
  | c1 :: c2 :: r =>
      if Ascii.eqb c1 "=" then
        if Ascii.eqb c2 "=" then List.rev r else List.rev (c2 :: r)
      else l
  | [c1] => if Ascii.eqb c1 "=" then [] else l
  | [] => l
  end.

Fixpoint values (l : list ascii) : option (list N) :=
  match l with
  | [] => Some []
  | c :: r =>
      match value c, values r with
      | Some v, Some vs => Some (v :: vs)
      | _, _ => None
      end
  end.

(** The bytes of a sequence of 6-bit values: four values give three bytes;
    two or three values left over give one or two bytes, the last bits
    being discarded; one value left over is a failure. *)
Fixpoint decode (v : list N) : option (list ascii) :=
  match v with
  | [] => Some []
  | [_] => None
  | [x; y] =>
      let n := (x * 64 + y)%N in
      Some [byte (n / 16)]
  | [x; y; z] =>
      let n := ((x * 64 + y) * 64 + z)%N in
      Some [byte (n / 1024); byte ((n / 4) mod 256)]
  | x :: y :: z :: w :: r =>
      let n := (((x * 64 + y) * 64 + z) * 64 + w)%N in
      match decode r with
      | Some bs =>
          Some (byte (n / 65536) :: byte ((n / 256) mod 256)
                  :: byte (n mod 256) :: bs)
      | None => None
      end
  end.

(** [atob(s)], the forgiving-base64 decode of the HTML standard; [None]
    where it throws. *)
Definition atob (s : string) : option string :=
  let data := List.filter (fun c => negb (is_ascii_whitespace c))
                (list_ascii_of_string s) in
  let data :=
    if (N.of_nat (List.length data) mod 4 =? 0)%N then strip_padding data
    else data in
  match values data with
  | Some vs => option_map string_of_list_ascii (decode vs)
  | None => None
  end.

(** The bytes of text without padding: [atob] past its first two steps. *)
Definition dec (data : list ascii) : option (list ascii) :=
  match values data with
  | Some vs => decode vs
  | None => None
  end.

End Base64.

(** ** crypto.service.ts, with its base64

    The service as it is written, on base64 texts. The platform gives the
    bytes of a buffer and the buffer of bytes. *)

(** The bytes of a buffer ([new Uint8Array(buf)]) and the buffer of bytes
    ([bytes.buffer]). *)
Class Octets (B : Browser) := {
  octets : bytes -> list ascii;
  buffer : list ascii -> bytes;
}.

Class OctetsLaws (B : Browser) (O : Octets B) : Prop := {
  buffer_octets : forall b, buffer (octets b) = b;
}.

Module CryptoService.
Section Literal.
Context {B : Browser} {O : Octets B}.

(** [{ iv: string; data: string }], base64 texts. *)
Record Wrapped := { iv : string; data : string }.

Definition b64enc (buf : bytes) : string :=
  Base64.btoa (string_of_list_ascii (octets buf)).

(** [b64dec(b64)]; [None] where [atob] throws. *)
Definition b64dec (b64 : string) : option bytes :=
  match Base64.atob b64 with
  | Some bin => Some (buffer (list_ascii_of_string bin))
  | None => None
  end.

Definition deriveKEK (password saltB64 : string) : option key :=
  match b64dec saltB64 with
  | Some salt => Some (pbkdf2 password salt)
  | None => None
  end.

Definition importDEK (rawB64 : string) : option key :=
  match b64dec rawB64 with
  | Some raw => importKey raw
  | None => None
  end.

Definition exportDEK (k : key) : string := b64enc (exportKey k).

(** [wrapDEK(dek, kek)]; [n] is the [randBytes(12)] it draws. *)
Definition wrapDEK (dek kek : key) (n : bytes) : option Wrapped :=
  let raw := exportDEK dek in
  match b64dec raw with
  | Some pt =>
      let ct := aes_gcm_encrypt kek n pt in
      Some {| iv := b64enc n; data := b64enc ct |}
  | None => None
  end.

Definition unwrapDEK (wrapped : Wrapped) (kek : key) : option key :=
  match b64dec (iv wrapped) with
  | Some n =>
      match b64dec (data wrapped) with
      | Some ct =>
          match aes_gcm_decrypt kek n ct with
          | Some pt => importDEK (b64enc pt)
          | None => None
          end
      | None => None
      end
  | None => None
  end.

Definition encryptString (plain : string) (dek : key) (n : bytes)
  : Wrapped :=
  let ct := aes_gcm_encrypt dek n (utf8_encode plain) in
  {| iv := b64enc n; data := b64enc ct |}.

Definition decryptString (enc : Wrapped) (dek : key) : option string :=
  match b64dec (iv enc) with
  | Some n =>
      match b64dec (data enc) with
      | Some ct =>
          match aes_gcm_decrypt dek n ct with
          | Some pt => Some (utf8_decode pt)
          | None => None
          end
      | None => None
      end
  | None => None
  end.

(** An envelope of buffers as the service stores it. *)
Definition b64 (e : Envelope) : Wrapped :=
  let (n, ct) := e in {| iv := b64enc n; data := b64enc ct |}.
End Literal.
End CryptoService.

(** ** models.ts *)
Module Models.
Record Note := {
  id : string;
  title : string;
  dateISO : string;
  contentHtml : string;
  imageDataUrls : option (list string);
  isImportant : bool;
  createdAt : Z;
  updatedAt : Z;
}.
End Models.

(** ** app.component.ts *)
Module AppComponent.
Import Models.

Inductive Mode := view | edit.

(** The notes, the selection and the fields of the editor form. *)
Record Editor := {
  notes : list Note;
  mode : Mode;
  selectedDate : string;
  editId : option string;
  f_title : string;
  f_dateISO : string;
  f_contentHtml : string;
  f_imageDataUrls : list string;
  f_isImportant : bool;
}.

(** Truthiness of [string | null]. *)
Definition truthy_id (o : option string) : bool :=
  match o with
  | Some s => truthy s
  | None => false
  end.

Definition closeEditor (e : Editor) : Editor :=
  {| notes := notes e; mode := view; selectedDate := selectedDate e;
     editId := None; f_title := f_title e; f_dateISO := f_dateISO e;
     f_contentHtml := f_contentHtml e; f_imageDataUrls := f_imageDataUrls e;
     f_isImportant := f_isImportant e |}.

(** [resetForm()]; [today] is what [todayISO()] returns. *)
Definition resetForm (today : string) (e : Editor) : Editor :=
  {| notes := notes e; mode := mode e; selectedDate := selectedDate e;
     editId := None; f_title := ""; f_dateISO := today;
     f_contentHtml := ""; f_imageDataUrls := []; f_isImportant := false |}.

Definition startEdit (n : Note) (e : Editor) : Editor :=
  {| notes := notes e; mode := edit; selectedDate := selectedDate e;
     editId := Some (id n); f_title := title n; f_dateISO := dateISO n;
     f_contentHtml := contentHtml n;
     f_imageDataUrls := default [] (imageDataUrls n);
     f_isImportant := isImportant n |}.

Definition newNote (today : string) (e : Editor) : Editor :=
  let e1 := resetForm today e in
  {| notes := notes e1; mode := edit; selectedDate := selectedDate e1;
     editId := editId e1; f_title := f_title e1;
     f_dateISO := selectedDate e1;
     f_contentHtml := f_contentHtml e1;
     f_imageDataUrls := f_imageDataUrls e1;
     f_isImportant := f_isImportant e1 |}.

(** The note [save()] builds; [now] is [Date.now()], [uuid] is
    [crypto.randomUUID()], [today] is [todayISO()]. *)
Definition base (now : Z) (uuid today : string) (e : Editor) : Note :=
  let d := if truthy (f_dateISO e) then f_dateISO e else today in
  {| id := default uuid (editId e);
     title := trim (f_title e);
     dateISO := d;
     contentHtml := f_contentHtml e;
     imageDataUrls := Some (f_imageDataUrls e);
     isImportant := f_isImportant e;
     createdAt :=
       match editId e with
       | Some i =>
           if truthy i then
             match List.find (fun n => String.eqb (id n) i) (notes e) with
             | Some n => createdAt n
             | None => now
             end
           else now
       | None => now
       end;
     updatedAt := now |}.

(** [save()]; [today'] is what the [todayISO()] of [resetForm()]
    returns. *)
Definition save (now : Z) (uuid today today' : string) (e : Editor)
  : Editor :=
  let b := base now uuid today e in
  let l :=
    if truthy_id (editId e)
    then List.map (fun n => if String.eqb (id n) (id b) then b else n) (notes e)
    else b :: notes e in
  {| notes := l; mode := view; selectedDate := dateISO b;
     editId := None; f_title := ""; f_dateISO := today';
     f_contentHtml := ""; f_imageDataUrls := []; f_isImportant := false |}.

(** [remove(id)]; [confirmed] is the answer to [confirm(...)]. *)
Definition remove (i : string) (confirmed : bool) (e : Editor) : Editor :=
  if confirmed then
    let e1 :=
      {| notes := List.filter (fun n => negb (String.eqb (id n) i)) (notes e);
         mode := mode e; selectedDate := selectedDate e;
         editId := editId e; f_title := f_title e; f_dateISO := f_dateISO e;
         f_contentHtml := f_contentHtml e;
         f_imageDataUrls := f_imageDataUrls e;
         f_isImportant := f_isImportant e |} in
    if bool_decide (editId e = Some i) then closeEditor e1 else e1
  else e.

Definition hasNotesOn (d : string) (e : Editor) : bool :=
  List.existsb (fun n => String.eqb (dateISO n) d) (notes e).

(** [Array.prototype.sort(cmp)]: the stable sort, [a] before [b] unless
    [cmp(a, b) > 0]. *)
Fixpoint insert_sorted {A} (cmp : A -> A -> Z) (x : A) (l : list A) : list A :=
  match l with
  | [] => [x]
  | y :: r => if (cmp x y >? 0)%Z then y :: insert_sorted cmp x r
              else x :: y :: r
  end.

Definition sort {A} (cmp : A -> A -> Z) (l : list A) : list A :=
  List.fold_right (insert_sorted cmp) [] l.

Definition newest_first (a b : Note) : Z := (updatedAt b - updatedAt a)%Z.

Definition important (e : Editor) : list Note :=
  sort newest_first (List.filter isImportant (notes e)).

Definition dayNotes (e : Editor) : list Note :=
  sort newest_first
    (List.filter (fun n => String.eqb (dateISO n) (selectedDate e)) (notes e)).

(** [prevMonth()] and [nextMonth()] on [(viewYear, viewMonth)]. *)
Definition prevMonth (ym : Z * Z) : Z * Z :=
  let m := (snd ym - 1)%Z in
  if (m <? 0)%Z then (fst ym - 1, 11)%Z else (fst ym, m).

Definition nextMonth (ym : Z * Z) : Z * Z :=
  let m := (snd ym + 1)%Z in
  if (m >? 11)%Z then (fst ym + 1, 0)%Z else (fst ym, m).

(** The fields of the image viewer that the index arithmetic reads and
    writes ([zoom] and [offset], which [resetZoom()] sets, are left out). *)
Record Viewer := {
  imageViewerOpen : bool;
  viewerImages : list string;
  viewerIndex : Z;
}.

Definition len (v : Viewer) : Z := Z.of_nat (List.length (viewerImages v)).

(** [openImageViewer(imgs, index)] *)
Definition openImageViewer (imgs : list string) (index : Z) (v : Viewer)
  : Viewer :=
  match imgs with
  | [] => v
  | _ :: _ =>
      {| imageViewerOpen := true;
         viewerImages := imgs;
         viewerIndex :=
           Z.max 0 (Z.min index (Z.of_nat (List.length imgs) - 1)) |}
  end.

Definition nextImage (v : Viewer) : Viewer :=
  if (len v >? 0)%Z then
    {| imageViewerOpen := imageViewerOpen v;
       viewerImages := viewerImages v;
       viewerIndex := Z.rem (viewerIndex v + 1) (len v) |}
  else v.

Definition prevImage (v : Viewer) : Viewer :=
  if (len v >? 0)%Z then
    {| imageViewerOpen := imageViewerOpen v;
       viewerImages := viewerImages v;
       viewerIndex := Z.rem (viewerIndex v - 1 + len v) (len v) |}
  else v.

(** [currentAccount], computed from the service. *)
Definition currentAccount {B : Browser} (s : State)
  : option AccountMeta :=
  match currentAccountId s with
  | Some i => find_account i (accounts s)
  | None => None
  end.

(** [s.padStart(2, '0')] *)
Definition padStart2 (s : string) : string :=
  match String.length s with
  | 0%nat => "00"
  | 1%nat => "0" ++ s
  | _ => s
  end.

(** [dateToISO(d)], from [d.getFullYear()], [d.getMonth()] and
    [d.getDate()]; [String(n)] of an integer is its decimal numeral. *)
Definition dateToISO (fullYear month date : Z) : string :=
  pretty fullYear ++ "-" ++ padStart2 (pretty (month + 1)%Z) ++ "-"
    ++ padStart2 (pretty date).

(** [padStart2] gives two characters for each of the [n] numbers from
    [lo], and different ones for different numbers: the check, by
    enumeration. *)
Definition two_digits_ok (lo : Z) (n : nat) : bool :=
  let l := List.map (fun k => lo + Z.of_nat k)%Z (seq 0 n) in
  List.forallb
    (fun a =>
       Nat.eqb (String.length (padStart2 (pretty a))) 2 &&
       List.forallb
         (fun b =>
            implb (String.eqb (padStart2 (pretty a)) (padStart2 (pretty b)))
              (a =? b)%Z) l) l.

(** The index of the viewer points at one of its images. *)
Definition in_range (v : Viewer) : Prop :=
  (0 <= viewerIndex v < len v)%Z.

(** [a] was updated no earlier than [b]. *)
Definition newer_or_equal (a b : Note) : Prop :=
  (updatedAt b <= updatedAt a)%Z.

(** An editor on one note, the form filled in for a new one. *)
Definition one_note : Note :=
  {| id := "n1"; title := "first"; dateISO := "2026-11-01";
     contentHtml := "<p>a</p>"; imageDataUrls := None; isImportant := true;
     createdAt := 100; updatedAt := 100 |}.

Definition new_form : Editor :=
  {| notes := [one_note]; mode := edit; selectedDate := "2026-11-01";
     editId := None; f_title := " second "; f_dateISO := "2026-11-02";
     f_contentHtml := "<p>b</p>"; f_imageDataUrls := [];
     f_isImportant := false |}.
End AppComponent.

(** ** app.component.ts: the calendar grid *)
Module Calendar.

Record Cell := { day : Z; iso : string; inMonth : bool; isToday : bool }.

Section Grid.
(** [this.iso(y, m, d)] and [this.todayISO()]: texts the [Date] of the
    platform gives. *)
Variable isoOf : Z -> Z -> Z -> string.
Variable today : string.
(** [viewYear], [viewMonth], and what [Date] answers for them:
    [first.getDay()], [last.getDate()] and the last day of the month
    before. *)
Variables y m getDay daysInMonth prevLast : Z.

Definition startDay : Z := Z.rem (getDay + 6) 7.

(** The cell the first loop pushes at [i]. *)
Definition leadingCell (i : Z) : Cell :=
  let d := (prevLast - i)%Z in
  {| day := d; iso := isoOf y (m - 1) d; inMonth := false; isToday := false |}.

(** The cell the second loop pushes at [d]. *)
Definition monthCell (d : Z) : Cell :=
  let s := isoOf y m d in
  {| day := d; iso := s; inMonth := true; isToday := String.eqb s today |}.

(** The cell the last loop pushes when [cells.length] is [n]. *)
Definition trailingCell (n : nat) : Cell :=
  let d := (Z.of_nat n - (startDay + daysInMonth) + 1)%Z in
  {| day := d; iso := isoOf y (m + 1) d; inMonth := false; isToday := false |}.

(** [for (let i = startDay - 1; i >= 0; i--)]: [n] rounds from [i]. *)
Fixpoint leading (n : nat) (i : Z) (cells : list Cell) : list Cell :=
  match n with
  | O => cells
  | S n' =>
      if (i >=? 0)%Z then leading n' (i - 1) (cells ++ [leadingCell i])
      else cells
  end.

(** [for (let d = 1; d <= daysInMonth; d++)]: [n] rounds from [d]. *)
Fixpoint month (n : nat) (d : Z) (cells : list Cell) : list Cell :=
  match n with
  | O => cells
  | S n' =>
      if (d <=? daysInMonth)%Z then month n' (d + 1) (cells ++ [monthCell d])
      else cells
  end.

(** [while (cells.length % 7 !== 0)]: [n] rounds. *)
Fixpoint trailing (n : nat) (cells : list Cell) : list Cell :=
  match n with
  | O => cells
  | S n' =>
      if (List.length cells mod 7 =? 0)%nat then cells
      else trailing n' (cells ++ [trailingCell (List.length cells)])
  end.

(** [calendarDays], every loop given [fuel] rounds. *)
Definition calendarDays (fuel : nat) : list Cell :=
  trailing fuel (month fuel 1 (leading fuel (startDay - 1) [])).
End Grid.
End Calendar.

(** ** local-storage.service.ts

    Here the store holds the raw texts. [stringify] and [parse] are
    [JSON.stringify] and [JSON.parse] at the type [T]; [parse] is [None]
    where [JSON.parse] throws. *)
Module LocalStorageService.
Section Typed.
Context {T : Type} (stringify : T -> string) (parse : string -> option T).

Definition get (k : string) (fallback : T) (ls : gmap string string) : T :=
  match ls !! k with
  | Some raw =>
      if truthy raw then
        match parse raw with
        | Some v => v
        | None => fallback
        end
      else fallback
  | None => fallback
  end.

Definition set (k : string) (value : T) (ls : gmap string string)
  : gmap string string :=
  <[ k := stringify value ]> ls.

Definition remove (k : string) (ls : gmap string string)
  : gmap string string :=
  delete k ls.
End Typed.
End LocalStorageService.

(** ** app.component.ts: the admin panel

    The fields of the panel and the methods behind it, over the state of
    [AuthService]. What [alert] has shown is kept, latest first; the answer
    to [confirm] is an argument. *)
Module AdminPanel.

Inductive Alert :=
| SelectAccount             (* 'Select an account' *)
| NoAccounts                (* 'No accounts to manage' *)
| ResetDone                 (* 'Password reset successfully.' *)
| ResetFailed (e : Error).  (* 'Failed to reset password: ' + message *)

Record Panel := {
  adminOpen : bool;
  adminSelectedAccountId : option string;
  adminNewPassword : string;
  alerts : list Alert;
}.

Definition alert (a : Alert) (p : Panel) : Panel :=
  {| adminOpen := adminOpen p;
     adminSelectedAccountId := adminSelectedAccountId p;
     adminNewPassword := adminNewPassword p;
     alerts := a :: alerts p |}.

(** The user types [pw] into the field of the panel. *)
Definition type_adminNewPassword (pw : string) (p : Panel) : Panel :=
  {| adminOpen := adminOpen p;
     adminSelectedAccountId := adminSelectedAccountId p;
     adminNewPassword := pw;
     alerts := alerts p |}.

Definition closeAdminPanel (p : Panel) : Panel :=
  {| adminOpen := false;
     adminSelectedAccountId := adminSelectedAccountId p;
     adminNewPassword := adminNewPassword p;
     alerts := alerts p |}.

(** The panel as the component is constructed. *)
Definition closed : Panel :=
  {| adminOpen := false; adminSelectedAccountId := None;
     adminNewPassword := ""; alerts := [] |}.

Section Methods.
Context {B : Browser}.

(** [openAdminPanel()] *)
Definition openAdminPanel (p : Panel) (s : State) : Panel :=
  match accounts s with
  | [] => alert NoAccounts p
  | acc :: _ =>
      {| adminOpen := true;
         adminSelectedAccountId := Some (id acc);
         adminNewPassword := "";
         alerts := alerts p |}
  end.

(** [adminResetPassword()]; [confirmed] answers 'Password looks short.
    Proceed anyway?', [salt] and [iv] are what the service draws. The
    [catch] takes whatever the service throws, so the method returns. *)
Definition adminResetPassword (confirmed : bool) (salt iv : bytes)
    (p : Panel) (s : State) : Panel * State :=
  match adminSelectedAccountId p with
  | Some i =>
      if truthy i then
        if (negb (truthy (adminNewPassword p))
            || (String.length (adminNewPassword p) <? 6)%nat)
           && negb confirmed
        then (p, s)
        else
          match resetAccountPassword i (adminNewPassword p) salt iv s with
          | (Ok _, s') => (closeAdminPanel (alert ResetDone p), s')
          | (Err e, s') => (alert (ResetFailed e) p, s')
          end
      else (alert SelectAccount p, s)
  | None => (alert SelectAccount p, s)
  end.
End Methods.
End AdminPanel.

(** ** app.component.ts: the custom title

    The title signal, the field of its editor and the entry
    [diary_custom_title] of the store, which here holds the raw texts.
    [appTitle] is the translation of [APP_TITLE] in the current language. *)
Module Title.

Definition TITLE_KEY : string := "diary_custom_title".

Record TitleState := {
  customTitle : string;
  isEditingTitle : bool;
  titleInput : string;
  store : gmap string string;
}.

(** The fields as the component is constructed on the store [ls]. *)
Definition init (ls : gmap string string) : TitleState :=
  {| customTitle := default "" (ls !! TITLE_KEY);
     isEditingTitle := false;
     titleInput := "";
     store := ls |}.

Definition displayTitle (appTitle : string) (t : TitleState) : string :=
  if truthy (customTitle t) then customTitle t else appTitle.

(** [startEditTitle()], the translation delivered. *)
Definition startEditTitle (appTitle : string) (t : TitleState) : TitleState :=
  {| customTitle := customTitle t;
     isEditingTitle := true;
     titleInput := if truthy (customTitle t) then customTitle t else appTitle;
     store := store t |}.

Definition saveTitle (t : TitleState) : TitleState :=
  let v := trim (titleInput t) in
  {| customTitle := v;
     isEditingTitle := false;
     titleInput := titleInput t;
     store := if truthy v then <[ TITLE_KEY := v ]> (store t)
              else delete TITLE_KEY (store t) |}.

Definition cancelEditTitle (t : TitleState) : TitleState :=
  {| customTitle := customTitle t;
     isEditingTitle := false;
     titleInput := titleInput t;
     store := store t |}.

End Title.

(** ** theme.service.ts (the service with palettes)

    The store holds the raw texts, [rootStyle] the custom properties of
    [document.documentElement.style] and [bodyStyle] the style of the
    body. [prefersDark] is what [matchMedia('(prefers-color-scheme:
    dark)')] answers. [parse] is [JSON.parse] on the text of a palette:
    [None] where it throws, [Some None] for [null], [Some (Some p)] for a
    palette; [stringify] is [JSON.stringify]. A mode is any text: the cast
    of the stored text to [ThemeMode] checks nothing. *)
Module ThemeService.

Record Palette := {
  bg : string;
  panel : string;
  panel2 : string;
  text : string;
  muted : string;
  border : string;
  primary : string;
  accent : string;
}.

Definition THEME_KEY : string := "diary_theme_mode".
Definition PALETTE_KEY : string := "diary_theme_palette_v1".

Record Theme := {
  _theme : string;
  _palette : Palette;
  store : gmap string string;
  rootStyle : gmap string string;
  bodyStyle : gmap string string;
}.

Definition defaultPalette (kind : string) : Palette :=
  if String.eqb kind "light" then
    {| bg := "#f6f7fb"; panel := "#ffffff"; panel2 := "#f1f5f9";
       text := "#0f172a"; muted := "#64748b"; border := "#e2e8f0";
       primary := "#237a9f"; accent := "#3b82f6" |}
  else
    {| bg := "#0b1120"; panel := "#12172a"; panel2 := "#0f1426";
       text := "#e5e9f5"; muted := "#94a3b8"; border := "#1f2937";
       primary := "#237a9f"; accent := "#58a6ff" |}.

(** [style.setProperty(name, value)] on a custom property: the empty
    value removes it. *)
Definition setProperty (name value : string) (st : gmap string string)
  : gmap string string :=
  if truthy value then <[ name := value ]> st else delete name st.

Section Service.
Variable prefersDark : bool.
Variable stringify : Palette -> string.
Variable parse : string -> option (option Palette).

(** [base] and [active] of [apply(mode, p)]. *)
Definition base (mode : string) : string :=
  if String.eqb mode "system" then (if prefersDark then "dark" else "light")
  else mode.

Definition active (mode : string) (p : Palette) : Palette :=
  if String.eqb (base mode) "custom" then p else defaultPalette (base mode).

Definition apply (mode : string) (p : Palette) (t : Theme) : Theme :=
  let a := active mode p in
  let shadow :=
    if String.eqb (base mode) "light" then "0 6px 24px rgba(16,24,40,.08)"
    else "0 8px 28px rgba(0,0,0,.45)" in
  {| _theme := _theme t;
     _palette := _palette t;
     store := store t;
     rootStyle :=
       setProperty "--shadow" shadow
         (setProperty "--accent" (accent a)
            (setProperty "--primary" (primary a)
               (setProperty "--border" (border a)
                  (setProperty "--muted" (muted a)
                     (setProperty "--text" (text a)
                        (setProperty "--panel-2" (panel2 a)
                           (setProperty "--panel" (panel a)
                              (setProperty "--bg" (bg a) (rootStyle t)))))))));
     bodyStyle :=
       <[ "color" := "var(--text)" ]>
         (<[ "background" := "var(--bg)" ]> (bodyStyle t)) |}.

(** The effect of the constructor, run after a change of the signals. *)
Definition effect (t : Theme) : Theme := apply (_theme t) (_palette t) t.

(** The field initialisers and the constructor, on the store [ls] and the
    styles of the page; [None] where [JSON.parse] throws. *)
Definition new (ls root body : gmap string string) : option Theme :=
  let mode :=
    match ls !! THEME_KEY with
    | Some m => if truthy m then m else "system"
    | None => "system"
    end in
  let raw :=
    match ls !! PALETTE_KEY with
    | Some r => if truthy r then r else "null"
    | None => "null"
    end in
  match parse raw with
  | Some o =>
      let p := default (defaultPalette "dark") o in
      Some (apply mode p
              {| _theme := mode; _palette := p; store := ls;
                 rootStyle := root; bodyStyle := body |})
  | None => None
  end.

Definition set (mode : string) (t : Theme) : Theme :=
  {| _theme := mode;
     _palette := _palette t;
     store := <[ THEME_KEY := mode ]> (store t);
     rootStyle := rootStyle t;
     bodyStyle := bodyStyle t |}.

Definition setCustom (p : Palette) (t : Theme) : Theme :=
  set "custom"
    {| _theme := _theme t;
       _palette := p;
       store := <[ PALETTE_KEY := stringify p ]> (store t);
       rootStyle := rootStyle t;
       bodyStyle := bodyStyle t |}.

Definition resetCustom (to : string) (t : Theme) : Theme :=
  let p := defaultPalette to in
  set "custom"
    {| _theme := _theme t;
       _palette := p;
       store := <[ PALETTE_KEY := stringify p ]> (store t);
       rootStyle := rootStyle t;
       bodyStyle := bodyStyle t |}.

(** [JSON.parse] reads back what [JSON.stringify] printed for [p], which is
    not the empty text. *)
Definition round_trip (p : Palette) : Prop :=
  stringify p <> "" /\ parse (stringify p) = Some (Some p).

(** The two signals are what a constructor would read from the store. *)
Definition persisted (t : Theme) : Prop :=
  forall root body,
    exists t0, new (store t) root body = Some t0 /\
               _theme t0 = _theme t /\ _palette t0 = _palette t.

(** The custom properties [apply] writes. *)
Definition variables : list string :=
  ["--bg"; "--panel"; "--panel-2"; "--text"; "--muted"; "--border";
   "--primary"; "--accent"; "--shadow"].
End Service.
End ThemeService.

(** ** A platform without cryptography

    Buffers and keys are byte sequences and sealing is the identity: a
    platform on which the base64 layer of [CryptoService] runs on concrete
    texts (it has the bytes of every buffer, and none of the secrecy of
    [BrowserLaws]). With it, the JSON of a boolean, for the storage
    service, and of one palette, for the theme service. *)
Module Plain.

Definition browser : Browser :=
  {| key := list ascii;
     bytes := list ascii;
     pbkdf2 := fun password salt => (list_ascii_of_string password ++ salt)%list;
     aes_gcm_encrypt := fun _ _ pt => pt;
     aes_gcm_decrypt := fun _ _ ct => Some ct;
     exportKey := fun k => k;
     importKey := Some;
     utf8_encode := list_ascii_of_string;
     utf8_decode := string_of_list_ascii;
     Note := ascii;
     JSON_stringify := Ideal.stringify;
     JSON_parse := Ideal.parse |}.

Definition plain_octets : Octets browser :=
  {| octets := fun b : @bytes browser => (b : list ascii);
     buffer := fun l : list ascii => (l : @bytes browser) |}.

Definition stringify_bool (b : bool) : string :=
  if b then "true" else "false".

Definition parse_bool (s : string) : option bool :=
  if String.eqb s "true" then Some true
  else if String.eqb s "false" then Some false
  else None.

(** A codec for the built-in dark palette alone. *)
Definition stringify_dark (_ : ThemeService.Palette) : string := "dark".

Definition parse_dark (s : string)
  : option (option ThemeService.Palette) :=
  if String.eqb s "dark" then Some (Some (ThemeService.defaultPalette "dark"))
  else if String.eqb s "null" then Some None
  else None.

End Plain.

(** * Properties *)

(** ** The ideal platform satisfies the laws *)

Lemma term_eqb_eq (a b : Ideal.term) : Ideal.term_eqb a b = true <-> a = b.
Proof.
  revert b; induction a as [s|p s IH|k IHk n IHn pt IHpt]; intros [t|q t|k' n' pt'];
    simpl; try (split; [discriminate | intros [=]]).
  - rewrite String.eqb_eq. split; [intros ->; reflexivity | intros [=]; assumption].
  - rewrite andb_true_iff, String.eqb_eq, IH.
    split; [intros [-> ->]; reflexivity | intros [=]; auto].
  - rewrite !andb_true_iff, IHk, IHn, IHpt.
    split; [intros [[-> ->] ->]; reflexivity | intros [=]; auto].
Qed.

Lemma term_eqb_refl (a : Ideal.term) : Ideal.term_eqb a a = true.
Proof. apply term_eqb_eq; reflexivity. Qed.

Lemma ideal_open_inv (k n ct pt : Ideal.term) :
  Ideal.open k n ct = Some pt -> ct = Ideal.Seal k n pt.
Proof.
  destruct ct as [s|p s|k' n' pt']; simpl; try discriminate.
  destruct (Ideal.term_eqb k k' && Ideal.term_eqb n n') eqn:E; [|discriminate].
  apply andb_true_iff in E as [Hk Hn].
  apply term_eqb_eq in Hk, Hn. intros [= ->]. congruence.
Qed.

Lemma ideal_parse_stringify (l : list ascii) :
  Ideal.parse (Ideal.stringify l) = Some (Collection l).
Proof.
  unfold Ideal.parse, Ideal.stringify.
  rewrite list_ascii_of_string_of_list_ascii, rev_app_distr. simpl.
  rewrite rev_involutive. reflexivity.
Qed.

Lemma ideal_laws : BrowserLaws Ideal.browser.
Proof.
  split.
  - intros k n pt. simpl. rewrite !term_eqb_refl. reflexivity.
  - intros k k' n pt pt' H.
    apply (ideal_open_inv k' n (Ideal.Seal k n pt) pt') in H. congruence.
  - exact ideal_open_inv.
  - reflexivity.
  - reflexivity.
  - apply ideal_parse_stringify.
Qed.

(** ** crypto.service.ts: wrapping and unwrapping *)

Section CryptoFacts.
Context {B : Browser} {L : BrowserLaws B}.

Lemma unwrapDEK_wrapDEK (d k : key) (n : bytes) :
  unwrapDEK (wrapDEK d k n) k = Some d.
Proof.
  unfold unwrapDEK, wrapDEK; simpl.
  rewrite decrypt_encrypt. apply import_export.
Qed.

Lemma unwrapDEK_wrapDEK_inv (d d' k k' : key) (n : bytes) :
  unwrapDEK (wrapDEK d k n) k' = Some d' -> k' = k /\ d' = d.
Proof.
  unfold unwrapDEK, wrapDEK; simpl.
  destruct (aes_gcm_decrypt k' n _) as [pt|] eqn:E; [|discriminate].
  intros Hi. pose proof (decrypt_authentic _ _ _ _ _ E) as ->.
  rewrite decrypt_encrypt in E. injection E as <-.
  rewrite import_export in Hi. injection Hi as <-. split; reflexivity.
Qed.

Lemma unwrapDEK_commit (w : Envelope) (k1 k2 d1 d2 : key) :
  unwrapDEK w k1 = Some d1 -> unwrapDEK w k2 = Some d2 -> d1 = d2.
Proof.
  unfold unwrapDEK.
  destruct (aes_gcm_decrypt k1 _ _) as [p1|] eqn:E1; [|discriminate].
  destruct (aes_gcm_decrypt k2 _ _) as [p2|] eqn:E2; [|discriminate].
  intros H1 H2. apply decrypt_sealed in E1. rewrite E1 in E2.
  pose proof (decrypt_authentic _ _ _ _ _ E2) as ->.
  rewrite decrypt_encrypt in E2. injection E2 as <-. congruence.
Qed.

Lemma unwrapDEK_other_key (d k k' : key) (n : bytes) :
  k' <> k -> unwrapDEK (wrapDEK d k n) k' = None.
Proof.
  intros Hne.
  destruct (unwrapDEK _ _) as [d'|] eqn:E; [|reflexivity].
  apply unwrapDEK_wrapDEK_inv in E as [E _]. contradiction.
Qed.

Lemma decryptString_encryptString (plain : string) (d : key) (n : bytes) :
  decryptString (encryptString plain d n) d = Some plain.
Proof.
  unfold decryptString, encryptString; simpl.
  rewrite decrypt_encrypt, utf8_decode_encode. reflexivity.
Qed.
End CryptoFacts.

(** ** The store and the methods, step by step *)

Section Runs.
Context {B : Browser} {L : BrowserLaws B}.

Lemma NOTES_KEY_not_accounts (i : string) : NOTES_KEY i <> KEY_ACCOUNTS.
Proof. unfold NOTES_KEY, KEY_ACCOUNTS. simpl. discriminate. Qed.

Lemma NOTES_KEY_not_master (i : string) : NOTES_KEY i <> KEY_MASTER_META.
Proof. unfold NOTES_KEY, KEY_MASTER_META. simpl. discriminate. Qed.

Lemma KEY_ACCOUNTS_not_master : KEY_ACCOUNTS <> KEY_MASTER_META.
Proof. discriminate. Qed.

Lemma getMasterMeta_state (s : State) :
  getMasterMeta s = (fst (getMasterMeta s), s).
Proof.
  unfold getMasterMeta, bind, getItem, gets, throw, ret.
  destruct (localStorage s !! KEY_MASTER_META) as [[l|salt|e|[|c r]]|]; reflexivity.
Qed.

Lemma getMasterMeta_frame (s s' : State) :
  localStorage s' !! KEY_MASTER_META = localStorage s !! KEY_MASTER_META ->
  fst (getMasterMeta s') = fst (getMasterMeta s).
Proof.
  intros H. unfold getMasterMeta, bind, getItem, gets. rewrite H.
  destruct (localStorage s !! KEY_MASTER_META) as [[l|salt|e|[|c r]]|]; reflexivity.
Qed.

Lemma registerAccount_run (s : State) (nm pw : string) (r : RegisterRandom)
    (mm : bytes) :
  fst (getMasterMeta s) = Ok mm ->
  let meta :=
    {| id := r_id r; name := nm; createdAt := r_now r; saltB64 := r_salt r;
       dekWrappedByAccount :=
         wrapDEK (r_dek r) (deriveKEK pw (r_salt r)) (r_ivAccount r);
       dekWrappedByMaster :=
         Some (wrapDEK (r_dek r) (deriveKEK (MASTER_SECRET s) mm)
                 (r_ivMaster r)) |} in
  registerAccount nm pw r s =
    (Ok tt,
     {| accounts := meta :: accounts s;
        currentAccountId := currentAccountId s;
        dek := dek s;
        MASTER_SECRET := MASTER_SECRET s;
        localStorage :=
          <[ NOTES_KEY (r_id r) :=
               JEnvelope (encryptString (JSON_stringify []) (r_dek r)
                            (r_ivNotes r)) ]>
            (<[ KEY_ACCOUNTS := JAccounts (meta :: accounts s) ]>
               (localStorage s)) |}).
Proof.
  intros H meta. unfold registerAccount.
  unfold bind at 1. rewrite getMasterMeta_state, H.
  reflexivity.
Qed.

Lemma registerAccount_fail (s : State) (nm pw : string) (r : RegisterRandom)
    (e : Error) :
  fst (getMasterMeta s) = Err e -> registerAccount nm pw r s = (Err e, s).
Proof.
  intros H. unfold registerAccount.
  unfold bind at 1. rewrite getMasterMeta_state, H. reflexivity.
Qed.
Lemma truthy_true (s : string) : truthy s = true <-> s <> "".
Proof. destruct s; simpl; split; congruence. Qed.

Lemma master_test (secret pw : string) :
  truthy secret && String.eqb pw secret = true <-> secret <> "" /\ pw = secret.
Proof. rewrite andb_true_iff, truthy_true, String.eqb_eq. reflexivity. Qed.

Lemma master_test_false (secret pw : string) :
  truthy secret && String.eqb pw secret = false <-> secret = "" \/ pw <> secret.
Proof.
  rewrite andb_false_iff, String.eqb_neq.
  destruct secret; simpl; split; intros [H|H]; auto; discriminate.
Qed.

Lemma loginWithAccount_found (s : State) (i x : string) (iv : bytes)
    (acc : AccountMeta) :
  find_account i (accounts s) = Some acc ->
  loginWithAccount i x iv s =
    if truthy (MASTER_SECRET s) && String.eqb (trim x) (MASTER_SECRET s)
    then login_master i acc s
    else try_catch (login_account i (trim x) acc iv) (throw InvalidPassword) s.
Proof.
  intros H. unfold loginWithAccount, bind, gets. rewrite H.
  destruct (truthy _ && _); reflexivity.
Qed.

Lemma loginWithAccount_not_found (s : State) (i x : string) (iv : bytes) :
  find_account i (accounts s) = None ->
  loginWithAccount i x iv s = (Err AccountNotFound, s).
Proof.
  intros H. unfold loginWithAccount, bind, gets. rewrite H. reflexivity.
Qed.

Lemma login_master_none (s : State) (i : string) (acc : AccountMeta) :
  dekWrappedByMaster acc = None ->
  login_master i acc s = (Err MasterNotConfigured, s).
Proof. intros H. unfold login_master. rewrite H. reflexivity. Qed.

Lemma login_master_some (s : State) (i : string) (acc : AccountMeta)
    (wm : Envelope) (mm : bytes) :
  dekWrappedByMaster acc = Some wm ->
  fst (getMasterMeta s) = Ok mm ->
  login_master i acc s =
    match unwrapDEK wm (deriveKEK (MASTER_SECRET s) mm) with
    | Some d => (Ok tt, logged_in i d s)
    | None => (Err CryptoFailure, s)
    end.
Proof.
  intros Hw Hm. unfold login_master. rewrite Hw.
  unfold bind at 1. rewrite getMasterMeta_state, Hm.
  unfold bind, gets, await; simpl.
  destruct (unwrapDEK wm _); reflexivity.
Qed.

Lemma login_master_no_meta (s : State) (i : string) (acc : AccountMeta)
    (wm : Envelope) (e : Error) :
  dekWrappedByMaster acc = Some wm ->
  fst (getMasterMeta s) = Err e ->
  login_master i acc s = (Err e, s).
Proof.
  intros Hw Hm. unfold login_master. rewrite Hw.
  unfold bind at 1. rewrite getMasterMeta_state, Hm. reflexivity.
Qed.

Lemma login_account_reject (s : State) (i pw : string) (acc : AccountMeta)
    (iv : bytes) :
  unwrapDEK (dekWrappedByAccount acc) (deriveKEK pw (saltB64 acc)) = None ->
  try_catch (login_account i pw acc iv) (throw InvalidPassword) s
    = (Err InvalidPassword, s).
Proof.
  intros H. unfold try_catch, login_account, bind, await. rewrite H.
  reflexivity.
Qed.

Lemma migrate_skip (s : State) (acc : AccountMeta) (d : key) (iv : bytes) :
  MASTER_SECRET s = "" \/ is_Some (dekWrappedByMaster acc) ->
  migrate acc d iv s = (Ok tt, s).
Proof.
  intros H. unfold migrate, bind, gets.
  destruct H as [-> | [w ->]]; simpl; [reflexivity|].
  destruct (truthy _); reflexivity.
Qed.

Lemma migrate_run (s : State) (acc : AccountMeta) (d : key) (iv : bytes)
    (mm : bytes) :
  MASTER_SECRET s <> "" ->
  dekWrappedByMaster acc = None ->
  fst (getMasterMeta s) = Ok mm ->
  let l :=
    replace_account acc
      (with_master acc (wrapDEK d (deriveKEK (MASTER_SECRET s) mm) iv))
      (accounts s) in
  migrate acc d iv s =
    (Ok tt,
     set_localStorage (<[ KEY_ACCOUNTS := JAccounts l ]> (localStorage s))
       (set_accounts l s)).
Proof.
  intros Hs Hw Hm l. unfold migrate.
  unfold bind at 1, gets at 1. apply truthy_true in Hs. rewrite Hs, Hw.
  unfold bind at 1. rewrite getMasterMeta_state, Hm. reflexivity.
Qed.

Lemma migrate_fail (s : State) (acc : AccountMeta) (d : key) (iv : bytes)
    (e : Error) :
  MASTER_SECRET s <> "" ->
  dekWrappedByMaster acc = None ->
  fst (getMasterMeta s) = Err e ->
  migrate acc d iv s = (Err e, s).
Proof.
  intros Hs Hw Hm. unfold migrate.
  unfold bind at 1, gets at 1. apply truthy_true in Hs. rewrite Hs, Hw.
  unfold bind at 1. rewrite getMasterMeta_state, Hm. reflexivity.
Qed.

Lemma login_account_accept (s : State) (i pw : string) (acc : AccountMeta)
    (iv : bytes) (d : key) :
  unwrapDEK (dekWrappedByAccount acc) (deriveKEK pw (saltB64 acc)) = Some d ->
  try_catch (login_account i pw acc iv) (throw InvalidPassword) s =
    match migrate acc d iv (logged_in i d s) with
    | (Ok _, s') => (Ok tt, s')
    | (Err _, s') => (Err InvalidPassword, s')
    end.
Proof.
  intros H. unfold try_catch, login_account, bind, await. rewrite H.
  unfold ret, modify; simpl. fold (logged_in i d s).
  destruct (migrate acc d iv (logged_in i d s)) as [[[]|e] s']; reflexivity.
Qed.

Lemma find_account_head (a : AccountMeta) (l : list AccountMeta) :
  find_account (id a) (a :: l) = Some a.
Proof. unfold find_account; simpl. rewrite String.eqb_refl. reflexivity. Qed.

Lemma find_account_id (i : string) (l : list AccountMeta) (acc : AccountMeta) :
  find_account i l = Some acc -> id acc = i.
Proof.
  intros H. apply find_some in H as [_ H]. apply String.eqb_eq in H. exact H.
Qed.

Lemma find_account_In (i : string) (l : list AccountMeta) (acc : AccountMeta) :
  find_account i l = Some acc -> In acc l.
Proof. intros H. apply find_some in H as [H _]. exact H. Qed.

Lemma registerAccount_meta (s : State) (nm p : string) (r : RegisterRandom) :
  fst (registerAccount nm p r s) = Ok tt ->
  exists mm, fst (getMasterMeta s) = Ok mm.
Proof.
  intros H. destruct (fst (getMasterMeta s)) as [mm|e] eqn:E; [eauto|].
  rewrite (registerAccount_fail _ _ _ _ _ E) in H. discriminate.
Qed.

Lemma loadNotes_run (s : State) (i : string) (d : key) (blob : Envelope)
    (notes : list Note) :
  dek s = Some d ->
  currentAccountId s = Some i ->
  localStorage s !! NOTES_KEY i = Some (JEnvelope blob) ->
  decryptString blob d = Some (JSON_stringify notes) ->
  i <> "" ->
  loadNotes s = (Ok (Collection notes), s).
Proof.
  intros Hd Hi Hb Hdec Hne. unfold loadNotes, bind, gets, session.
  rewrite Hd, Hi. apply truthy_true in Hne. rewrite Hne.
  unfold getItem, gets. rewrite Hb. unfold await. rewrite Hdec.
  unfold bind, ret. rewrite JSON_parse_stringify. reflexivity.
Qed.

Lemma loadNotes_no_session (s : State) :
  session s = None -> loadNotes s = (Ok (Collection []), s).
Proof. intros H. unfold loadNotes, bind, gets. rewrite H. reflexivity. Qed.

Lemma migrate_cases (s : State) (acc : AccountMeta) (d : key) (iv : bytes) :
  migrate acc d iv s = (Ok tt, s) \/
  (exists e, migrate acc d iv s = (Err e, s)) \/
  (exists mm,
     MASTER_SECRET s <> "" /\ dekWrappedByMaster acc = None /\
     fst (getMasterMeta s) = Ok mm /\
     let l :=
       replace_account acc
         (with_master acc (wrapDEK d (deriveKEK (MASTER_SECRET s) mm) iv))
         (accounts s) in
     migrate acc d iv s =
       (Ok tt,
        set_localStorage (<[ KEY_ACCOUNTS := JAccounts l ]> (localStorage s))
          (set_accounts l s))).
Proof.
  destruct (String.eqb_spec (MASTER_SECRET s) "") as [He|Hne].
  { left. apply migrate_skip. left. exact He. }
  destruct (dekWrappedByMaster acc) as [w|] eqn:Hw.
  { left. apply migrate_skip. right. rewrite Hw. eexists; reflexivity. }
  destruct (fst (getMasterMeta s)) as [mm|e] eqn:Hm.
  - right; right. exists mm. repeat split; try assumption.
    apply migrate_run; assumption.
  - right; left. exists e. apply migrate_fail; assumption.
Qed.

Lemma session_Some (s : State) (i : string) (d : key) :
  session s = Some (i, d) ->
  dek s = Some d /\ currentAccountId s = Some i /\ i <> "".
Proof.
  unfold session. destruct (dek s) as [d'|]; [|discriminate].
  destruct (currentAccountId s) as [i'|]; [|discriminate].
  destruct (truthy i') eqn:E; [|discriminate].
  intros [= -> ->]. apply truthy_true in E. auto.
Qed.

Lemma saveNotes_run (s : State) (i : string) (d : key)
    (notes : list Note) (iv : bytes) :
  session s = Some (i, d) ->
  saveNotes notes iv s =
    (Ok tt,
     set_localStorage
       (<[ NOTES_KEY i := JEnvelope (encryptString (JSON_stringify notes) d iv) ]>
          (localStorage s)) s).
Proof.
  intros H. unfold saveNotes, bind, gets. rewrite H. reflexivity.
Qed.

Lemma find_account_replace (i : string) (l : list AccountMeta)
    (acc upd : AccountMeta) :
  find_account i l = Some acc ->
  id upd = id acc ->
  find_account i (replace_account acc upd l) = Some upd.
Proof.
  intros Hfind Hid. pose proof (find_account_id _ _ _ Hfind) as Hi.
  subst i. unfold find_account, replace_account in *.
  induction l as [|a l IH]; simpl in *; [discriminate|].
  destruct (String.eqb (id a) (id acc)) eqn:Ha.
  - simpl. rewrite Hid, String.eqb_refl. reflexivity.
  - simpl. rewrite Ha. apply IH. exact Hfind.
Qed.

Lemma In_replace_account (a acc upd : AccountMeta) (l : list AccountMeta) :
  In a (replace_account acc upd l) -> a = upd \/ In a l.
Proof.
  unfold replace_account. rewrite in_map_iff. intros (b & Hb & Hin).
  destruct (String.eqb (id b) (id acc)); subst; auto.
Qed.

Lemma resetAccountPassword_run (s : State) (i pw : string) (salt iv : bytes)
    (acc : AccountMeta) (wm : Envelope) (mm : bytes) (d : key) :
  find_account i (accounts s) = Some acc ->
  dekWrappedByMaster acc = Some wm ->
  fst (getMasterMeta s) = Ok mm ->
  unwrapDEK wm (deriveKEK (MASTER_SECRET s) mm) = Some d ->
  let l :=
    replace_account acc
      (with_account acc salt (wrapDEK d (deriveKEK pw salt) iv))
      (accounts s) in
  resetAccountPassword i pw salt iv s =
    (Ok tt,
     set_localStorage (<[ KEY_ACCOUNTS := JAccounts l ]> (localStorage s))
       (set_accounts l s)).
Proof.
  intros Hf Hw Hm Hd l. unfold resetAccountPassword.
  unfold bind at 1, gets at 1. rewrite Hf, Hw.
  unfold bind at 1. rewrite getMasterMeta_state, Hm.
  unfold bind at 1, gets at 1. unfold bind at 1, await. rewrite Hd.
  reflexivity.
Qed.

Lemma resetAccountPassword_cases (s : State) (i pw : string)
    (salt iv : bytes) :
  (exists e, resetAccountPassword i pw salt iv s = (Err e, s) /\
     e <> MasterNotConfigured /\
     (e = AccountNotMasterEnabled ->
      exists acc, find_account i (accounts s) = Some acc /\
                  dekWrappedByMaster acc = None)) \/
  (exists acc wm mm d,
     find_account i (accounts s) = Some acc /\
     dekWrappedByMaster acc = Some wm /\
     fst (getMasterMeta s) = Ok mm /\
     unwrapDEK wm (deriveKEK (MASTER_SECRET s) mm) = Some d).
Proof.
  destruct (find_account i (accounts s)) as [acc|] eqn:Hf.
  2:{ left. exists AccountNotFound. split; [|split; [discriminate|discriminate]].
      unfold resetAccountPassword, bind, gets. rewrite Hf. reflexivity. }
  destruct (dekWrappedByMaster acc) as [wm|] eqn:Hw.
  2:{ left. exists AccountNotMasterEnabled. split; [|split; [discriminate|eauto]].
      unfold resetAccountPassword, bind, gets. rewrite Hf, Hw. reflexivity. }
  destruct (fst (getMasterMeta s)) as [mm|e] eqn:Hm.
  2:{ left. exists e. split.
      - unfold resetAccountPassword. unfold bind at 1, gets at 1.
        rewrite Hf, Hw. unfold bind at 1. rewrite getMasterMeta_state, Hm.
        reflexivity.
      - revert Hm. unfold getMasterMeta, bind, getItem, gets, throw, ret.
        destruct (localStorage s !! KEY_MASTER_META) as [[?|?|?|[|? ?]]|];
          cbn; intros [= <-]; split; discriminate. }
  destruct (unwrapDEK wm (deriveKEK (MASTER_SECRET s) mm)) as [d|] eqn:Hd.
  2:{ left. exists CryptoFailure. split; [|split; discriminate].
      unfold resetAccountPassword. unfold bind at 1, gets at 1.
      rewrite Hf, Hw. unfold bind at 1. rewrite getMasterMeta_state, Hm.
      unfold bind at 1, gets at 1. unfold bind at 1, await. rewrite Hd.
      reflexivity. }
  right. exists acc, wm, mm, d. auto.
Qed.


End Runs.

(** ** The registry invariant through every method *)

Section Consistency.
Context {B : Browser} {L : BrowserLaws B}.

(** A step keeps the registry consistent when it keeps the master secret
    and the master salt and every record it leaves is an old one or one
    with agreeing wraps. *)
Lemma registry_consistent_step (s s' : State) :
  MASTER_SECRET s' = MASTER_SECRET s ->
  localStorage s' !! KEY_MASTER_META = localStorage s !! KEY_MASTER_META ->
  (forall a, in_registry s' a ->
     in_registry s a \/
     forall mm, fst (getMasterMeta s) = Ok mm ->
                wraps_agree (MASTER_SECRET s) mm a) ->
  registry_consistent s -> registry_consistent s'.
Proof.
  intros Hs Hls Hacc Hinv mm a Hmm Hin.
  rewrite (getMasterMeta_frame s s' Hls) in Hmm. rewrite Hs.
  destruct (Hacc a Hin) as [Hold|Hnew]; [apply Hinv | apply Hnew]; assumption.
Qed.

(** The registry after a method that set the signal to [l] and persisted
    [l]. *)
Lemma in_registry_written (s : State) (l : list AccountMeta)
    (a : AccountMeta) :
  accounts s = l ->
  localStorage s !! KEY_ACCOUNTS = Some (JAccounts l) ->
  in_registry s a -> In a l.
Proof.
  intros Hl Hs [Hin | (l' & Hl' & Hin)].
  - rewrite <- Hl. exact Hin.
  - rewrite Hs in Hl'. injection Hl' as <-. exact Hin.
Qed.

Lemma wraps_agree_same_dek (secret pw : string) (mm salt n1 n2 : bytes)
    (d : key) (a : AccountMeta) :
  dekWrappedByAccount a = wrapDEK d (deriveKEK pw salt) n1 ->
  dekWrappedByMaster a = Some (wrapDEK d (deriveKEK secret mm) n2) ->
  wraps_agree secret mm a.
Proof.
  intros Ha Hm wm pw' dA dM Hw HA HM. rewrite Hm in Hw. injection Hw as <-.
  rewrite Ha in HA. apply unwrapDEK_wrapDEK_inv in HA as [_ ->].
  apply unwrapDEK_wrapDEK_inv in HM as [_ ->]. reflexivity.
Qed.

Lemma registerAccount_consistent (s : State) (nm p : string)
    (r : RegisterRandom) :
  registry_consistent s ->
  registry_consistent (snd (registerAccount nm p r s)).
Proof.
  intros Hinv. destruct (fst (getMasterMeta s)) as [mm|e] eqn:Hmm.
  2:{ rewrite (registerAccount_fail _ _ _ _ _ Hmm). exact Hinv. }
  pose proof (registerAccount_run s nm p r mm Hmm) as Hrun. cbv zeta in Hrun.
  rewrite Hrun; cbn [snd]. revert Hinv. apply registry_consistent_step.
  - reflexivity.
  - cbn [localStorage].
    rewrite lookup_insert_ne by apply NOTES_KEY_not_master.
    apply lookup_insert_ne, KEY_ACCOUNTS_not_master.
  - intros a Ha. eapply in_registry_written in Ha; [|reflexivity|].
    2:{ cbn [localStorage].
        rewrite lookup_insert_ne by apply NOTES_KEY_not_accounts.
        apply lookup_insert_eq. }
    destruct Ha as [<-|Hin]; [right|left; left; exact Hin].
    intros mm' Hmm'. rewrite Hmm in Hmm'. injection Hmm' as <-.
    eapply wraps_agree_same_dek; reflexivity.
Qed.

Lemma migrate_consistent (s : State) (acc : AccountMeta) (d : key)
    (iv : bytes) (pw : string) :
  In acc (accounts s) ->
  unwrapDEK (dekWrappedByAccount acc) (deriveKEK pw (saltB64 acc)) = Some d ->
  registry_consistent s ->
  registry_consistent (snd (migrate acc d iv s)).
Proof.
  intros Hin Hd Hinv.
  destruct (migrate_cases s acc d iv)
    as [E | [[e E] | (mm & _ & Hw & Hmm & E)]]; rewrite E; cbn [snd];
    try exact Hinv.
  revert Hinv. apply registry_consistent_step.
  - reflexivity.
  - cbn. apply lookup_insert_ne, KEY_ACCOUNTS_not_master.
  - intros a Ha. eapply in_registry_written in Ha;
      [|reflexivity|apply lookup_insert_eq].
    apply In_replace_account in Ha as [-> | Ha]; [right|left; left; exact Ha].
    intros mm' Hmm'. rewrite Hmm in Hmm'. injection Hmm' as <-.
    intros wm pw' dA dM Hwm HA HM. cbn in Hwm, HA. injection Hwm as <-.
    apply unwrapDEK_wrapDEK_inv in HM as [_ ->].
    exact (unwrapDEK_commit _ _ _ _ _ HA Hd).
Qed.

Lemma registry_consistent_session (s : State) (i : string) (d : key) :
  registry_consistent s -> registry_consistent (logged_in i d s).
Proof.
  apply registry_consistent_step; [reflexivity | reflexivity | auto].
Qed.

Lemma login_master_consistent (s : State) (i : string) (acc : AccountMeta) :
  registry_consistent s -> registry_consistent (snd (login_master i acc s)).
Proof.
  intros Hinv. destruct (dekWrappedByMaster acc) as [wm|] eqn:Hw.
  2:{ rewrite (login_master_none _ _ _ Hw). exact Hinv. }
  destruct (fst (getMasterMeta s)) as [mm|e] eqn:Hmm.
  2:{ rewrite (login_master_no_meta _ _ _ _ _ Hw Hmm). exact Hinv. }
  rewrite (login_master_some _ _ _ _ _ Hw Hmm).
  destruct (unwrapDEK wm _); cbn [snd];
    [apply registry_consistent_session|]; exact Hinv.
Qed.

Lemma loginWithAccount_consistent (s : State) (i x : string) (iv : bytes) :
  registry_consistent s ->
  registry_consistent (snd (loginWithAccount i x iv s)).
Proof.
  intros Hinv. destruct (find_account i (accounts s)) as [acc|] eqn:Hf.
  2:{ rewrite (loginWithAccount_not_found _ _ _ _ Hf). exact Hinv. }
  rewrite (loginWithAccount_found _ _ _ _ _ Hf).
  destruct (truthy _ && _); [apply login_master_consistent; exact Hinv|].
  destruct (unwrapDEK (dekWrappedByAccount acc)
              (deriveKEK (trim x) (saltB64 acc))) as [d|] eqn:Hd.
  2:{ rewrite (login_account_reject _ _ _ _ _ Hd). exact Hinv. }
  rewrite (login_account_accept _ _ _ _ _ _ Hd).
  assert (H : registry_consistent
                (snd (migrate acc d iv (logged_in i d s)))).
  { apply (migrate_consistent _ _ _ _ (trim x)).
    - exact (find_account_In _ _ _ Hf).
    - exact Hd.
    - apply registry_consistent_session. exact Hinv. }
  destruct (migrate acc d iv (logged_in i d s)) as [[[]|e] s']; exact H.
Qed.

Lemma resetAccountPassword_consistent (s : State) (i pw : string)
    (salt iv : bytes) :
  registry_consistent s ->
  registry_consistent (snd (resetAccountPassword i pw salt iv s)).
Proof.
  intros Hinv.
  destruct (resetAccountPassword_cases s i pw salt iv)
    as [(e & E & _) | (acc & wm & mm & d & Hf & Hw & Hm & Hd)].
  { rewrite E. exact Hinv. }
  pose proof (resetAccountPassword_run s i pw salt iv acc wm mm d
                Hf Hw Hm Hd) as Hrun. cbv zeta in Hrun.
  rewrite Hrun; cbn [snd]. revert Hinv. apply registry_consistent_step.
  - reflexivity.
  - cbn. apply lookup_insert_ne, KEY_ACCOUNTS_not_master.
  - intros a Ha. eapply in_registry_written in Ha;
      [|reflexivity|apply lookup_insert_eq].
    apply In_replace_account in Ha as [-> | Ha]; [right|left; left; exact Ha].
    intros mm' Hmm'. rewrite Hm in Hmm'. injection Hmm' as <-.
    intros wm' pw' dA dM Hwm HA HM. cbn in Hwm, HA.
    rewrite Hw in Hwm. injection Hwm as <-.
    apply unwrapDEK_wrapDEK_inv in HA as [_ ->]. congruence.
Qed.

Lemma loadNotes_state (s : State) : snd (loadNotes s) = s.
Proof.
  unfold loadNotes, bind, gets.
  destruct (session s) as [[i d]|]; [|reflexivity].
  unfold getItem, gets.
  destruct (localStorage s !! NOTES_KEY i) as [[l|salt|e|[|c r]]|];
    try reflexivity.
  unfold await. destruct (decryptString e d) as [json|]; [|reflexivity].
  cbn. destruct (JSON_parse json); reflexivity.
Qed.

Lemma saveNotes_consistent (s : State) (notes : list Note) (iv : bytes) :
  registry_consistent s -> registry_consistent (snd (saveNotes notes iv s)).
Proof.
  intros Hinv. destruct (session s) as [[i d]|] eqn:Hs.
  - rewrite (saveNotes_run _ _ _ _ _ Hs); cbn [snd]. revert Hinv.
    apply registry_consistent_step; [reflexivity | | ].
    + cbn. apply lookup_insert_ne, NOTES_KEY_not_master.
    + intros a [Hin | (l & Hl & Hin)]; left; [left; exact Hin|].
      right. exists l. split; [|exact Hin]. cbn in Hl.
      rewrite lookup_insert_ne in Hl by apply NOTES_KEY_not_accounts.
      exact Hl.
  - unfold saveNotes, bind, gets. rewrite Hs. exact Hinv.
Qed.
End Consistency.

(** ** The claims *)

Section Claims.
Context {B : Browser} {L : BrowserLaws B}.

(** C1 (amended). For an account registered with a password [p] that has
    no surrounding white space, [loginWithAccount(id, x)] succeeds whenever
    [x] trimmed is [p], and more generally whenever [x] trimmed derives,
    with the salt of the account, the KEK that [p] derives: the session
    holds the account's DEK, and that DEK decrypts the blob written at
    registration, which [loadNotes] reads as the empty collection. It
    fails with 'Invalid password.', leaving the state as it was, whenever
    [x] trimmed derives another KEK and is not the configured master
    secret. The KEK decides, not the text of the password: nothing is
    assumed of PBKDF2. *)
Theorem login_after_register (s : State) (nm p : string)
    (r : RegisterRandom) :
  fst (registerAccount nm p r s) = Ok tt ->
  trim p = p ->
  let s1 := snd (registerAccount nm p r s) in
  (forall x iv,
     trim x = p \/ deriveKEK (trim x) (r_salt r) = deriveKEK p (r_salt r) ->
     let s2 := snd (loginWithAccount (r_id r) x iv s1) in
     fst (loginWithAccount (r_id r) x iv s1) = Ok tt /\
     dek s2 = Some (r_dek r) /\
     currentAccountId s2 = Some (r_id r) /\
     (exists blob,
        localStorage s2 !! NOTES_KEY (r_id r) = Some (JEnvelope blob) /\
        decryptString blob (r_dek r) = Some (JSON_stringify [])) /\
     fst (loadNotes s2) = Ok (Collection [])) /\
  (forall x iv,
     deriveKEK (trim x) (r_salt r) <> deriveKEK p (r_salt r) ->
     MASTER_SECRET s = "" \/ trim x <> MASTER_SECRET s ->
     loginWithAccount (r_id r) x iv s1 = (Err InvalidPassword, s1)).
Proof.
  intros Hreg _.
  destruct (registerAccount_meta _ _ _ _ Hreg) as [mm Hmm].
  pose proof (registerAccount_run s nm p r mm Hmm) as Hrun. cbv zeta in Hrun.
  rewrite Hrun; cbn [snd].
  set (meta := Build_AccountMeta _ _ _ _ _ _) in *.
  set (s1 := Build_State _ _ _ _ _) in *.
  assert (Hfind : find_account (r_id r) (accounts s1) = Some meta)
    by exact (find_account_head meta (accounts s)).
  assert (Hmm1 : fst (getMasterMeta s1) = Ok mm).
  { rewrite <- Hmm. apply getMasterMeta_frame. subst s1; cbn [localStorage].
    rewrite lookup_insert_ne by apply NOTES_KEY_not_master.
    rewrite lookup_insert_ne by apply KEY_ACCOUNTS_not_master. reflexivity. }
  split.
  - intros x iv Hx.
    assert (Hk : deriveKEK (trim x) (r_salt r) = deriveKEK p (r_salt r))
      by (destruct Hx as [->|Hx]; [reflexivity | exact Hx]).
    assert (Hlogin : loginWithAccount (r_id r) x iv s1
                     = (Ok tt, logged_in (r_id r) (r_dek r) s1)).
    { rewrite (loginWithAccount_found _ _ _ _ _ Hfind).
      destruct (truthy _ && _) eqn:Et.
      - rewrite (login_master_some s1 _ meta _ mm eq_refl Hmm1).
        cbn [MASTER_SECRET s1]. rewrite unwrapDEK_wrapDEK. reflexivity.
      - rewrite (login_account_accept _ _ _ _ _ (r_dek r)).
        + rewrite migrate_skip; [reflexivity|]. right. eexists; reflexivity.
        + subst meta. cbn [dekWrappedByAccount saltB64]. rewrite Hk.
          apply unwrapDEK_wrapDEK. }
    rewrite Hlogin; cbn [fst snd].
    assert (Hblob : localStorage (logged_in (r_id r) (r_dek r) s1)
                      !! NOTES_KEY (r_id r)
                    = Some (JEnvelope (encryptString (JSON_stringify [])
                                         (r_dek r) (r_ivNotes r))))
      by apply lookup_insert_eq.
    repeat split.
    + eexists; split; [exact Hblob | apply decryptString_encryptString].
    + destruct (String.eqb_spec (r_id r) "") as [He|Hne].
      * rewrite loadNotes_no_session; [reflexivity|].
        unfold session; cbn. rewrite He. reflexivity.
      * erewrite loadNotes_run; [reflexivity| reflexivity | reflexivity
          | exact Hblob | apply decryptString_encryptString | exact Hne].
  - intros x iv Hx Hm.
    rewrite (loginWithAccount_found _ _ _ _ _ Hfind).
    apply master_test_false in Hm. cbn [MASTER_SECRET s1]. rewrite Hm.
    apply login_account_reject. subst meta.
    cbn [dekWrappedByAccount saltB64]. apply unwrapDEK_other_key. exact Hx.
Qed.

(** C2 (amended). For an account that exists, [loginWithAccount] takes the
    master path exactly when a master secret is configured and the supplied
    secret, trimmed of surrounding white space, equals it: the call then
    fails with 'Master access not configured for this account.' when the
    account has no master wrap, and otherwise depends on the master wrap
    alone. In every other case the account KEK is derived from the trimmed
    secret and the account's salt: when the account wrap does not open, the
    call fails with 'Invalid password.' and the state is as it was, with no
    recourse to the master wrap; when it opens, the session is set to the
    DEK it opened to, and the call returns or fails with 'Invalid
    password.'. *)
Theorem login_dual_path (s : State) (i x : string) (iv : bytes)
    (acc : AccountMeta) :
  find_account i (accounts s) = Some acc ->
  let secret := MASTER_SECRET s in
  let pw := trim x in
  let login := loginWithAccount i x iv s in
  (secret <> "" /\ pw = secret ->
     (dekWrappedByMaster acc = None ->
        login = (Err MasterNotConfigured, s)) /\
     (forall wm mm,
        dekWrappedByMaster acc = Some wm ->
        fst (getMasterMeta s) = Ok mm ->
        login = match unwrapDEK wm (deriveKEK secret mm) with
                | Some d => (Ok tt, logged_in i d s)
                | None => (Err CryptoFailure, s)
                end)) /\
  (secret = "" \/ pw <> secret ->
     (unwrapDEK (dekWrappedByAccount acc) (deriveKEK pw (saltB64 acc)) = None ->
        login = (Err InvalidPassword, s)) /\
     (forall d,
        unwrapDEK (dekWrappedByAccount acc) (deriveKEK pw (saltB64 acc))
          = Some d ->
        dek (snd login) = Some d /\
        currentAccountId (snd login) = Some i /\
        (fst login = Ok tt \/ fst login = Err InvalidPassword))).
Proof.
  intros Hfind secret pw login. subst login.
  rewrite (loginWithAccount_found _ _ _ _ _ Hfind). fold secret pw.
  split.
  - intros Hm. apply master_test in Hm. rewrite Hm. split.
    + apply login_master_none.
    + intros wm mm Hw Hmm. apply login_master_some; assumption.
  - intros Hm. apply master_test_false in Hm. rewrite Hm. split.
    + apply login_account_reject.
    + intros d Hd. rewrite (login_account_accept _ _ _ _ _ _ Hd).
      destruct (migrate_cases (logged_in i d s) acc d iv)
        as [E | [[e E] | (mm & _ & _ & _ & E)]]; rewrite E; cbn; auto.
Qed.


(** C4. The registry invariant (whenever a record of the registry, in
    the signal or in the store, has both wraps, the account wrap opened
    under the KEK of its password and the master wrap opened under the KEK
    of the master secret give the same DEK) is kept by
    every method: registration, login with its migration step, password
    reset, logout, and the saving and loading of notes, whether the method
    returns or throws. *)
Theorem registry_consistent_preserved (s : State) :
  registry_consistent s ->
  (forall nm p r, registry_consistent (snd (registerAccount nm p r s))) /\
  (forall i x iv, registry_consistent (snd (loginWithAccount i x iv s))) /\
  (forall i pw salt iv,
     registry_consistent (snd (resetAccountPassword i pw salt iv s))) /\
  registry_consistent (snd (logout s)) /\
  (forall notes iv, registry_consistent (snd (saveNotes notes iv s))) /\
  registry_consistent (snd (loadNotes s)).
Proof.
  intros Hinv. repeat split.
  - intros. apply registerAccount_consistent, Hinv.
  - intros. apply loginWithAccount_consistent, Hinv.
  - intros. apply resetAccountPassword_consistent, Hinv.
  - revert Hinv. apply registry_consistent_step; [reflexivity|reflexivity|auto].
  - intros. apply saveNotes_consistent, Hinv.
  - rewrite loadNotes_state. exact Hinv.
Qed.

(** C5 (amended). Without an active session, [loadNotes()] returns the
    empty collection and throws nothing; the state after [logout()] is
    such a state; it is [saveNotes] that fails with 'Not logged in'
    there. *)
Theorem loadNotes_logged_out (s : State) :
  (logged_out s -> loadNotes s = (Ok (Collection []), s)) /\
  logged_out (snd (logout s)) /\
  (forall notes iv, logged_out s ->
     saveNotes notes iv s = (Err NotLoggedIn, s)).
Proof.
  split; [apply loadNotes_no_session|]. split; [reflexivity|].
  intros notes iv H. unfold saveNotes, bind, gets. rewrite H. reflexivity.
Qed.

(** What the code does where C6 asks for a best-effort migration: for an
    account without master wrap, a correct account password and a
    configured master secret, a migration step that throws (here
    [getMasterMeta]) makes the call fail with 'Invalid password.', though
    the session has been set. *)
Lemma login_account_migration_failure (s : State) (i x : string)
    (iv : bytes) (acc : AccountMeta) (d : key) (e : Error) :
  find_account i (accounts s) = Some acc ->
  MASTER_SECRET s <> "" ->
  trim x <> MASTER_SECRET s ->
  dekWrappedByMaster acc = None ->
  unwrapDEK (dekWrappedByAccount acc) (deriveKEK (trim x) (saltB64 acc))
    = Some d ->
  fst (getMasterMeta s) = Err e ->
  loginWithAccount i x iv s = (Err InvalidPassword, logged_in i d s).
Proof.
  intros Hf Hs Hx Hw Hd He.
  rewrite (loginWithAccount_found _ _ _ _ _ Hf).
  rewrite (proj2 (master_test_false _ _) (or_intror Hx)).
  rewrite (login_account_accept _ _ _ _ _ _ Hd).
  rewrite (migrate_fail _ _ _ _ e); [reflexivity | exact Hs | exact Hw |].
  rewrite <- He. apply getMasterMeta_frame. reflexivity.
Qed.

(** C7 (amended). When no master secret is configured (the empty string),
    login never takes the master path: whatever is supplied, the empty
    secret included, the call goes through the account wrap alone and
    returns, or fails with 'Account not found' or 'Invalid password.'.
    [resetAccountPassword] does not test the configuration: it never fails
    with 'Master access not configured for this account.', and it succeeds
    whenever the master wrap opens under the KEK derived from the empty
    string, as it does on an account that [registerAccount] has just
    created in this state (its DEK was wrapped under that very KEK). *)
Theorem master_secret_unconfigured (s : State) :
  MASTER_SECRET s = "" ->
  (forall i x iv,
     fst (loginWithAccount i x iv s) = Ok tt \/
     fst (loginWithAccount i x iv s) = Err AccountNotFound \/
     fst (loginWithAccount i x iv s) = Err InvalidPassword) /\
  (forall i x iv acc,
     find_account i (accounts s) = Some acc ->
     loginWithAccount i x iv s =
       match unwrapDEK (dekWrappedByAccount acc)
               (deriveKEK (trim x) (saltB64 acc)) with
       | Some d => (Ok tt, logged_in i d s)
       | None => (Err InvalidPassword, s)
       end) /\
  (forall i pw salt iv,
     fst (resetAccountPassword i pw salt iv s) <> Err MasterNotConfigured) /\
  (forall i pw salt iv acc wm mm d,
     find_account i (accounts s) = Some acc ->
     dekWrappedByMaster acc = Some wm ->
     fst (getMasterMeta s) = Ok mm ->
     unwrapDEK wm (deriveKEK "" mm) = Some d ->
     fst (resetAccountPassword i pw salt iv s) = Ok tt) /\
  (forall nm p r,
     fst (registerAccount nm p r s) = Ok tt ->
     let s1 := snd (registerAccount nm p r s) in
     MASTER_SECRET s1 = "" /\
     (exists acc mm,
        find_account (r_id r) (accounts s1) = Some acc /\
        fst (getMasterMeta s1) = Ok mm /\
        dekWrappedByMaster acc
          = Some (wrapDEK (r_dek r) (deriveKEK "" mm) (r_ivMaster r))) /\
     forall pw salt iv,
       fst (resetAccountPassword (r_id r) pw salt iv s1) = Ok tt).
Proof.
  intros Hs.
  assert (Hpath : forall i x iv acc,
     find_account i (accounts s) = Some acc ->
     loginWithAccount i x iv s =
       match unwrapDEK (dekWrappedByAccount acc)
               (deriveKEK (trim x) (saltB64 acc)) with
       | Some d => (Ok tt, logged_in i d s)
       | None => (Err InvalidPassword, s)
       end).
  { intros i x iv acc Hf. rewrite (loginWithAccount_found _ _ _ _ _ Hf), Hs.
    cbn [truthy andb].
    destruct (unwrapDEK _ _) as [d|] eqn:Hd.
    - rewrite (login_account_accept _ _ _ _ _ _ Hd).
      rewrite migrate_skip; [reflexivity | left; exact Hs].
    - apply login_account_reject. exact Hd. }
  split; [|split; [exact Hpath|split; [|split]]].
  - intros i x iv. destruct (find_account i (accounts s)) as [acc|] eqn:Hf.
    + rewrite (Hpath _ x iv _ Hf). destruct (unwrapDEK _ _); cbn; auto.
    + rewrite (loginWithAccount_not_found _ _ _ _ Hf). cbn; auto.
  - intros i pw salt iv.
    destruct (resetAccountPassword_cases s i pw salt iv)
      as [(e & E & Hne & _) | (acc & wm & mm & d & Hf & Hw & Hm & Hd)].
    + rewrite E. cbn. congruence.
    + pose proof (resetAccountPassword_run s i pw salt iv acc wm mm d
                    Hf Hw Hm Hd) as Hrun. cbv zeta in Hrun.
      rewrite Hrun. discriminate.
  - intros i pw salt iv acc wm mm d Hf Hw Hm Hd. rewrite <- Hs in Hd.
    pose proof (resetAccountPassword_run s i pw salt iv acc wm mm d
                  Hf Hw Hm Hd) as Hrun. cbv zeta in Hrun.
    rewrite Hrun. reflexivity.
  - intros nm p r Hreg.
    destruct (registerAccount_meta _ _ _ _ Hreg) as [mm Hmm].
    pose proof (registerAccount_run s nm p r mm Hmm) as Hrun.
    cbv zeta in Hrun. rewrite Hrun; cbn [snd]. clear Hrun.
    set (meta := Build_AccountMeta _ _ _ _ _ _) in *.
    set (s1 := Build_State _ _ _ _ _) in *.
    assert (Hfind : find_account (r_id r) (accounts s1) = Some meta)
      by exact (find_account_head meta (accounts s)).
    assert (Hmm1 : fst (getMasterMeta s1) = Ok mm).
    { rewrite <- Hmm. apply getMasterMeta_frame. subst s1; cbn [localStorage].
      rewrite lookup_insert_ne by apply NOTES_KEY_not_master.
      rewrite lookup_insert_ne by apply KEY_ACCOUNTS_not_master.
      reflexivity. }
    assert (Hw : dekWrappedByMaster meta
                 = Some (wrapDEK (r_dek r) (deriveKEK "" mm) (r_ivMaster r)))
      by (subst meta; cbn [dekWrappedByMaster]; rewrite Hs; reflexivity).
    split; [exact Hs|]. split; [exists meta, mm; auto|].
    intros pw salt iv.
    rewrite (resetAccountPassword_run s1 (r_id r) pw salt iv meta _ mm
               (r_dek r) Hfind Hw Hmm1); [reflexivity|].
    change (MASTER_SECRET s1) with (MASTER_SECRET s). rewrite Hs.
    apply unwrapDEK_wrapDEK.
Qed.

(** C8. With an active session, [saveNotes(X)] returns and the [loadNotes()]
    that follows returns [X], for every collection [X], the empty one
    included. *)
Theorem saveNotes_loadNotes (s : State) (i : string) (d : key)
    (notes : list Note) (iv : bytes) :
  session s = Some (i, d) ->
  fst (saveNotes notes iv s) = Ok tt /\
  fst (loadNotes (snd (saveNotes notes iv s))) = Ok (Collection notes).
Proof.
  intros H. pose proof (session_Some _ _ _ H) as (Hd & Hi & Hne).
  rewrite (saveNotes_run _ _ _ _ _ H); cbn [fst snd]. split; [reflexivity|].
  erewrite loadNotes_run; [reflexivity | exact Hd | exact Hi | | | exact Hne].
  - cbn [localStorage set_localStorage]. apply lookup_insert_eq.
  - apply decryptString_encryptString.
Qed.

(** C9 (amended). A registration that succeeds puts the new [AccountMeta]
    at the front of the registry: the records that were there follow it in
    their order, and the list so updated is what is persisted under
    [KEY_ACCOUNTS]. *)
Theorem registerAccount_prepends (s : State) (nm p : string)
    (r : RegisterRandom) :
  fst (registerAccount nm p r s) = Ok tt ->
  let s' := snd (registerAccount nm p r s) in
  exists meta,
    id meta = r_id r /\ name meta = nm /\
    accounts s' = meta :: accounts s /\
    localStorage s' !! KEY_ACCOUNTS = Some (JAccounts (meta :: accounts s)).
Proof.
  intros Hreg. destruct (registerAccount_meta _ _ _ _ Hreg) as [mm Hmm].
  pose proof (registerAccount_run s nm p r mm Hmm) as Hrun. cbv zeta in Hrun.
  rewrite Hrun; cbn [snd].
  match goal with |- context [JAccounts (?m :: _)] => exists m end.
  split; [reflexivity|]. split; [reflexivity|]. split; [reflexivity|].
  cbn [localStorage]. rewrite lookup_insert_ne by apply NOTES_KEY_not_accounts.
  apply lookup_insert_eq.
Qed.

(** C10. [registerAccount] needs the master salt: without it the call
    throws and changes nothing. With it the call returns, whatever the
    master secret is (the empty string included), and the record it adds has
    [dekWrappedByMaster] present, the fresh DEK wrapped under the KEK derived
    from the master secret and the master salt. *)
Theorem registerAccount_master_wrap (s : State) (nm p : string)
    (r : RegisterRandom) :
  match fst (getMasterMeta s) with
  | Ok mm =>
      fst (registerAccount nm p r s) = Ok tt /\
      exists meta,
        accounts (snd (registerAccount nm p r s)) = meta :: accounts s /\
        dekWrappedByMaster meta =
          Some (wrapDEK (r_dek r) (deriveKEK (MASTER_SECRET s) mm)
                  (r_ivMaster r))
  | Err e => registerAccount nm p r s = (Err e, s)
  end.
Proof.
  destruct (fst (getMasterMeta s)) as [mm|e] eqn:Hmm.
  - pose proof (registerAccount_run s nm p r mm Hmm) as Hrun.
    cbv zeta in Hrun. rewrite Hrun. split; [reflexivity|].
    eexists; split; reflexivity.
  - apply registerAccount_fail. exact Hmm.
Qed.

End Claims.

(** ** The claims on the ideal platform: runs, witnesses, counterexamples *)

Section IdealRuns.
#[local] Existing Instance Ideal.browser.
Import Ideal.

(** Registration with password [s1] under master secret [M]: login with
    [s1] opens the session and reads the empty collection, login with
    another secret is refused. *)
Lemma login_after_register_witness :
  fst (registerAccount "alice" "s1" (draw "a1") (fresh "M")) = Ok tt /\
  trim "s1" = "s1" /\
  fst (loginWithAccount "a1" "s1" (Raw "n9") (registered "M" "s1")) = Ok tt /\
  fst (loadNotes
         (snd (loginWithAccount "a1" "s1" (Raw "n9") (registered "M" "s1"))))
    = Ok (Collection []) /\
  deriveKEK "wrong" (Raw "salt-a1") <> deriveKEK "s1" (Raw "salt-a1") /\
  loginWithAccount "a1" "wrong" (Raw "n9") (registered "M" "s1")
    = (Err InvalidPassword, registered "M" "s1").
Proof.
  assert (H1 : fst (registerAccount "alice" "s1" (draw "a1") (fresh "M"))
               = Ok tt) by (vm_compute; reflexivity).
  assert (H2 : trim "s1" = "s1") by reflexivity.
  destruct (login_after_register (L := ideal_laws) (fresh "M") "alice" "s1"
              (draw "a1") H1 H2) as [Hin Hout].
  split; [exact H1|]. split; [exact H2|].
  destruct (Hin "s1" (Raw "n9") (or_introl eq_refl))
    as (Hok & _ & _ & _ & Hload).
  split; [exact Hok|]. split; [exact Hload|].
  assert (Hk : deriveKEK "wrong" (Raw "salt-a1")
               <> deriveKEK "s1" (Raw "salt-a1")) by discriminate.
  split; [exact Hk|].
  apply Hout; [exact Hk | right; discriminate].
Defined.

(** C1 as stated fails: the account was registered with [s1], the secret
    supplied is [s1] followed by a space, which is neither the password nor
    the master secret, and the login succeeds. *)
Lemma login_exact_secret_counterexample :
  "s1 " <> "s1" /\ "s1 " <> "M" /\
  fst (loginWithAccount "a1" "s1 " (Raw "n9") (registered "M" "s1")) = Ok tt.
Proof. repeat split; discriminate. Qed.

(** The two paths on the registered account: the master secret between
    spaces opens the session through the master wrap, a wrong secret is
    refused on the account wrap. *)
Lemma login_dual_path_witness :
  is_Some (find_account "a1" (accounts (registered "M" "s1"))) /\
  loginWithAccount "a1" " M " (Raw "n9") (registered "M" "s1")
    = (Ok tt, logged_in "a1" (Raw "dek-a1") (registered "M" "s1")) /\
  loginWithAccount "a1" "wrong" (Raw "n9") (registered "M" "s1")
    = (Err InvalidPassword, registered "M" "s1").
Proof.
  split; [eexists; reflexivity|]. split.
  - destruct (login_dual_path (registered "M" "s1") "a1" " M " (Raw "n9")
                _ eq_refl) as [Hm _].
    destruct Hm as [_ Hm]; [split; [discriminate | reflexivity]|].
    exact (Hm _ (Raw "master-salt") eq_refl eq_refl).
  - destruct (login_dual_path (registered "M" "s1") "a1" "wrong" (Raw "n9")
                _ eq_refl) as [_ Ha].
    apply Ha; [right; discriminate | reflexivity].
Defined.

(** C2 as stated fails: the supplied secret, [M] followed by a space, is
    not the master secret [M], and the call still takes the master path: it
    fails as that path does on an account without master wrap, not with
    'Invalid password.'. *)
Lemma login_master_path_counterexample :
  "M " <> "M" /\
  fst (loginWithAccount "a0" "M " (Raw "n9") (legacy "M" "pw"))
    = Err MasterNotConfigured.
Proof. split; [discriminate | reflexivity]. Qed.



(** The invariant holds of the service with the old account, and still
    holds once a login has added the master wrap to it. *)
Lemma registry_consistent_preserved_witness :
  registry_consistent (legacy "M" "pw") /\
  registry_consistent
    (snd (loginWithAccount "a0" "pw" (Raw "n9") (legacy "M" "pw"))) /\
  dekWrappedByMaster
    <$> accounts (snd (loginWithAccount "a0" "pw" (Raw "n9") (legacy "M" "pw")))
    = [Some (wrapDEK (Raw "dek-a0") (deriveKEK "M" (Raw "master-salt"))
               (Raw "n9"))].
Proof.
  assert (H : registry_consistent (legacy "M" "pw")).
  { intros mm acc _ Hin wm pw dA dM Hw.
    assert (Hacc : acc = legacy_account "pw").
    { destruct Hin as [[<-|[]] | (l & Hl & Hin)]; [reflexivity|].
      vm_compute in Hl. injection Hl as <-.
      destruct Hin as [<-|[]]. reflexivity. }
    subst acc. discriminate Hw. }
  split; [exact H|]. split; [|reflexivity].
  apply (registry_consistent_preserved (L := ideal_laws) _ H).
Defined.

(** After login and logout, [loadNotes] returns the empty collection. *)
Lemma loadNotes_logged_out_witness :
  let s := snd (logout (snd (loginWithAccount "a1" "s1" (Raw "n9")
                               (registered "M" "s1")))) in
  logged_out s /\ loadNotes s = (Ok (Collection []), s).
Proof.
  cbv zeta.
  pose proof (loadNotes_logged_out
                (snd (loginWithAccount "a1" "s1" (Raw "n9")
                        (registered "M" "s1")))) as (_ & Hout & _).
  split; [exact Hout|].
  exact (proj1 (loadNotes_logged_out _) Hout).
Defined.

(** C5 as stated fails: after [logout()] there is no session, the
    account's blob is still in the store, and [loadNotes()] returns the
    empty collection where the claim has it fail with [NotLoggedIn]. *)
Lemma loadNotes_not_logged_in_counterexample :
  let s := snd (logout (snd (loginWithAccount "a1" "s1" (Raw "n9")
                               (registered "M" "s1")))) in
  logged_out s /\
  is_Some (localStorage s !! NOTES_KEY "a1") /\
  fst (loadNotes s) = Ok (Collection []) /\
  fst (loadNotes s) <> Err NotLoggedIn.
Proof.
  cbv zeta. split; [reflexivity|]. split; [|split; [reflexivity|discriminate]].
  eexists. vm_compute. reflexivity.
Qed.

(** C6, the failing input: the old account [a0] has no master wrap, the
    master secret [M] is configured, the store has lost the master salt.
    Login with the account's password [pw] opens the account wrap and sets
    the session, the migration step throws, and the call fails with 'Invalid
    password.'. *)
Theorem login_fails_when_migration_fails :
  loginWithAccount "a0" "pw" (Raw "n9") (legacy_no_master_meta "M" "pw")
    = (Err InvalidPassword,
       logged_in "a0" (Raw "dek-a0") (legacy_no_master_meta "M" "pw")) /\
  fst (getMasterMeta (legacy_no_master_meta "M" "pw"))
    = Err MasterMetaNotInitialized /\
  fst (loginWithAccount "a0" "pw" (Raw "n9") (legacy "M" "pw")) = Ok tt.
Proof.
  split; [|split; reflexivity].
  apply (login_account_migration_failure _ _ _ _ (legacy_account "pw") _
           MasterMetaNotInitialized);
    try reflexivity; discriminate.
Qed.

(** Without master secret: an account is registered, login with the empty
    secret is refused on its account wrap, and the reset of its password
    succeeds. *)
Lemma master_secret_unconfigured_witness :
  MASTER_SECRET (fresh "") = "" /\
  fst (registerAccount "alice" "s1" (draw "a1") (fresh "")) = Ok tt /\
  MASTER_SECRET (registered "" "s1") = "" /\
  loginWithAccount "a1" "" (Raw "n9") (registered "" "s1")
    = (Err InvalidPassword, registered "" "s1") /\
  fst (resetAccountPassword "a1" "s2" (Raw "salt2") (Raw "n7")
         (registered "" "s1")) = Ok tt.
Proof.
  assert (H0 : MASTER_SECRET (fresh "") = "") by reflexivity.
  assert (Hreg : fst (registerAccount "alice" "s1" (draw "a1") (fresh ""))
                 = Ok tt) by (vm_compute; reflexivity).
  assert (H : MASTER_SECRET (registered "" "s1") = "") by reflexivity.
  destruct (master_secret_unconfigured (L := ideal_laws) _ H)
    as (_ & Hlogin & _ & _ & _).
  destruct (master_secret_unconfigured (L := ideal_laws) _ H0)
    as (_ & _ & _ & _ & Hnew).
  destruct (Hnew "alice" "s1" (draw "a1") Hreg) as (_ & _ & Hreset).
  split; [exact H0|]. split; [exact Hreg|]. split; [exact H|]. split.
  - exact (Hlogin "a1" "" (Raw "n9") _ eq_refl).
  - exact (Hreset "s2" (Raw "salt2") (Raw "n7")).
Defined.

(** C7 as stated fails: no master secret is configured, and the password
    reset of an account registered in that configuration succeeds where the
    claim has it fail with [MasterNotConfigured]. *)
Lemma reset_unconfigured_counterexample :
  MASTER_SECRET (registered "" "s1") = "" /\
  fst (resetAccountPassword "a1" "s2" (Raw "salt2") (Raw "n7")
         (registered "" "s1")) = Ok tt /\
  fst (loginWithAccount "a1" "s2" (Raw "n9")
         (snd (resetAccountPassword "a1" "s2" (Raw "salt2") (Raw "n7")
                 (registered "" "s1")))) = Ok tt.
Proof. repeat split. Qed.

(** A collection of two notes saved and loaded in an open session. *)
Lemma saveNotes_loadNotes_witness :
  let s := snd (loginWithAccount "a1" "s1" (Raw "n9") (registered "M" "s1")) in
  session s = Some ("a1", Raw "dek-a1") /\
  fst (loadNotes (snd (saveNotes ["x"; "y"]%char (Raw "n4") s)))
    = Ok (Collection ["x"; "y"]%char) /\
  fst (loadNotes (snd (saveNotes [] (Raw "n5") s))) = Ok (Collection []).
Proof.
  cbv zeta.
  assert (H : session (snd (loginWithAccount "a1" "s1" (Raw "n9")
                              (registered "M" "s1")))
              = Some ("a1", Raw "dek-a1")) by reflexivity.
  split; [exact H|]. split.
  - exact (proj2 (saveNotes_loadNotes (L := ideal_laws) _ _ _
                    ["x"; "y"]%char (Raw "n4") H)).
  - exact (proj2 (saveNotes_loadNotes (L := ideal_laws) _ _ _
                    [] (Raw "n5") H)).
Defined.

(** A second registration: the new record [a2] comes before [a1], in the
    signal and in the store. *)
Lemma registerAccount_prepends_witness :
  fst (registerAccount "bob" "s2" (draw "a2") (registered "M" "s1")) = Ok tt /\
  exists meta,
    id meta = "a2" /\ name meta = "bob" /\
    accounts (snd (registerAccount "bob" "s2" (draw "a2")
                     (registered "M" "s1")))
      = meta :: accounts (registered "M" "s1") /\
    localStorage (snd (registerAccount "bob" "s2" (draw "a2")
                         (registered "M" "s1"))) !! KEY_ACCOUNTS
      = Some (JAccounts (meta :: accounts (registered "M" "s1"))).
Proof.
  assert (H : fst (registerAccount "bob" "s2" (draw "a2")
                     (registered "M" "s1")) = Ok tt) by reflexivity.
  split; [exact H|].
  exact (registerAccount_prepends (registered "M" "s1") "bob" "s2"
           (draw "a2") H).
Defined.

(** C9 as stated fails: with [a1] in the registry, the registration of
    [a2] leaves the ids in the order [a2], [a1], in the signal and in the
    store: the new record is first, not last. *)
Lemma registerAccount_appends_counterexample :
  let s' := snd (registerAccount "bob" "s2" (draw "a2")
                   (registered "M" "s1")) in
  id <$> accounts (registered "M" "s1") = ["a1"] /\
  id <$> accounts s' = ["a2"; "a1"] /\
  id <$> accounts s' <> ["a1"; "a2"] /\
  (exists l, localStorage s' !! KEY_ACCOUNTS = Some (JAccounts l) /\
             id <$> l = ["a2"; "a1"]).
Proof.
  cbv zeta. split; [reflexivity|]. split; [reflexivity|].
  split; [discriminate|]. eexists. split; vm_compute; reflexivity.
Qed.

End IdealRuns.

(** * Properties of the rest of the application *)

(** ** auth.service.ts: the store, the session and the notes *)

Section Service.
Context {B : Browser} {L : BrowserLaws B}.


Lemma ensureMasterMeta_present (s : State) (salt : bytes) (v : Stored) :
  localStorage s !! KEY_MASTER_META = Some v -> v <> JText "" ->
  ensureMasterMeta salt s = (Ok tt, s).
Proof.
  intros Hv Hne. unfold ensureMasterMeta, bind, getItem, gets. rewrite Hv.
  destruct v as [l|m|e|[|c r]]; try reflexivity. contradiction.
Qed.

Lemma ensureMasterMeta_absent (s : State) (salt : bytes) :
  localStorage s !! KEY_MASTER_META = None \/
  localStorage s !! KEY_MASTER_META = Some (JText "") ->
  ensureMasterMeta salt s =
    (Ok tt,
     set_localStorage (<[ KEY_MASTER_META := JMasterMeta salt ]> (localStorage s)) s).
Proof.
  intros H. unfold ensureMasterMeta, bind, getItem, gets.
  destruct H as [-> | ->]; reflexivity.
Qed.

Lemma getMasterMeta_not_initialized (s : State) :
  fst (getMasterMeta s) = Err MasterMetaNotInitialized <->
  (localStorage s !! KEY_MASTER_META = None \/
   localStorage s !! KEY_MASTER_META = Some (JText "")).
Proof.
  unfold getMasterMeta, bind, getItem, gets, throw, ret.
  destruct (localStorage s !! KEY_MASTER_META) as [[l|m|e|[|c r]]|]; cbn;
    split; intros H; try discriminate; auto;
    destruct H as [H|H]; discriminate.
Qed.

Lemma stored_empty_text_dec (v : Stored) : v = JText "" \/ v <> JText "".
Proof. destruct v as [l|m|e|[|c r]]; auto; right; discriminate. Qed.

(** X1. [ensureMasterMeta] never fails and writes the master salt once: a
    store that already holds text under [diary_master_meta_v1] is left as
    it is, an empty one gets the drawn salt and nothing else changes, and
    a second call changes nothing, whatever salt it draws. *)
Theorem ensureMasterMeta_once (s : State) (salt salt' : bytes) :
  let s1 := snd (ensureMasterMeta salt s) in
  fst (ensureMasterMeta salt s) = Ok tt /\
  (fst (getMasterMeta s) <> Err MasterMetaNotInitialized -> s1 = s) /\
  (fst (getMasterMeta s) = Err MasterMetaNotInitialized ->
     fst (getMasterMeta s1) = Ok salt /\
     accounts s1 = accounts s /\
     forall k, k <> KEY_MASTER_META ->
       localStorage s1 !! k = localStorage s !! k) /\
  ensureMasterMeta salt' s1 = (Ok tt, s1).
Proof.
  destruct (localStorage s !! KEY_MASTER_META) as [v|] eqn:Hv.
  - destruct (stored_empty_text_dec v) as [->|Hne].
    + rewrite (ensureMasterMeta_absent s salt (or_intror Hv)); cbn [fst snd].
      split; [reflexivity|]. split.
      { intros H. exfalso. apply H. apply getMasterMeta_not_initialized. auto. }
      split.
      { intros _. split; [|split; [reflexivity|]].
        - unfold getMasterMeta, bind, getItem, gets; cbn.
          rewrite lookup_insert_eq. reflexivity.
        - intros k Hk. cbn. apply lookup_insert_ne. congruence. }
      eapply ensureMasterMeta_present; [cbn; apply lookup_insert_eq|discriminate].
    + rewrite (ensureMasterMeta_present s salt v Hv Hne); cbn [fst snd].
      split; [reflexivity|]. split; [reflexivity|]. split.
      { intros H. apply getMasterMeta_not_initialized in H as [H|H];
          rewrite Hv in H; congruence. }
      exact (ensureMasterMeta_present s salt' v Hv Hne).
  - rewrite (ensureMasterMeta_absent s salt (or_introl Hv)); cbn [fst snd].
    split; [reflexivity|]. split.
    { intros H. exfalso. apply H. apply getMasterMeta_not_initialized. auto. }
    split.
    { intros _. split; [|split; [reflexivity|]].
      - unfold getMasterMeta, bind, getItem, gets; cbn.
        rewrite lookup_insert_eq. reflexivity.
      - intros k Hk. cbn. apply lookup_insert_ne. congruence. }
    eapply ensureMasterMeta_present; [cbn; apply lookup_insert_eq|discriminate].
Qed.


(** Every way a login ends. *)
Lemma loginWithAccount_outcome (s : State) (i x : string) (iv : bytes) :
  (exists e, loginWithAccount i x iv s = (Err e, s)) \/
  (exists d, loginWithAccount i x iv s = (Ok tt, logged_in i d s)) \/
  (exists d, loginWithAccount i x iv s = (Err InvalidPassword, logged_in i d s)) \/
  (exists acc d mm,
     find_account i (accounts s) = Some acc /\
     dekWrappedByMaster acc = None /\
     MASTER_SECRET s <> "" /\
     fst (getMasterMeta s) = Ok mm /\
     unwrapDEK (dekWrappedByAccount acc) (deriveKEK (trim x) (saltB64 acc))
       = Some d /\
     loginWithAccount i x iv s =
       (Ok tt,
        migrated i d acc (wrapDEK d (deriveKEK (MASTER_SECRET s) mm) iv) s)).
Proof.
  destruct (find_account i (accounts s)) as [acc|] eqn:Hf.
  2:{ left. eexists. apply loginWithAccount_not_found. exact Hf. }
  rewrite (loginWithAccount_found _ _ _ _ _ Hf).
  destruct (truthy _ && _).
  - destruct (dekWrappedByMaster acc) as [wm|] eqn:Hw.
    2:{ left. eexists. apply login_master_none. exact Hw. }
    destruct (fst (getMasterMeta s)) as [mm|e] eqn:Hmm.
    2:{ left. eexists. eapply login_master_no_meta; eassumption. }
    rewrite (login_master_some _ _ _ _ _ Hw Hmm).
    destruct (unwrapDEK wm _) as [d|]; [right; left|left]; eexists; reflexivity.
  - destruct (unwrapDEK (dekWrappedByAccount acc)
                (deriveKEK (trim x) (saltB64 acc))) as [d|] eqn:Hd.
    2:{ left. eexists. apply login_account_reject. exact Hd. }
    rewrite (login_account_accept _ _ _ _ _ _ Hd).
    destruct (migrate_cases (logged_in i d s) acc d iv)
      as [E | [[e E] | (mm & Hs & Hw & Hmm & E)]]; rewrite E.
    + right; left. eexists; reflexivity.
    + right; right; left. eexists; reflexivity.
    + right; right; right. exists acc, d, mm.
      split; [reflexivity|]. split; [exact Hw|]. split; [exact Hs|].
      split; [rewrite <- Hmm; apply getMasterMeta_frame; reflexivity|].
      split; [exact Hd | reflexivity].
Qed.

Lemma replace_account_ids (acc upd : AccountMeta) (l : list AccountMeta) :
  id upd = id acc ->
  List.map id (replace_account acc upd l) = List.map id l.
Proof.
  intros Hid. unfold replace_account. rewrite List.map_map.
  apply List.map_ext. intros a.
  destruct (String.eqb_spec (id a) (id acc)); congruence.
Qed.

Lemma replace_account_other (acc upd a : AccountMeta) (l : list AccountMeta) :
  In a l -> id a <> id acc -> In a (replace_account acc upd l).
Proof.
  intros Hin Hne. unfold replace_account. apply in_map_iff. exists a.
  split; [|exact Hin]. apply String.eqb_neq in Hne. rewrite Hne. reflexivity.
Qed.

Lemma getMasterMeta_errors (s : State) (e : Error) :
  fst (getMasterMeta s) = Err e ->
  e = MasterMetaNotInitialized \/ e = CorruptState.
Proof.
  unfold getMasterMeta, bind, getItem, gets, throw, ret.
  destruct (localStorage s !! KEY_MASTER_META) as [[l|m|b|[|c r]]|]; cbn;
    intros [=]; auto.
Qed.


Lemma find_account_none (i : string) (l : list AccountMeta) :
  find_account i l = None <-> forall a, In a l -> id a <> i.
Proof.
  unfold find_account. split.
  - intros H a Hin. apply String.eqb_neq. exact (find_none _ _ H a Hin).
  - intros H. destruct (find _ l) as [a|] eqn:E; [|reflexivity].
    apply find_some in E as [Hin Hid]. apply String.eqb_eq in Hid.
    exfalso. exact (H a Hin Hid).
Qed.

(** X3. Login and password reset fail with 'Account not found', leaving
    the state untouched, for the ids that no record of the registry has,
    and for no other id. *)
Theorem account_not_found (s : State) (i : string) :
  ((forall a, In a (accounts s) -> id a <> i) ->
     forall x iv salt,
       loginWithAccount i x iv s = (Err AccountNotFound, s) /\
       resetAccountPassword i x salt iv s = (Err AccountNotFound, s)) /\
  (forall a, In a (accounts s) -> id a = i ->
     forall x iv salt,
       fst (loginWithAccount i x iv s) <> Err AccountNotFound /\
       fst (resetAccountPassword i x salt iv s) <> Err AccountNotFound).
Proof.
  split.
  - intros H x iv salt. apply find_account_none in H. split.
    + apply loginWithAccount_not_found. exact H.
    + unfold resetAccountPassword, bind, gets. rewrite H. reflexivity.
  - intros a Hin Hid x iv salt.
    destruct (find_account i (accounts s)) as [acc|] eqn:Hf.
    2:{ exfalso. exact (proj1 (find_account_none _ _) Hf a Hin Hid). }
    split.
    + rewrite (loginWithAccount_found _ _ _ _ _ Hf).
      destruct (truthy _ && _).
      * destruct (dekWrappedByMaster acc) as [wm|] eqn:Hw.
        2:{ rewrite (login_master_none _ _ _ Hw). discriminate. }
        destruct (fst (getMasterMeta s)) as [mm|e] eqn:Hmm.
        2:{ rewrite (login_master_no_meta _ _ _ _ _ Hw Hmm).
            destruct (getMasterMeta_errors _ _ Hmm) as [-> | ->]; discriminate. }
        rewrite (login_master_some _ _ _ _ _ Hw Hmm).
        destruct (unwrapDEK wm _); discriminate.
      * destruct (unwrapDEK (dekWrappedByAccount acc)
                    (deriveKEK (trim x) (saltB64 acc))) as [d|] eqn:Hd.
        2:{ rewrite (login_account_reject _ _ _ _ _ Hd). discriminate. }
        rewrite (login_account_accept _ _ _ _ _ _ Hd).
        destruct (migrate _ _ _ _) as [[[]|e] s']; discriminate.
    + destruct (resetAccountPassword_cases s i x salt iv)
        as [(e & E & _ & _) | (acc' & wm & mm & d & Hf' & Hw & Hm & Hd)].
      * rewrite E; cbn. intros [= ->].
        revert E. unfold resetAccountPassword, bind at 1, gets at 1.
        rewrite Hf. destruct (dekWrappedByMaster acc) as [wm|]; [|discriminate].
        unfold bind at 1. rewrite getMasterMeta_state.
        destruct (fst (getMasterMeta s)) as [mm|e] eqn:Hmm.
        -- unfold bind at 1, gets at 1, bind at 1, await.
           destruct (unwrapDEK wm _); discriminate.
        -- destruct (getMasterMeta_errors _ _ Hmm) as [-> | ->]; discriminate.
      * pose proof (resetAccountPassword_run s i x salt iv acc' wm mm d
                      Hf' Hw Hm Hd) as Hrun. cbv zeta in Hrun.
        rewrite Hrun. discriminate.
Qed.

(** X4. The migration step: on an account without master wrap, with a
    non-empty master secret configured and the master salt in the store, a
    login with a secret that trimmed opens the account wrap and is not the
    master secret (a secret equal to the master secret takes the master
    path, which fails on such an account) succeeds, adds to that record
    the DEK wrapped under the master KEK, writes the registry to the
    store and keeps the other records; and when the master secret has no
    surrounding white space (login trims what it is given), a login with
    the master secret opens the account to the same DEK from then on. *)
Theorem migration_enables_master (s : State) (i x : string) (iv : bytes)
    (acc : AccountMeta) (d : key) (mm : bytes) :
  find_account i (accounts s) = Some acc ->
  dekWrappedByMaster acc = None ->
  MASTER_SECRET s <> "" ->
  trim x <> MASTER_SECRET s ->
  fst (getMasterMeta s) = Ok mm ->
  unwrapDEK (dekWrappedByAccount acc) (deriveKEK (trim x) (saltB64 acc))
    = Some d ->
  let s' := snd (loginWithAccount i x iv s) in
  let w := wrapDEK d (deriveKEK (MASTER_SECRET s) mm) iv in
  fst (loginWithAccount i x iv s) = Ok tt /\
  dek s' = Some d /\
  find_account i (accounts s') = Some (with_master acc w) /\
  localStorage s' !! KEY_ACCOUNTS = Some (JAccounts (accounts s')) /\
  (forall a, In a (accounts s) -> id a <> i -> In a (accounts s')) /\
  (trim (MASTER_SECRET s) = MASTER_SECRET s -> forall n,
     loginWithAccount i (MASTER_SECRET s) n s' = (Ok tt, logged_in i d s')).
Proof.
  intros Hf Hw Hs Hx Hmm Hd s' w. subst s'.
  assert (E : loginWithAccount i x iv s = (Ok tt, migrated i d acc w s)).
  { rewrite (loginWithAccount_found _ _ _ _ _ Hf).
    rewrite (proj2 (master_test_false _ _) (or_intror Hx)).
    rewrite (login_account_accept _ _ _ _ _ _ Hd).
    rewrite (migrate_run (logged_in i d s) acc d iv mm Hs Hw); [reflexivity|].
    rewrite <- Hmm. apply getMasterMeta_frame. reflexivity. }
  rewrite E; cbn [fst snd].
  assert (Hf' : find_account i (accounts (migrated i d acc w s))
                = Some (with_master acc w))
    by (apply find_account_replace; [exact Hf | reflexivity]).
  split; [reflexivity|]. split; [reflexivity|]. split; [exact Hf'|].
  split; [apply lookup_insert_eq|]. split.
  - intros a Hin Hne. cbn. apply replace_account_other; [exact Hin|].
    rewrite (find_account_id _ _ _ Hf). exact Hne.
  - intros Ht n. rewrite (loginWithAccount_found _ _ _ _ _ Hf').
    change (MASTER_SECRET (migrated i d acc w s)) with (MASTER_SECRET s).
    rewrite Ht. rewrite (proj2 (master_test _ _) (conj Hs eq_refl)).
    rewrite (login_master_some _ i (with_master acc w) w mm eq_refl).
    + change (MASTER_SECRET (migrated i d acc w s)) with (MASTER_SECRET s).
      subst w. rewrite unwrapDEK_wrapDEK. reflexivity.
    + rewrite <- Hmm. apply getMasterMeta_frame. cbn.
      apply lookup_insert_ne, KEY_ACCOUNTS_not_master.
Qed.

Lemma master_opens_step (s s' : State) (acc : AccountMeta) :
  MASTER_SECRET s' = MASTER_SECRET s ->
  localStorage s' !! KEY_MASTER_META = localStorage s !! KEY_MASTER_META ->
  master_opens s acc -> master_opens s' acc.
Proof.
  intros Hs Hls (wm & mm & d & Hw & Hmm & Hd). exists wm, mm, d.
  split; [exact Hw|]. split; [|rewrite Hs; exact Hd].
  rewrite <- Hmm. apply getMasterMeta_frame. exact Hls.
Qed.

Lemma master_opens_all_step (s s' : State) :
  MASTER_SECRET s' = MASTER_SECRET s ->
  localStorage s' !! KEY_MASTER_META = localStorage s !! KEY_MASTER_META ->
  (forall a, In a (accounts s') -> In a (accounts s) \/ master_opens s a) ->
  master_opens_all s -> master_opens_all s'.
Proof.
  intros Hs Hls Hacc Hinv a Hin. apply (master_opens_step s s' a Hs Hls).
  destruct (Hacc a Hin) as [H|H]; [apply Hinv|]; exact H.
Qed.

Lemma registerAccount_master_opens_all (s : State) (nm p : string)
    (r : RegisterRandom) :
  master_opens_all s -> master_opens_all (snd (registerAccount nm p r s)).
Proof.
  intros Hinv. destruct (fst (getMasterMeta s)) as [mm|e] eqn:Hmm.
  2:{ rewrite (registerAccount_fail _ _ _ _ _ Hmm). exact Hinv. }
  pose proof (registerAccount_run s nm p r mm Hmm) as Hrun. cbv zeta in Hrun.
  rewrite Hrun; cbn [snd]. revert Hinv. apply master_opens_all_step.
  - reflexivity.
  - cbn [localStorage].
    rewrite lookup_insert_ne by apply NOTES_KEY_not_master.
    apply lookup_insert_ne, KEY_ACCOUNTS_not_master.
  - cbn [accounts]. intros a [<-|Hin]; [right|left; exact Hin].
    eexists _, mm, (r_dek r). split; [reflexivity|]. split; [exact Hmm|].
    apply unwrapDEK_wrapDEK.
Qed.

Lemma loginWithAccount_master_opens_all (s : State) (i x : string)
    (iv : bytes) :
  master_opens_all s -> master_opens_all (snd (loginWithAccount i x iv s)).
Proof.
  intros Hinv.
  destruct (loginWithAccount_outcome s i x iv)
    as [[e E] | [[d E] | [[d E] | (acc & d & mm & _ & _ & _ & Hmm & _ & E)]]];
    rewrite E; cbn [snd]; try exact Hinv;
    revert Hinv; apply master_opens_all_step; try reflexivity; auto.
  - cbn. apply lookup_insert_ne, KEY_ACCOUNTS_not_master.
  - cbn. intros a Ha.
    apply In_replace_account in Ha as [-> | Ha]; [right|left; exact Ha].
    eexists _, mm, d. split; [reflexivity|]. split; [exact Hmm|].
    apply unwrapDEK_wrapDEK.
Qed.

Lemma resetAccountPassword_master_opens_all (s : State) (i pw : string)
    (salt iv : bytes) :
  master_opens_all s ->
  master_opens_all (snd (resetAccountPassword i pw salt iv s)).
Proof.
  intros Hinv.
  destruct (resetAccountPassword_cases s i pw salt iv)
    as [(e & E & _) | (acc & wm & mm & d & Hf & Hw & Hm & Hd)].
  { rewrite E. exact Hinv. }
  pose proof (resetAccountPassword_run s i pw salt iv acc wm mm d
                Hf Hw Hm Hd) as Hrun. cbv zeta in Hrun.
  rewrite Hrun; cbn [snd]. revert Hinv. apply master_opens_all_step.
  - reflexivity.
  - cbn. apply lookup_insert_ne, KEY_ACCOUNTS_not_master.
  - cbn. intros a Ha.
    apply In_replace_account in Ha as [-> | Ha]; [right|left; exact Ha].
    exists wm, mm, d. auto.
Qed.

(** X5. Once the master secret opens every account of the registry, it
    does so after every registration, login, password reset and logout;
    and then a login with the master secret (configured, without
    surrounding white space) succeeds on every account. *)
Theorem master_opens_all_preserved (s : State) :
  master_opens_all s ->
  (forall nm p r, master_opens_all (snd (registerAccount nm p r s))) /\
  (forall i x iv, master_opens_all (snd (loginWithAccount i x iv s))) /\
  (forall i pw salt iv,
     master_opens_all (snd (resetAccountPassword i pw salt iv s))) /\
  master_opens_all (snd (logout s)) /\
  (forall i acc iv,
     MASTER_SECRET s <> "" ->
     trim (MASTER_SECRET s) = MASTER_SECRET s ->
     find_account i (accounts s) = Some acc ->
     exists d, loginWithAccount i (MASTER_SECRET s) iv s
               = (Ok tt, logged_in i d s)).
Proof.
  intros Hinv. split; [|split; [|split; [|split]]].
  - intros. apply registerAccount_master_opens_all, Hinv.
  - intros. apply loginWithAccount_master_opens_all, Hinv.
  - intros. apply resetAccountPassword_master_opens_all, Hinv.
  - revert Hinv. apply master_opens_all_step; [reflexivity|reflexivity|auto].
  - intros i acc iv Hs Ht Hf.
    destruct (Hinv acc (find_account_In _ _ _ Hf)) as (wm & mm & d & Hw & Hm & Hd).
    exists d. rewrite (loginWithAccount_found _ _ _ _ _ Hf), Ht.
    rewrite (proj2 (master_test _ _) (conj Hs eq_refl)).
    rewrite (login_master_some _ _ _ _ _ Hw Hm), Hd. reflexivity.
Qed.

(** loadAccounts reads the store only. *)
Lemma loadAccounts_frame (s s' : State) :
  localStorage s' !! KEY_ACCOUNTS = localStorage s !! KEY_ACCOUNTS ->
  fst (loadAccounts s') = fst (loadAccounts s).
Proof.
  intros H. unfold loadAccounts, bind, getItem, gets. rewrite H.
  destruct (localStorage s !! KEY_ACCOUNTS) as [[l|m|b|[|c r]]|]; reflexivity.
Qed.

Lemma loadAccounts_state (s : State) :
  loadAccounts s = (fst (loadAccounts s), s).
Proof.
  unfold loadAccounts, bind, getItem, gets.
  destruct (localStorage s !! KEY_ACCOUNTS) as [[l|m|b|[|c r]]|]; reflexivity.
Qed.



Lemma new_AuthService_run (secret : string) (ls : gmap string Stored)
    (salt : bytes) :
  let s0 :=
    {| accounts := []; currentAccountId := None; dek := None;
       MASTER_SECRET := secret; localStorage := ls |} in
  new_AuthService secret ls salt =
    match fst (loadAccounts s0) with
    | Ok l => ensureMasterMeta salt (set_accounts l s0)
    | Err e => (Err e, s0)
    end.
Proof.
  intros s0. unfold new_AuthService. fold s0.
  unfold bind at 1. rewrite loadAccounts_state.
  destruct (fst (loadAccounts s0)); reflexivity.
Qed.


(** X7. Reload: a service constructed on the store of a running one,
    with the same master secret, is that service logged out; the session
    is the only thing a reload loses. *)
Theorem reload_restores_service (s : State) (salt : bytes) :
  registry_persisted s ->
  fst (getMasterMeta s) <> Err MasterMetaNotInitialized ->
  new_AuthService (MASTER_SECRET s) (localStorage s) salt
    = (Ok tt, snd (logout s)).
Proof.
  intros Hp Hm.
  pose proof (new_AuthService_run (MASTER_SECRET s) (localStorage s) salt)
    as Hrun.
  cbv zeta in Hrun. rewrite Hrun. clear Hrun.
  set (s0 := Build_State _ _ _ _ _).
  replace (fst (loadAccounts s0)) with (@Ok (list AccountMeta) (accounts s)).
  2:{ rewrite <- Hp. symmetry. apply loadAccounts_frame. reflexivity. }
  destruct (localStorage s !! KEY_MASTER_META) as [v|] eqn:Hv.
  2:{ exfalso. apply Hm. apply getMasterMeta_not_initialized. auto. }
  destruct (stored_empty_text_dec v) as [->|Hne].
  { exfalso. apply Hm. apply getMasterMeta_not_initialized. auto. }
  rewrite (ensureMasterMeta_present _ salt v); [reflexivity | exact Hv | exact Hne].
Qed.

Lemma NOTES_KEY_inj (i j : string) : NOTES_KEY i = NOTES_KEY j -> i = j.
Proof. unfold NOTES_KEY. cbn. intros [=]. assumption. Qed.

(** What a login that returns leaves: the session on [i], and the note
    blobs as they were. *)
Lemma loginWithAccount_ok (s : State) (i x : string) (iv : bytes) :
  fst (loginWithAccount i x iv s) = Ok tt ->
  currentAccountId (snd (loginWithAccount i x iv s)) = Some i /\
  is_Some (dek (snd (loginWithAccount i x iv s))) /\
  forall j, localStorage (snd (loginWithAccount i x iv s)) !! NOTES_KEY j
            = localStorage s !! NOTES_KEY j.
Proof.
  destruct (loginWithAccount_outcome s i x iv)
    as [[e E] | [[d E] | [[d E] | (acc & d & mm & _ & _ & _ & _ & _ & E)]]];
    rewrite E; cbn [fst snd]; try discriminate; intros _.
  - split; [reflexivity|]. split; [eexists; reflexivity|]. reflexivity.
  - split; [reflexivity|]. split; [eexists; reflexivity|].
    intros j. cbn. apply lookup_insert_ne. intros H. symmetry in H.
    exact (NOTES_KEY_not_accounts j H).
Qed.

Lemma loadNotes_decrypts (s : State) (i : string) (d : key) (b : Envelope)
    (notes : list Note) :
  dek s = Some d ->
  currentAccountId s = Some i ->
  i <> "" ->
  localStorage s !! NOTES_KEY i = Some (JEnvelope b) ->
  decryptString b d = Some (JSON_stringify notes) ->
  fst (loadNotes s) = Ok (Collection notes).
Proof.
  intros Hd Hi Hne Hb Hdec.
  rewrite (loadNotes_run s i d b notes Hd Hi Hb Hdec Hne). reflexivity.
Qed.

(** X8. Notes survive logout and login: after [saveNotes(notes)] and
    [logout()], [loadNotes()] returns the empty collection, and after any
    login to the same account that yields the same DEK (by the password or
    by the master secret) it returns [notes]. *)
Theorem notes_survive_relogin (s : State) (i : string) (d : key)
    (notes : list Note) (iv : bytes) :
  session s = Some (i, d) ->
  let s1 := snd (logout (snd (saveNotes notes iv s))) in
  fst (loadNotes s1) = Ok (Collection []) /\
  forall x n,
    fst (loginWithAccount i x n s1) = Ok tt ->
    dek (snd (loginWithAccount i x n s1)) = Some d ->
    fst (loadNotes (snd (loginWithAccount i x n s1))) = Ok (Collection notes).
Proof.
  intros Hs. pose proof (session_Some _ _ _ Hs) as (_ & _ & Hne).
  rewrite (saveNotes_run _ _ _ _ _ Hs); cbn [snd].
  set (s1 := snd (logout _)). split; [reflexivity|].
  intros x n Hok Hd.
  destruct (loginWithAccount_ok s1 i x n Hok) as (Hi & _ & Hfr).
  eapply loadNotes_decrypts; [exact Hd | exact Hi | exact Hne | |].
  - rewrite Hfr. subst s1; cbn. apply lookup_insert_eq.
  - apply decryptString_encryptString.
Qed.


(** X10. Notes survive a password reset: when the master secret opens
    the account and its blob decrypts to [notes] under the DEK, then after
    the reset a login with the new password succeeds and [loadNotes()]
    returns [notes]. *)
Theorem notes_survive_reset (s : State) (i newPw : string) (salt iv : bytes)
    (acc : AccountMeta) (wm b : Envelope) (mm : bytes) (d : key)
    (notes : list Note) :
  find_account i (accounts s) = Some acc ->
  dekWrappedByMaster acc = Some wm ->
  fst (getMasterMeta s) = Ok mm ->
  unwrapDEK wm (deriveKEK (MASTER_SECRET s) mm) = Some d ->
  i <> "" ->
  localStorage s !! NOTES_KEY i = Some (JEnvelope b) ->
  decryptString b d = Some (JSON_stringify notes) ->
  let s1 := snd (resetAccountPassword i newPw salt iv s) in
  forall x n, trim x = newPw ->
    fst (loginWithAccount i x n s1) = Ok tt /\
    fst (loadNotes (snd (loginWithAccount i x n s1))) = Ok (Collection notes).
Proof.
  intros Hf Hw Hm Hd Hne Hb Hdec.
  pose proof (resetAccountPassword_run s i newPw salt iv acc wm mm d
                Hf Hw Hm Hd) as Hrun. cbv zeta in Hrun.
  rewrite Hrun; cbn [snd]. clear Hrun.
  set (upd := with_account acc salt (wrapDEK d (deriveKEK newPw salt) iv)).
  set (s1 := set_localStorage _ _).
  intros x n Hx.
  assert (Hf1 : find_account i (accounts s1) = Some upd)
    by (apply find_account_replace; [exact Hf | reflexivity]).
  assert (Hm1 : fst (getMasterMeta s1) = Ok mm).
  { rewrite <- Hm. apply getMasterMeta_frame. subst s1; cbn.
    apply lookup_insert_ne, KEY_ACCOUNTS_not_master. }
  assert (E : loginWithAccount i x n s1 = (Ok tt, logged_in i d s1)).
  { rewrite (loginWithAccount_found _ _ _ _ _ Hf1).
    destruct (truthy _ && _).
    - rewrite (login_master_some s1 i upd wm mm Hw Hm1).
      change (MASTER_SECRET s1) with (MASTER_SECRET s). rewrite Hd. reflexivity.
    - rewrite (login_account_accept _ _ _ _ _ d).
      + rewrite migrate_skip; [reflexivity|]. right. subst upd; cbn.
        rewrite Hw. eexists; reflexivity.
      + subst upd; cbn. rewrite Hx. apply unwrapDEK_wrapDEK. }
  rewrite E; cbn [fst snd]. split; [reflexivity|].
  eapply loadNotes_decrypts; [reflexivity | reflexivity | exact Hne | | exact Hdec].
  subst s1; cbn. rewrite lookup_insert_ne; [exact Hb|].
  intros H. symmetry in H. exact (NOTES_KEY_not_accounts i H).
Qed.

(** X11. What a registration leaves alone: the session, the master
    secret, the master salt, the note blobs of every other id, and the
    records already in the registry. *)
Theorem registerAccount_frame (s : State) (nm p : string)
    (r : RegisterRandom) :
  let s' := snd (registerAccount nm p r s) in
  dek s' = dek s /\
  currentAccountId s' = currentAccountId s /\
  MASTER_SECRET s' = MASTER_SECRET s /\
  localStorage s' !! KEY_MASTER_META = localStorage s !! KEY_MASTER_META /\
  (forall j, j <> r_id r ->
     localStorage s' !! NOTES_KEY j = localStorage s !! NOTES_KEY j) /\
  (forall a, In a (accounts s) -> In a (accounts s')).
Proof.
  destruct (fst (getMasterMeta s)) as [mm|e] eqn:Hmm.
  2:{ rewrite (registerAccount_fail _ _ _ _ _ Hmm); cbn [snd].
      repeat split; auto. }
  pose proof (registerAccount_run s nm p r mm Hmm) as Hrun. cbv zeta in Hrun.
  rewrite Hrun; cbn [snd].
  split; [reflexivity|]. split; [reflexivity|]. split; [reflexivity|].
  split; [|split].
  - cbn. rewrite lookup_insert_ne by apply NOTES_KEY_not_master.
    apply lookup_insert_ne, KEY_ACCOUNTS_not_master.
  - intros j Hj. cbn. rewrite lookup_insert_ne.
    + apply lookup_insert_ne. intros H. symmetry in H.
      exact (NOTES_KEY_not_accounts j H).
    + intros H. apply NOTES_KEY_inj in H. congruence.
  - intros a Hin. cbn. right. exact Hin.
Qed.

(** X12. [saveNotes] writes one entry, whole: with a session open it
    keeps the registry and the session, changes the store at the blob of
    the current account only, and a second [saveNotes] replaces the
    collection (what is loaded afterwards is the last collection saved). *)
Theorem saveNotes_frame (s : State) (i : string) (d : key)
    (notes notes' : list Note) (iv iv' : bytes) :
  session s = Some (i, d) ->
  let s' := snd (saveNotes notes iv s) in
  accounts s' = accounts s /\
  session s' = session s /\
  (forall k, k <> NOTES_KEY i -> localStorage s' !! k = localStorage s !! k) /\
  (forall j, j <> i ->
     localStorage s' !! NOTES_KEY j = localStorage s !! NOTES_KEY j) /\
  fst (loadNotes (snd (saveNotes notes' iv' s'))) = Ok (Collection notes').
Proof.
  intros Hs. pose proof (session_Some _ _ _ Hs) as (Hd & Hi & Hne).
  rewrite (saveNotes_run _ _ _ _ _ Hs); cbn [snd].
  set (s' := set_localStorage _ _).
  assert (Hs' : session s' = Some (i, d)) by exact Hs.
  split; [reflexivity|]. split; [rewrite Hs; exact Hs'|]. split; [|split].
  - intros k Hk. subst s'; cbn. apply lookup_insert_ne. congruence.
  - intros j Hj. subst s'; cbn. apply lookup_insert_ne.
    intros H. apply NOTES_KEY_inj in H. congruence.
  - rewrite (saveNotes_run _ _ _ _ _ Hs'); cbn [snd].
    eapply loadNotes_decrypts; [exact Hd | exact Hi | exact Hne | |].
    + cbn. apply lookup_insert_eq.
    + apply decryptString_encryptString.
Qed.

Lemma decryptString_other_key (plain : string) (d d' : key) (n : bytes) :
  d' <> d -> decryptString (encryptString plain d' n) d = None.
Proof.
  intros Hne. unfold decryptString, encryptString; cbn.
  destruct (aes_gcm_decrypt d n _) as [pt|] eqn:E; [|reflexivity].
  apply decrypt_authentic in E. congruence.
Qed.

Lemma loadNotes_session (s : State) (i : string) (d : key) :
  session s = Some (i, d) ->
  fst (loadNotes s) =
    match localStorage s !! NOTES_KEY i with
    | None | Some (JText "") => Ok (Collection [])
    | Some (JEnvelope b) =>
        match decryptString b d with
        | None => Err CryptoFailure
        | Some json =>
            match JSON_parse json with
            | Some v => Ok v
            | None => Err CorruptState
            end
        end
    | Some _ => Err CorruptState
    end.
Proof.
  intros Hs. unfold loadNotes, bind, gets. rewrite Hs. unfold getItem, gets.
  destruct (localStorage s !! NOTES_KEY i) as [[l|m|b|[|c r]]|];
    try reflexivity.
  unfold await. destruct (decryptString b d) as [json|]; [|reflexivity].
  cbn. destruct (JSON_parse json); reflexivity.
Qed.

(** X13. [loadNotes] with a session open never changes the state, and
    ends in one of these ways: the empty collection when the blob is
    missing or empty; a decryption failure when the blob was sealed under
    another key; on a blob sealed under the session key, what [JSON.parse]
    returns for the plain text, unchecked (a collection, or a value of
    another shape), and a failure only where [JSON.parse] throws; a
    failure when the blob is not an envelope. *)
Theorem loadNotes_outcomes (s : State) (i : string) (d : key) :
  session s = Some (i, d) ->
  snd (loadNotes s) = s /\
  (localStorage s !! NOTES_KEY i = None \/
   localStorage s !! NOTES_KEY i = Some (JText "") ->
     fst (loadNotes s) = Ok (Collection [])) /\
  (forall plain d' n,
     localStorage s !! NOTES_KEY i
       = Some (JEnvelope (encryptString plain d' n)) ->
     d' <> d -> fst (loadNotes s) = Err CryptoFailure) /\
  (forall plain n,
     localStorage s !! NOTES_KEY i
       = Some (JEnvelope (encryptString plain d n)) ->
     (forall v, JSON_parse plain = Some v -> fst (loadNotes s) = Ok v) /\
     (JSON_parse plain = Some Other -> fst (loadNotes s) = Ok Other) /\
     (JSON_parse plain = None -> fst (loadNotes s) = Err CorruptState)) /\
  (forall v,
     localStorage s !! NOTES_KEY i = Some v ->
     v <> JText "" -> (forall b, v <> JEnvelope b) ->
     fst (loadNotes s) = Err CorruptState).
Proof.
  intros Hs. split; [apply loadNotes_state|].
  rewrite (loadNotes_session _ _ _ Hs). split; [|split; [|split]].
  - intros [-> | ->]; reflexivity.
  - intros plain d' n -> Hne.
    rewrite (decryptString_other_key _ _ _ _ Hne). reflexivity.
  - intros plain n ->. rewrite decryptString_encryptString.
    split; [|split].
    + intros v ->. reflexivity.
    + intros ->. reflexivity.
    + intros ->. reflexivity.
  - intros v -> Hne Hb. destruct v as [l|m|b|[|c r]]; try reflexivity.
    + exfalso. exact (Hb b eq_refl).
    + contradiction.
Qed.
End Service.

(** ** [atob] after [btoa] *)

Section Base64Facts.
Import Base64.
#[local] Open Scope list_scope.

Lemma value_digit_nat (n : nat) :
  (n < 64)%nat -> value (List.nth n alphabet "A"%char) = Some (N.of_nat n).
Proof.
  intros H.
  do 64 (destruct n as [|n]; [reflexivity|]). lia.
Qed.

Lemma value_digit (v : N) : (v < 64)%N -> value (digit v) = Some v.
Proof.
  intros H. unfold digit. rewrite value_digit_nat by lia.
  rewrite N2Nat.id. reflexivity.
Qed.

Lemma digit_plain (v : N) :
  is_ascii_whitespace (digit v) = false /\ Ascii.eqb (digit v) "=" = false.
Proof.
  unfold digit. generalize (N.to_nat v) as n. intros n.
  do 64 (destruct n as [|n]; [split; reflexivity|]).
  destruct n; split; reflexivity.
Qed.
Ltac euclid := zify; Z.to_euclidean_division_equations; lia.

Lemma list_ind3 {A} (P : list A -> Prop) :
  P [] -> (forall a, P [a]) -> (forall a b, P [a; b]) ->
  (forall a b c r, P r -> P (a :: b :: c :: r)) ->
  forall l, P l.
Proof.
  intros H0 H1 H2 H3.
  assert (H : forall l, P l /\ (forall a, P (a :: l)) /\
                        (forall a b, P (a :: b :: l))).
  { induction l as [|x l (IH0 & IH1 & IH2)]; [auto|].
    split; [apply IH1|]. split; [intros a; apply IH2|].
    intros a b. apply H3, IH0. }
  intros l. apply H.
Qed.

Lemma N_of_ascii_lt (a : ascii) : (N_of_ascii a < 256)%N.
Proof. apply N_ascii_bounded. Qed.

Lemma byte_N_of_ascii (a : ascii) : byte (N_of_ascii a) = a.
Proof. apply ascii_N_embedding. Qed.

Lemma values_digit (v : N) (r : list ascii) :
  (v < 64)%N ->
  values (digit v :: r) =
    match values r with Some vs => Some (v :: vs) | None => None end.
Proof. intros H. cbn [values]. rewrite (value_digit v H). reflexivity. Qed.

Lemma dec_one (a : ascii) :
  let n := (N_of_ascii a * 16)%N in
  dec [digit (n / 64); digit (n mod 64)] = Some [a].
Proof.
  intros n. pose proof (N_of_ascii_lt a) as Ha. unfold dec.
  rewrite !values_digit by (subst n; euclid). cbn [values decode].
  match goal with |- Some [byte ?X] = _ =>
    replace X with (N_of_ascii a) by (subst n; euclid) end.
  rewrite byte_N_of_ascii. reflexivity.
Qed.

Lemma dec_two (a b : ascii) :
  let n := ((N_of_ascii a * 256 + N_of_ascii b) * 4)%N in
  dec [digit (n / 4096); digit ((n / 64) mod 64); digit (n mod 64)]
    = Some [a; b].
Proof.
  intros n. pose proof (N_of_ascii_lt a) as Ha.
  pose proof (N_of_ascii_lt b) as Hb. unfold dec.
  rewrite !values_digit by (subst n; euclid). cbn [values decode].
  match goal with |- Some [byte ?X; byte ?Y] = _ =>
    replace X with (N_of_ascii a) by (subst n; euclid);
    replace Y with (N_of_ascii b) by (subst n; euclid) end.
  rewrite !byte_N_of_ascii. reflexivity.
Qed.

Lemma dec_three (a b c : ascii) (r : list ascii) :
  dec (quad a b c ++ r)%list
    = match dec r with Some bs => Some (a :: b :: c :: bs) | None => None end.
Proof.
  unfold quad. cbv zeta. cbn [app].
  set (n := (N_of_ascii a * 65536 + N_of_ascii b * 256 + N_of_ascii c)%N).
  pose proof (N_of_ascii_lt a) as Ha.
  pose proof (N_of_ascii_lt b) as Hb. pose proof (N_of_ascii_lt c) as Hc.
  unfold dec. rewrite !values_digit by (subst n; euclid).
  destruct (values r) as [vs|]; [|reflexivity]. cbn [decode].
  destruct (decode vs) as [bs|]; [|reflexivity].
  match goal with |- Some (byte ?X :: byte ?Y :: byte ?Z :: _) = _ =>
    replace X with (N_of_ascii a) by (subst n; euclid);
    replace Y with (N_of_ascii b) by (subst n; euclid);
    replace Z with (N_of_ascii c) by (subst n; euclid) end.
  rewrite !byte_N_of_ascii. reflexivity.
Qed.
Lemma strip_padding_app (Y X : list ascii) :
  (2 <= List.length X)%nat ->
  strip_padding (Y ++ X) = Y ++ strip_padding X.
Proof.
  intros HX. unfold strip_padding. rewrite List.rev_app_distr.
  pose proof (List.length_rev X) as Hl.
  destruct (List.rev X) as [|c1 [|c2 r]] eqn:E; cbn in Hl; try lia.
  cbn [app].
  destruct (Ascii.eqb c1 "="); [|reflexivity].
  destruct (Ascii.eqb c2 "=").
  - rewrite List.rev_app_distr, List.rev_involutive. reflexivity.
  - cbn [List.rev]. rewrite List.rev_app_distr, List.rev_involutive.
    rewrite <- app_assoc. reflexivity.
Qed.

Lemma strip_padding_quad (a b c : ascii) :
  strip_padding (quad a b c) = quad a b c.
Proof.
  unfold strip_padding, quad. cbn [List.rev app].
  rewrite (proj2 (digit_plain _)). reflexivity.
Qed.

Lemma dec_strip_encode (l : list ascii) :
  dec (strip_padding (encode l)) = Some l.
Proof.
  induction l as [|a|a b|a b c r IH] using list_ind3.
  - reflexivity.
  - cbn [encode]. unfold strip_padding. cbn [List.rev app].
    change (Ascii.eqb "=" "=") with true. cbv iota. cbn [List.rev app].
    apply dec_one.
  - cbn [encode]. unfold strip_padding. cbn [List.rev app].
    change (Ascii.eqb "=" "=") with true. cbv iota.
    rewrite (proj2 (digit_plain _)). cbn [List.rev app].
    apply dec_two.
  - change (encode (a :: b :: c :: r)) with (quad a b c ++ encode r).
    destruct r as [|x r'].
    + cbn [encode]. rewrite app_nil_r, strip_padding_quad.
      rewrite <- (app_nil_r (quad a b c)), dec_three. reflexivity.
    + rewrite strip_padding_app.
      * rewrite dec_three, IH. reflexivity.
      * destruct r' as [|y [|z r'']]; cbn [encode quad List.length app]; lia.
Qed.

Lemma encode_length (l : list ascii) :
  (N.of_nat (List.length (encode l)) mod 4 = 0)%N.
Proof.
  induction l as [|a|a b|a b c r IH] using list_ind3; try reflexivity.
  cbn [encode quad app List.length]. revert IH.
  generalize (List.length (encode r)). intros k Hk. euclid.
Qed.

Lemma encode_no_whitespace (l : list ascii) :
  List.filter (fun c => negb (is_ascii_whitespace c)) (encode l) = encode l.
Proof.
  induction l as [|a|a b|a b c r IH] using list_ind3; try reflexivity;
    cbn [encode quad app List.filter];
    rewrite ?(proj1 (digit_plain _)); cbn [negb]; try reflexivity.
  rewrite IH. reflexivity.
Qed.

(** [atob] undoes [btoa]. *)
Lemma atob_btoa (s : string) : atob (btoa s) = Some s.
Proof.
  unfold atob, btoa. rewrite list_ascii_of_string_of_list_ascii.
  rewrite encode_no_whitespace, encode_length. cbn [N.eqb].
  pose proof (dec_strip_encode (list_ascii_of_string s)) as H.
  unfold dec in H.
  destruct (values (strip_padding (encode (list_ascii_of_string s))))
    as [vs|]; [|discriminate].
  rewrite H. cbn. rewrite string_of_list_ascii_of_string. reflexivity.
Qed.
End Base64Facts.

(** ** crypto.service.ts: the base64 layer *)

Section LiteralFacts.
Context {B : Browser} {O : Octets B} {OL : OctetsLaws B O}.

Lemma length_string_of_list_ascii (l : list ascii) :
  String.length (string_of_list_ascii l) = List.length l.
Proof. induction l as [|c l IH]; [reflexivity|]. cbn. f_equal. exact IH. Qed.

Lemma b64_round (buf : bytes) :
  CryptoService.b64dec (CryptoService.b64enc buf) = Some buf.
Proof.
  unfold CryptoService.b64dec, CryptoService.b64enc.
  rewrite atob_btoa, list_ascii_of_string_of_list_ascii, buffer_octets.
  reflexivity.
Qed.

(** X14. [b64dec] after [b64enc] returns the buffer, the text [b64enc]
    produces has a length that is a multiple of four, and [importDEK]
    after [exportDEK] is the import of the exported raw key. *)
Theorem b64dec_b64enc (buf : bytes) (k : key) :
  CryptoService.b64dec (CryptoService.b64enc buf) = Some buf /\
  (N.of_nat (String.length (CryptoService.b64enc buf)) mod 4 = 0)%N /\
  CryptoService.importDEK (CryptoService.exportDEK k)
    = importKey (exportKey k).
Proof.
  split; [apply b64_round|]. split.
  - unfold CryptoService.b64enc, Base64.btoa.
    rewrite length_string_of_list_ascii. apply encode_length.
  - unfold CryptoService.importDEK, CryptoService.exportDEK.
    rewrite b64_round. reflexivity.
Qed.

(** X15. The service on base64 texts is the service on buffers:
    [deriveKEK], [wrapDEK], [unwrapDEK], [encryptString] and
    [decryptString], given the base64 of their buffers, compute the base64
    of what the operations of section [CryptoService] compute. *)
Theorem crypto_service_base64 :
  (forall pw salt,
     CryptoService.deriveKEK pw (CryptoService.b64enc salt)
       = Some (deriveKEK pw salt)) /\
  (forall dek kek n,
     CryptoService.wrapDEK dek kek n
       = Some (CryptoService.b64 (wrapDEK dek kek n))) /\
  (forall e kek,
     CryptoService.unwrapDEK (CryptoService.b64 e) kek = unwrapDEK e kek) /\
  (forall plain dek n,
     CryptoService.encryptString plain dek n
       = CryptoService.b64 (encryptString plain dek n)) /\
  (forall e dek,
     CryptoService.decryptString (CryptoService.b64 e) dek
       = decryptString e dek).
Proof.
  split; [|split; [|split; [|split]]].
  - intros pw salt. unfold CryptoService.deriveKEK. rewrite b64_round.
    reflexivity.
  - intros dek kek n. unfold CryptoService.wrapDEK, CryptoService.exportDEK.
    rewrite b64_round. reflexivity.
  - intros [n ct] kek. unfold CryptoService.unwrapDEK, CryptoService.b64, unwrapDEK.
    cbn [CryptoService.iv CryptoService.data iv data]. rewrite !b64_round.
    destruct (aes_gcm_decrypt kek _ _) as [pt|]; [|reflexivity].
    unfold CryptoService.importDEK. rewrite b64_round. reflexivity.
  - reflexivity.
  - intros [n ct] dek. unfold CryptoService.decryptString, CryptoService.b64,
      decryptString.
    cbn [CryptoService.iv CryptoService.data iv data]. rewrite !b64_round.
    reflexivity.
Qed.

Lemma values_invalid (c : ascii) (l : list ascii) :
  In c l -> Base64.value c = None -> Base64.values l = None.
Proof.
  intros Hin Hc. induction l as [|x l IH]; [contradiction|].
  cbn [Base64.values]. destruct Hin as [->|Hin].
  - rewrite Hc. reflexivity.
  - rewrite (IH Hin). destruct (Base64.value x); reflexivity.
Qed.

Lemma strip_padding_In (c : ascii) (l : list ascii) :
  In c l -> Ascii.eqb c "=" = false -> In c (Base64.strip_padding l).
Proof.
  intros Hin Hc. unfold Base64.strip_padding.
  assert (Hr : In c (List.rev l)) by (apply in_rev; rewrite List.rev_involutive; exact Hin).
  destruct (List.rev l) as [|c1 [|c2 r]]; [exact Hin| |].
  - destruct (Ascii.eqb_spec c1 "=") as [->|_]; [|exact Hin].
    destruct Hr as [<-|[]]. discriminate.
  - destruct (Ascii.eqb_spec c1 "=") as [->|_]; [|exact Hin].
    destruct Hr as [<-|Hr]; [discriminate|].
    destruct (Ascii.eqb_spec c2 "=") as [->|_].
    + destruct Hr as [<-|Hr]; [discriminate|]. apply -> in_rev. exact Hr.
    + apply -> in_rev. exact Hr.
Qed.

Lemma atob_invalid (s : string) (c : ascii) :
  In c (list_ascii_of_string s) ->
  Base64.is_ascii_whitespace c = false ->
  Ascii.eqb c "=" = false ->
  Base64.value c = None ->
  Base64.atob s = None.
Proof.
  intros Hin Hws Heq Hv. unfold Base64.atob.
  set (data := List.filter _ _).
  assert (Hd : In c data).
  { apply filter_In. split; [exact Hin|]. rewrite Hws. reflexivity. }
  rewrite (values_invalid c); [reflexivity| |exact Hv].
  destruct (_ =? _)%N; [apply strip_padding_In; assumption | exact Hd].
Qed.

(** X16. Malformed base64: a text with a character that is neither in
    the alphabet, nor padding, nor white space makes [b64dec] fail, and
    with it [deriveKEK], [importDEK], and [unwrapDEK] and [decryptString]
    on an envelope holding it. *)
Theorem malformed_base64 (s : string) (c : ascii) :
  In c (list_ascii_of_string s) ->
  Base64.is_ascii_whitespace c = false ->
  c <> "="%char ->
  Base64.value c = None ->
  CryptoService.b64dec s = None /\
  (forall pw, CryptoService.deriveKEK pw s = None) /\
  CryptoService.importDEK s = None /\
  (forall w kek,
     CryptoService.iv w = s \/ CryptoService.data w = s ->
     CryptoService.unwrapDEK w kek = None /\
     CryptoService.decryptString w kek = None).
Proof.
  intros Hin Hws Hne Hv. apply Ascii.eqb_neq in Hne.
  assert (Hb : CryptoService.b64dec s = None).
  { unfold CryptoService.b64dec. rewrite (atob_invalid s c); auto. }
  split; [exact Hb|]. split; [|split].
  - intros pw. unfold CryptoService.deriveKEK. rewrite Hb. reflexivity.
  - unfold CryptoService.importDEK. rewrite Hb. reflexivity.
  - intros w kek [H|H]; unfold CryptoService.unwrapDEK,
      CryptoService.decryptString; rewrite H, Hb;
      try (split; reflexivity).
    destruct (CryptoService.b64dec (CryptoService.iv w)); split; reflexivity.
Qed.
End LiteralFacts.

(** ** local-storage.service.ts *)

Section LocalStorageFacts.
Context {T : Type} (stringify : T -> string) (parse : string -> option T).
Hypothesis parse_stringify : forall v, parse (stringify v) = Some v.
Hypothesis parse_empty : parse "" = None.

(** X17. [LocalStorageService]: [get] after [set] on the same key
    returns the value, [set] on another key does not change what [get]
    returns, and [get] returns the fallback after [remove], on a missing
    key and on text that does not parse. *)
Theorem local_storage_round_trip (ls : gmap string string) (k : string)
    (v fallback : T) :
  let get := LocalStorageService.get parse in
  let set := LocalStorageService.set stringify in
  get k fallback (set k v ls) = v /\
  (forall k' v', k' <> k ->
     get k fallback (set k' v' ls) = get k fallback ls) /\
  get k fallback (LocalStorageService.remove k ls) = fallback /\
  (ls !! k = None -> get k fallback ls = fallback) /\
  (forall raw, ls !! k = Some raw -> parse raw = None ->
     get k fallback ls = fallback).
Proof.
  unfold LocalStorageService.get, LocalStorageService.set,
    LocalStorageService.remove. cbv zeta.
  split; [|split; [|split; [|split]]].
  - rewrite lookup_insert_eq, parse_stringify.
    destruct (stringify v) eqn:E; [|reflexivity].
    pose proof (parse_stringify v) as H. rewrite E, parse_empty in H.
    discriminate.
  - intros k' v' Hne. rewrite lookup_insert_ne by exact Hne. reflexivity.
  - rewrite lookup_delete_eq. reflexivity.
  - intros ->. reflexivity.
  - intros raw -> Hp. rewrite Hp. destruct (truthy raw); reflexivity.
Qed.
End LocalStorageFacts.

(** ** app.component.ts *)

Section Caller.
Context {B : Browser} {L : BrowserLaws B}.
Import AppComponent.

(** X18. [currentAccount]: after a successful login it is a record of
    the registry with the id logged in to, after [logout()] and without a
    session it is [null]. *)
Theorem currentAccount_session (s : State) (i x : string) (iv : bytes) :
  (fst (loginWithAccount i x iv s) = Ok tt ->
     exists acc,
       currentAccount (snd (loginWithAccount i x iv s)) = Some acc /\
       id acc = i) /\
  currentAccount (snd (logout s)) = None /\
  (currentAccountId s = None -> currentAccount s = None).
Proof.
  split; [|split; [reflexivity|intros H; unfold currentAccount; rewrite H; reflexivity]].
  intros Hok.
  destruct (find_account i (accounts s)) as [acc|] eqn:Hf.
  2:{ rewrite (loginWithAccount_not_found _ _ _ _ Hf) in Hok. discriminate. }
  pose proof (find_account_id _ _ _ Hf) as Hid.
  destruct (loginWithAccount_outcome s i x iv)
    as [[e E] | [[d E] | [[d E] | (acc' & d & mm & Hf' & _ & _ & _ & _ & E)]]];
    rewrite E in *; cbn [fst snd] in *; try discriminate.
  - exists acc. split; [|exact Hid]. unfold currentAccount; cbn. exact Hf.
  - rewrite Hf in Hf'. injection Hf' as <-.
    eexists. split.
    + unfold currentAccount; cbn.
      apply find_account_replace; [exact Hf|reflexivity].
    + exact Hid.
Qed.
End Caller.

Section Component.
Import Models AppComponent.

(** X19. [prevMonth] and [nextMonth] keep the month between 0 and 11,
    move by exactly one month, and undo each other. *)
Theorem month_navigation (y m : Z) :
  (0 <= m <= 11)%Z ->
  let n := nextMonth (y, m) in
  let p := prevMonth (y, m) in
  (0 <= snd n <= 11)%Z /\ (0 <= snd p <= 11)%Z /\
  (12 * fst n + snd n = 12 * y + m + 1)%Z /\
  (12 * fst p + snd p = 12 * y + m - 1)%Z /\
  prevMonth n = (y, m) /\ nextMonth p = (y, m).
Proof.
  intros Hm. unfold nextMonth, prevMonth; cbn [fst snd].
  destruct (Z.gtb_spec (m + 1) 11) as [Hn|Hn];
    destruct (Z.ltb_spec (m - 1) 0) as [Hp|Hp]; cbn [fst snd];
    repeat match goal with
    | |- context [(?a <? ?b)%Z] => destruct (Z.ltb_spec a b)
    | |- context [(?a >? ?b)%Z] => destruct (Z.gtb_spec a b)
    end; cbn [fst snd];
    repeat split; try lia; f_equal; lia.
Qed.

Lemma rem_step (a n : Z) :
  (0 <= a < 2 * n)%Z ->
  Z.rem a n = if (a <? n)%Z then a else (a - n)%Z.
Proof.
  intros H. rewrite Z.rem_mod_nonneg by lia.
  destruct (Z.ltb_spec a n) as [Hlt|Hge].
  - apply Z.mod_small. lia.
  - replace a with ((a - n) + 1 * n)%Z at 1 by lia.
    rewrite Z.mod_add by lia. apply Z.mod_small. lia.
Qed.

(** X20. The index of the image viewer. [openImageViewer] on a non-empty
    list opens the viewer on that list with the index clamped: the index
    given when it is in the list, 0 when it is negative, the last index
    when it is too large; on an empty list it does nothing. With the
    index in the list, [nextImage] moves it one up and from the last image
    back to 0, [prevImage] moves it one down and from 0 to the last image;
    both keep the images and the open flag, keep the index in the list and
    undo each other. Without images they do nothing. *)
Theorem viewer_index_in_range (v : Viewer) :
  (forall imgs index, imgs <> [] ->
     let v' := openImageViewer imgs index v in
     let n := Z.of_nat (List.length imgs) in
     imageViewerOpen v' = true /\ viewerImages v' = imgs /\ in_range v' /\
     ((0 <= index < n)%Z -> viewerIndex v' = index) /\
     ((index < 0)%Z -> viewerIndex v' = 0%Z) /\
     ((n <= index)%Z -> viewerIndex v' = (n - 1)%Z)) /\
  (forall index, openImageViewer [] index v = v) /\
  (in_range v ->
     viewerImages (nextImage v) = viewerImages v /\
     viewerImages (prevImage v) = viewerImages v /\
     imageViewerOpen (nextImage v) = imageViewerOpen v /\
     imageViewerOpen (prevImage v) = imageViewerOpen v /\
     ((viewerIndex v < len v - 1)%Z ->
        viewerIndex (nextImage v) = (viewerIndex v + 1)%Z) /\
     (viewerIndex v = (len v - 1)%Z -> viewerIndex (nextImage v) = 0%Z) /\
     ((0 < viewerIndex v)%Z ->
        viewerIndex (prevImage v) = (viewerIndex v - 1)%Z) /\
     (viewerIndex v = 0%Z -> viewerIndex (prevImage v) = (len v - 1)%Z) /\
     in_range (nextImage v) /\ in_range (prevImage v) /\
     prevImage (nextImage v) = v /\ nextImage (prevImage v) = v) /\
  (viewerImages v = [] -> nextImage v = v /\ prevImage v = v).
Proof.
  split; [|split; [reflexivity|split]].
  - intros [|x imgs] index H; [contradiction|].
    unfold in_range, len; cbn [openImageViewer viewerIndex viewerImages
      imageViewerOpen]. cbv zeta.
    set (n := Z.of_nat (List.length (x :: imgs))).
    assert (Hn : (0 < n)%Z) by (subst n; cbn [List.length]; lia).
    split; [reflexivity|]. split; [reflexivity|]. repeat split; lia.
  - destruct v as [o imgs i]. unfold in_range, nextImage, prevImage, len;
      cbn [viewerIndex viewerImages imageViewerOpen].
    set (n := Z.of_nat (List.length imgs)). intros Hi.
    assert (Hn : (n >? 0)%Z = true) by (apply Z.gtb_lt; lia).
    rewrite Hn. cbn [viewerIndex viewerImages imageViewerOpen]. fold n.
    rewrite Hn. cbn [viewerIndex viewerImages imageViewerOpen]. fold n.
    rewrite (rem_step (i + 1) n) by lia.
    rewrite (rem_step (i - 1 + n) n) by lia.
    destruct (Z.ltb_spec (i + 1) n) as [E1|E1];
      destruct (Z.ltb_spec (i - 1 + n) n) as [E2|E2].
    all: do 4 (split; [reflexivity|]).
    all: do 6 (split; [lia|]).
    all: split; f_equal.
    all: rewrite rem_step by lia.
    all: match goal with
         | |- context [(?a <? ?b)%Z] => destruct (Z.ltb_spec a b); lia
         end.
  - intros H. unfold nextImage, prevImage, len. rewrite H. split; reflexivity.
Qed.
Lemma insert_sorted_perm {A} (cmp : A -> A -> Z) (x : A) (l : list A) :
  Permutation (insert_sorted cmp x l) (x :: l).
Proof.
  induction l as [|y r IH]; cbn [insert_sorted]; [reflexivity|].
  destruct (cmp x y >? 0)%Z; [|reflexivity].
  rewrite IH. apply perm_swap.
Qed.

Lemma sort_perm {A} (cmp : A -> A -> Z) (l : list A) :
  Permutation (sort cmp l) l.
Proof.
  induction l as [|x l IH]; [reflexivity|]. unfold sort in *. cbn [fold_right].
  rewrite insert_sorted_perm. apply perm_skip. exact IH.
Qed.

Lemma insert_sorted_newest (x : Note) (l : list Note) :
  StronglySorted newer_or_equal l ->
  StronglySorted newer_or_equal (insert_sorted newest_first x l).
Proof.
  induction 1 as [|y r Hr IH Hy]; cbn [insert_sorted].
  - constructor; constructor.
  - unfold newest_first at 1. destruct (Z.gtb_spec (updatedAt y - updatedAt x) 0).
    + constructor; [exact IH|].
      apply List.Forall_forall. intros z Hz.
      apply (Permutation_in _ (insert_sorted_perm newest_first x r)) in Hz.
      destruct Hz as [<-|Hz]; [unfold newer_or_equal; lia|].
      exact (proj1 (List.Forall_forall _ _) Hy z Hz).
    + constructor; [constructor; assumption|].
      constructor; [unfold newer_or_equal; lia|].
      apply List.Forall_forall. intros z Hz.
      pose proof (proj1 (List.Forall_forall _ _) Hy z Hz) as Hyz.
      unfold newer_or_equal in *. lia.
Qed.

Lemma sort_newest (l : list Note) :
  StronglySorted newer_or_equal (sort newest_first l).
Proof.
  induction l as [|x l IH]; [constructor|].
  unfold sort in *. cbn [fold_right]. apply insert_sorted_newest, IH.
Qed.

Lemma sort_sorted_id (l : list Note) :
  StronglySorted newer_or_equal l -> sort newest_first l = l.
Proof.
  induction 1 as [|x l Hl IH Hx]; [reflexivity|].
  unfold sort in *. cbn [fold_right]. rewrite IH.
  destruct l as [|y r]; [reflexivity|]. cbn [insert_sorted].
  inversion Hx as [|? ? Hxy _]; subst. unfold newest_first, newer_or_equal in *.
  destruct (Z.gtb_spec (updatedAt y - updatedAt x) 0); [lia|reflexivity].
Qed.

Lemma StronglySorted_filter_newest (p : Note -> bool) (l : list Note) :
  StronglySorted newer_or_equal l ->
  StronglySorted newer_or_equal (List.filter p l).
Proof.
  induction 1 as [|x l Hl IH Hx]; cbn [List.filter]; [constructor|].
  destruct (p x); [|exact IH]. constructor; [exact IH|].
  apply List.Forall_forall. intros z Hz. apply filter_In in Hz as [Hz _].
  exact (proj1 (List.Forall_forall _ _) Hx z Hz).
Qed.

(** X21. [important] and [dayNotes] hold exactly the important notes and
    the notes of the selected date, each once, most recently updated
    first; on a collection already in that order they are the filtered
    collection. *)
Theorem derived_lists (e : Editor) :
  let day n := String.eqb (dateISO n) (selectedDate e) in
  Permutation (important e) (List.filter isImportant (notes e)) /\
  Permutation (dayNotes e) (List.filter day (notes e)) /\
  StronglySorted newer_or_equal (important e) /\
  StronglySorted newer_or_equal (dayNotes e) /\
  (forall n, In n (important e) <-> In n (notes e) /\ isImportant n = true) /\
  (forall n, In n (dayNotes e) <->
             In n (notes e) /\ dateISO n = selectedDate e) /\
  (StronglySorted newer_or_equal (notes e) ->
     important e = List.filter isImportant (notes e) /\
     dayNotes e = List.filter day (notes e)).
Proof.
  intros day. unfold important, dayNotes. fold day.
  split; [apply sort_perm|]. split; [apply sort_perm|].
  split; [apply sort_newest|]. split; [apply sort_newest|].
  split; [|split].
  - intros n. rewrite <- filter_In. split; apply Permutation_in;
      [|symmetry]; apply sort_perm.
  - intros n. rewrite <- String.eqb_eq.
    change (String.eqb (dateISO n) (selectedDate e) = true) with (day n = true).
    rewrite <- filter_In. split; apply Permutation_in;
      [|symmetry]; apply sort_perm.
  - intros Hs. split; apply sort_sorted_id; apply StronglySorted_filter_newest; exact Hs.
Qed.
Lemma In_dayNotes (e : Editor) (n : Note) :
  In n (notes e) -> dateISO n = selectedDate e -> In n (dayNotes e).
Proof.
  intros Hin Hd. unfold dayNotes.
  apply (Permutation_in _ (Permutation_sym (sort_perm _ _))).
  apply filter_In. split; [exact Hin|]. apply String.eqb_eq. exact Hd.
Qed.

Lemma filter_idem {A} (p : A -> bool) (l : list A) :
  List.filter p (List.filter p l) = List.filter p l.
Proof.
  induction l as [|x l IH]; [reflexivity|]. cbn [List.filter].
  destruct (p x) eqn:E; [cbn [List.filter]; rewrite E; f_equal|]; exact IH.
Qed.

(** X22. [save()] of a new note: the note goes to the front of the
    collection with the drawn id, the trimmed title, both time stamps set
    to now and the date of the form (today when the form has none); its
    date becomes the selected date, so the note is among [dayNotes], and
    the editor closes. *)
Theorem save_adds_note (now : Z) (uuid today today' : string) (e : Editor) :
  editId e = None ->
  let e' := save now uuid today today' e in
  let b := base now uuid today e in
  notes e' = b :: notes e /\
  id b = uuid /\ createdAt b = now /\ updatedAt b = now /\
  title b = trim (f_title e) /\
  (f_dateISO e = "" -> dateISO b = today) /\
  (f_dateISO e <> "" -> dateISO b = f_dateISO e) /\
  selectedDate e' = dateISO b /\
  hasNotesOn (dateISO b) e' = true /\
  In b (dayNotes e') /\
  mode e' = view /\ editId e' = None.
Proof.
  intros He e' b. subst e' b. unfold save, base. rewrite He.
  cbn [truthy_id notes id createdAt updatedAt title dateISO selectedDate
       mode editId default].
  split; [reflexivity|]. split; [reflexivity|]. split; [reflexivity|].
  split; [reflexivity|]. split; [reflexivity|].
  split; [intros ->; reflexivity|].
  split; [intros H; apply truthy_true in H; rewrite H; reflexivity|].
  split; [reflexivity|]. split.
  - unfold hasNotesOn. cbn [notes List.existsb dateISO].
    rewrite String.eqb_refl. reflexivity.
  - split; [|split; reflexivity].
    apply In_dayNotes; [left; reflexivity | reflexivity].
Qed.

(** X23. [save()] of an edited note: the ids of the collection and
    their order stay, the other notes are untouched, the note with the
    edited id is replaced by the form's with its [createdAt] kept and
    [updatedAt] set to now; when no note has that id the collection does
    not change. *)
Theorem save_edits_note (now : Z) (uuid today today' i : string)
    (e : Editor) :
  editId e = Some i -> i <> "" ->
  let e' := save now uuid today today' e in
  let b := base now uuid today e in
  id b = i /\ updatedAt b = now /\
  List.map id (notes e') = List.map id (notes e) /\
  (forall n, In n (notes e) -> id n <> i -> In n (notes e')) /\
  (forall n, In n (notes e') -> id n = i -> n = b) /\
  (forall n0,
     List.find (fun n => String.eqb (id n) i) (notes e) = Some n0 ->
     createdAt b = createdAt n0 /\ In b (notes e') /\ In b (dayNotes e')) /\
  ((forall n, In n (notes e) -> id n <> i) -> notes e' = notes e) /\
  mode e' = view /\ editId e' = None.
Proof.
  intros He Hi e' b. subst e'.
  assert (Hb : id b = i) by (subst b; unfold base; rewrite He; reflexivity).
  unfold save. fold b. rewrite He. cbn [truthy_id].
  rewrite (proj2 (truthy_true i) Hi).
  cbn [notes mode editId selectedDate]. rewrite Hb.
  set (f := fun n => if String.eqb (id n) i then b else n).
  assert (Hf : forall n, id (f n) = id n).
  { intros n. unfold f. destruct (String.eqb_spec (id n) i); congruence. }
  split; [reflexivity|]. split; [reflexivity|]. split; [|split; [|split; [|split; [|split]]]].
  - rewrite List.map_map. apply List.map_ext. exact Hf.
  - intros n Hin Hne. apply in_map_iff. exists n. split; [|exact Hin].
    unfold f. apply String.eqb_neq in Hne. rewrite Hne. reflexivity.
  - intros n Hin Hid. apply in_map_iff in Hin as (m & <- & Hm).
    unfold f in *. destruct (String.eqb_spec (id m) i); [reflexivity|].
    contradiction.
  - intros n0 Hfind. split; [|split].
    + subst b. unfold base. rewrite He, (proj2 (truthy_true i) Hi), Hfind.
      reflexivity.
    + apply find_some in Hfind as [Hin Hid]. apply in_map_iff. exists n0.
      split; [|exact Hin]. unfold f. rewrite Hid. reflexivity.
    + apply In_dayNotes; [|reflexivity].
      apply find_some in Hfind as [Hin Hid]. cbn [notes].
      apply in_map_iff. exists n0.
      split; [|exact Hin]. unfold f. rewrite Hid. reflexivity.
  - intros Hnone. rewrite <- (List.map_id (notes e)) at 2.
    apply List.map_ext_in. intros n Hin. unfold f.
    destruct (String.eqb_spec (id n) i) as [E|E]; [|reflexivity].
    exfalso. exact (Hnone n Hin E).
  - split; reflexivity.
Qed.

(** X24. [remove(id)]: nothing happens unless confirmed; once confirmed,
    exactly the notes with that id go, the editor closes if it was editing
    that note and is left alone otherwise, and a second removal changes
    nothing. *)
Theorem remove_note (i : string) (e : Editor) :
  remove i false e = e /\
  notes (remove i true e)
    = List.filter (fun n => negb (String.eqb (id n) i)) (notes e) /\
  (forall n, In n (notes (remove i true e)) <-> In n (notes e) /\ id n <> i) /\
  (editId e = Some i ->
     mode (remove i true e) = view /\ editId (remove i true e) = None) /\
  (editId e <> Some i ->
     mode (remove i true e) = mode e /\
     editId (remove i true e) = editId e) /\
  remove i true (remove i true e) = remove i true e.
Proof.
  split; [reflexivity|].
  assert (Hn : notes (remove i true e)
               = List.filter (fun n => negb (String.eqb (id n) i)) (notes e)).
  { unfold remove. destruct (bool_decide _); reflexivity. }
  split; [exact Hn|]. split; [|split; [|split]].
  - intros n. rewrite Hn, filter_In, negb_true_iff, String.eqb_neq. reflexivity.
  - intros He. unfold remove. rewrite bool_decide_eq_true_2 by exact He.
    split; reflexivity.
  - intros He. unfold remove. rewrite bool_decide_eq_false_2 by exact He.
    split; reflexivity.
  - unfold remove. destruct (bool_decide (editId e = Some i)) eqn:E.
    + cbn [closeEditor notes editId mode].
      rewrite bool_decide_eq_false_2 by discriminate.
      rewrite filter_idem. reflexivity.
    + cbn [notes editId mode]. rewrite E, filter_idem. reflexivity.
Qed.
End Component.

(** ** app.component.ts: the calendar grid *)

Lemma trailing_fuel_step (l n : nat) : ((7 - l mod 7) mod 7 <= S n -> l mod 7 <> 0 -> (7 - S l mod 7) mod 7 <= n)%nat.
Proof.
  intros Hn E.
  pose proof (Nat.mod_upper_bound l 7 ltac:(lia)).
  pose proof (Nat.mod_upper_bound (S l) 7 ltac:(lia)).
  assert (S l mod 7 = (l mod 7 + 1) mod 7)%nat.
  { replace (S l) with (l + 1)%nat by lia. rewrite Nat.Div0.add_mod_idemp_l. reflexivity. }
  destruct (Nat.eq_dec (l mod 7) 6) as [e|e].
  - rewrite H1, e. cbn. lia.
  - rewrite H1. rewrite (Nat.mod_small (l mod 7 + 1)) by lia.
    rewrite Nat.mod_small by lia. rewrite Nat.mod_small in Hn by lia. lia.
Qed.
Lemma trailing_count_step (l : nat) : (l mod 7 <> 0 -> (7 - l mod 7) mod 7 = S ((7 - S l mod 7) mod 7))%nat.
Proof.
  intros E.
  pose proof (Nat.mod_upper_bound l 7 ltac:(lia)).
  assert (S l mod 7 = (l mod 7 + 1) mod 7)%nat.
  { replace (S l) with (l + 1)%nat by lia. rewrite Nat.Div0.add_mod_idemp_l. reflexivity. }
  destruct (Nat.eq_dec (l mod 7) 6) as [e|e].
  - rewrite H0, e. reflexivity.
  - rewrite H0. rewrite (Nat.mod_small (l mod 7 + 1)) by lia.
    rewrite (Nat.mod_small (7 - l mod 7)) by lia.
    rewrite (Nat.mod_small (7 - (l mod 7 + 1))) by lia. lia.
Qed.

Section GridFacts.
Import Calendar.
#[local] Open Scope list_scope.
Variable isoOf : Z -> Z -> Z -> string.
Variable today : string.
Variables y m getDay daysInMonth prevLast : Z.

#[local] Abbreviation leadingCell := (leadingCell isoOf y m prevLast).
#[local] Abbreviation monthCell := (monthCell isoOf today y m).
#[local] Abbreviation trailingCell := (trailingCell isoOf y m getDay daysInMonth).
#[local] Abbreviation leading := (leading isoOf y m prevLast).
#[local] Abbreviation month := (month isoOf today y m daysInMonth).
#[local] Abbreviation trailing := (trailing isoOf y m getDay daysInMonth).
#[local] Abbreviation calendarDays := (calendarDays isoOf today y m getDay daysInMonth prevLast).
#[local] Abbreviation startDay := (startDay getDay).

Lemma leading_run (n : nat) (i : Z) (cells : list Cell) :
  (Z.to_nat (i + 1) <= n)%nat ->
  leading n i cells =
    cells ++ ((fun k : nat => leadingCell (i - Z.of_nat k)) <$> seq 0 (Z.to_nat (i + 1))).
Proof.
  revert i cells. induction n as [|n IH]; intros i cells Hn.
  - replace (Z.to_nat (i + 1)) with 0%nat by lia. cbn. rewrite app_nil_r.
    reflexivity.
  - cbn [Calendar.leading]. destruct (Z.geb_spec i 0) as [Hi|Hi].
    + rewrite IH by lia.
      replace (Z.to_nat (i + 1)) with (S (Z.to_nat (i - 1 + 1))) by lia.
      cbn [seq fmap list_fmap]. rewrite <- app_assoc. cbn [app].
      f_equal. f_equal; [f_equal; lia|].
      rewrite <- seq_shift, <- list_fmap_compose.
      apply list_fmap_ext. intros _ k _. cbn. f_equal. lia.
    + replace (Z.to_nat (i + 1)) with 0%nat by lia. cbn.
      rewrite app_nil_r. reflexivity.
Qed.

Lemma month_run (n : nat) (d : Z) (cells : list Cell) :
  (Z.to_nat (daysInMonth - d + 1) <= n)%nat ->
  month n d cells =
    cells ++ ((fun k : nat => monthCell (d + Z.of_nat k))
               <$> seq 0 (Z.to_nat (daysInMonth - d + 1))).
Proof.
  revert d cells. induction n as [|n IH]; intros d cells Hn.
  - replace (Z.to_nat (daysInMonth - d + 1)) with 0%nat by lia. cbn.
    rewrite app_nil_r. reflexivity.
  - cbn [Calendar.month]. destruct (Z.leb_spec d daysInMonth) as [Hd|Hd].
    + rewrite IH by lia.
      replace (Z.to_nat (daysInMonth - d + 1))
        with (S (Z.to_nat (daysInMonth - (d + 1) + 1))) by lia.
      cbn [seq fmap list_fmap]. rewrite <- app_assoc. cbn [app].
      f_equal. f_equal; [f_equal; lia|].
      rewrite <- seq_shift, <- list_fmap_compose.
      apply list_fmap_ext. intros _ k _. cbn. f_equal. lia.
    + replace (Z.to_nat (daysInMonth - d + 1)) with 0%nat by lia. cbn.
      rewrite app_nil_r. reflexivity.
Qed.

Lemma trailing_run (n : nat) (cells : list Cell) :
  ((7 - List.length cells mod 7) mod 7 <= n)%nat ->
  trailing n cells =
    cells ++ ((fun k : nat => trailingCell (List.length cells + k))
               <$> seq 0 ((7 - List.length cells mod 7) mod 7)).
Proof.
  revert cells. induction n as [|n IH]; intros cells Hn.
  - replace ((7 - List.length cells mod 7) mod 7)%nat with 0%nat by lia.
    cbn. rewrite app_nil_r. reflexivity.
  - cbn [Calendar.trailing].
    destruct (Nat.eqb_spec (List.length cells mod 7) 0) as [E|E].
    + rewrite E. cbn. rewrite app_nil_r. reflexivity.
    + assert (Hl : List.length (cells ++ [trailingCell (List.length cells)])
                   = S (List.length cells))
        by (rewrite List.length_app; cbn; lia).
      rewrite IH; rewrite Hl.
      2:{ apply trailing_fuel_step; assumption. }
      assert (Hk : ((7 - List.length cells mod 7) mod 7
                    = S ((7 - S (List.length cells) mod 7) mod 7))%nat).
      { apply trailing_count_step; assumption. }
      rewrite Hk. cbn [seq fmap list_fmap]. rewrite <- app_assoc. cbn [app].
      f_equal. f_equal; [f_equal; lia|].
      rewrite <- seq_shift, <- list_fmap_compose.
      apply list_fmap_ext. intros _ k _. cbn. f_equal. lia.
Qed.

(** X25. The calendar grid: the three loops end, and the cells are whole
    weeks; the days of the month stand in order from the column of the
    first weekday (Monday first), before them the last days of the month
    before, after them the first days of the month after, fewer than
    seven. *)
Theorem calendarDays_grid (fuel : nat) :
  (0 <= getDay <= 6)%Z -> (0 <= daysInMonth)%Z ->
  (6 <= fuel)%nat -> (Z.to_nat daysInMonth <= fuel)%nat ->
  let cells := calendarDays fuel in
  let sd := Z.to_nat startDay in
  let dm := Z.to_nat daysInMonth in
  (List.length cells mod 7 = 0)%nat /\
  (sd <= 6)%nat /\
  (sd + dm <= List.length cells < sd + dm + 7)%nat /\
  (forall k : nat, (k < sd)%nat ->
     cells !! k = Some (leadingCell (startDay - 1 - Z.of_nat k))) /\
  (forall k : nat, (k < dm)%nat ->
     cells !! (sd + k)%nat = Some (monthCell (1 + Z.of_nat k))) /\
  (forall k : nat, (sd + dm + k < List.length cells)%nat ->
     cells !! (sd + dm + k)%nat = Some (trailingCell (sd + dm + k)) /\
     day (trailingCell (sd + dm + k)) = (1 + Z.of_nat k)%Z).
Proof.
  intros Hg Hd Hf6 Hfd cells sd dm. subst cells.
  assert (Hs : (0 <= startDay <= 6)%Z).
  { unfold Calendar.startDay. rewrite Z.rem_mod_nonneg by lia.
    pose proof (Z.mod_pos_bound (getDay + 6) 7 ltac:(lia)). lia. }
  unfold Calendar.calendarDays.
  rewrite leading_run by lia. rewrite month_run by lia.
  cbn [app].
  replace (Z.to_nat (startDay - 1 + 1)) with sd by (subst sd; lia).
  replace (Z.to_nat (daysInMonth - 1 + 1)) with dm by (subst dm; lia).
  set (lead := (fun k : nat => leadingCell (startDay - 1 - Z.of_nat k)) <$> seq 0 sd).
  set (mon := (fun k : nat => monthCell (1 + Z.of_nat k)) <$> seq 0 dm).
  assert (Hll : List.length lead = sd)
    by (subst lead; rewrite length_fmap, length_seq; reflexivity).
  assert (Hlm : List.length mon = dm)
    by (subst mon; rewrite length_fmap, length_seq; reflexivity).
  assert (Hl : List.length (lead ++ mon) = (sd + dm)%nat)
    by (rewrite List.length_app; lia).
  pose proof (Nat.mod_upper_bound (sd + dm) 7 ltac:(lia)) as Hm.
  pose proof (Nat.mod_upper_bound (7 - (sd + dm) mod 7) 7 ltac:(lia)) as Hm'.
  rewrite trailing_run by (rewrite Hl; lia).
  rewrite Hl.
  set (k0 := ((7 - (sd + dm) mod 7) mod 7)%nat) in *.
  set (trail := (fun k : nat => trailingCell (sd + dm + k)) <$> seq 0 k0).
  assert (Hlt : List.length trail = k0)
    by (subst trail; rewrite length_fmap, length_seq; reflexivity).
  assert (Hlen : List.length ((lead ++ mon) ++ trail) = (sd + dm + k0)%nat)
    by (rewrite List.length_app; lia).
  rewrite Hlen.
  split; [|split; [|split; [|split; [|split]]]].
  - subst k0. 
    destruct (Nat.eq_dec ((sd + dm) mod 7) 0) as [e|e].
    + rewrite e. cbn. rewrite Nat.add_0_r. exact e.
    + rewrite (Nat.mod_small (7 - (sd + dm) mod 7)) by lia.
      rewrite <- Nat.Div0.add_mod_idemp_l.
      replace ((sd + dm) mod 7 + (7 - (sd + dm) mod 7))%nat with 7%nat by lia.
      reflexivity.
  - subst sd. lia.
  - lia.
  - intros k Hk. rewrite <- app_assoc, lookup_app_l by lia.
    subst lead. rewrite list_lookup_fmap, lookup_seq_lt by lia. reflexivity.
  - intros k Hk. rewrite <- app_assoc, lookup_app_r by lia.
    rewrite lookup_app_l by lia. rewrite Hll.
    replace (sd + k - sd)%nat with k by lia.
    subst mon. rewrite list_lookup_fmap, lookup_seq_lt by lia. reflexivity.
  - intros k Hk. split.
    + rewrite lookup_app_r by lia. rewrite Hl.
      replace (sd + dm + k - (sd + dm))%nat with k by lia.
      subst trail. rewrite list_lookup_fmap, lookup_seq_lt by lia. reflexivity.
    + cbn. subst sd dm. lia.
Qed.
End GridFacts.

(** ** Runs on the ideal platform *)

Section IdealService.
#[local] Existing Instance Ideal.browser.
Import Ideal.

(** The service after a login, reloaded. *)
Lemma reload_restores_service_witness :
  let s := snd (loginWithAccount "a1" "s1" (Raw "n9") (registered "M" "s1")) in
  registry_persisted s /\
  fst (getMasterMeta s) <> Err MasterMetaNotInitialized /\
  currentAccountId s = Some "a1" /\
  new_AuthService "M" (localStorage s) (Raw "salt9")
    = (Ok tt, registered "M" "s1").
Proof.
  cbv zeta.
  set (s := snd (loginWithAccount "a1" "s1" _ (registered "M" "s1"))).
  assert (H1 : registry_persisted s) by reflexivity.
  assert (H2 : fst (getMasterMeta s) <> Err MasterMetaNotInitialized)
    by discriminate.
  split; [exact H1|]. split; [exact H2|]. split; [reflexivity|].
  exact (reload_restores_service s (Raw "salt9") H1 H2).
Defined.

(** The old account, logged in to with its password under master secret
    [M]: the master secret opens it afterwards. *)
Lemma migration_enables_master_witness :
  let s' := snd (loginWithAccount "a0" "pw" (Raw "n9") (legacy "M" "pw")) in
  find_account "a0" (accounts (legacy "M" "pw")) = Some (legacy_account "pw") /\
  fst (loginWithAccount "a0" "pw" (Raw "n9") (legacy "M" "pw")) = Ok tt /\
  dek s' = Some (Raw "dek-a0") /\
  loginWithAccount "a0" "M" (Raw "n8") s'
    = (Ok tt, logged_in "a0" (Raw "dek-a0") s').
Proof.
  cbv zeta.
  assert (Hf : find_account "a0" (accounts (legacy "M" "pw"))
               = Some (legacy_account "pw")) by reflexivity.
  destruct (migration_enables_master (L := ideal_laws) (legacy "M" "pw")
              "a0" "pw" (Raw "n9") (legacy_account "pw") (Raw "dek-a0")
              (Raw "master-salt") Hf eq_refl ltac:(discriminate)
              ltac:(discriminate) eq_refl eq_refl)
    as (Hok & Hd & _ & _ & _ & Hm).
  split; [exact Hf|]. split; [exact Hok|]. split; [exact Hd|].
  exact (Hm eq_refl (Raw "n8")).
Defined.

(** The master secret opens the registered account, also after a reset
    of its password. *)
Lemma master_opens_all_preserved_witness :
  master_opens_all (registered "M" "s1") /\
  master_opens_all
    (snd (resetAccountPassword "a1" "s2" (Raw "salt2") (Raw "n7")
            (registered "M" "s1"))) /\
  exists d,
    loginWithAccount "a1" "M" (Raw "n9") (registered "M" "s1")
      = (Ok tt, logged_in "a1" d (registered "M" "s1")).
Proof.
  assert (H : master_opens_all (registered "M" "s1")).
  { intros acc [<-|[]].
    eexists _, (Raw "master-salt"), (Raw "dek-a1").
    split; [reflexivity|]. split; reflexivity. }
  destruct (master_opens_all_preserved (L := ideal_laws) _ H)
    as (_ & _ & Hr & _ & Hm).
  split; [exact H|]. split; [apply Hr|].
  exact (Hm "a1" _ (Raw "n9") ltac:(discriminate) eq_refl eq_refl).
Defined.

(** Two notes saved, a logout, a login with the master secret: the two
    notes are read back. *)
Lemma notes_survive_relogin_witness :
  let s := snd (loginWithAccount "a1" "s1" (Raw "n9") (registered "M" "s1")) in
  let s1 := snd (logout (snd (saveNotes ["x"; "y"]%char (Raw "n5") s))) in
  session s = Some ("a1", Raw "dek-a1") /\
  fst (loadNotes s1) = Ok (Collection []) /\
  fst (loadNotes (snd (loginWithAccount "a1" "M" (Raw "n8") s1)))
    = Ok (Collection ["x"; "y"]%char).
Proof.
  cbv zeta.
  set (s := snd (loginWithAccount "a1" "s1" _ (registered "M" "s1"))).
  assert (Hs : session s = Some ("a1", Raw "dek-a1")) by reflexivity.
  destruct (notes_survive_relogin (L := ideal_laws) s "a1" (Raw "dek-a1")
              ["x"; "y"]%char (Raw "n5") Hs) as [H0 H].
  split; [exact Hs|]. split; [exact H0|].
  apply H; reflexivity.
Defined.

(** Two notes saved, a logout, a reset of the password to [s2]: a login
    with [s2] between spaces reads the two notes back. *)
Lemma notes_survive_reset_witness :
  let s := snd (loginWithAccount "a1" "s1" (Raw "n9") (registered "M" "s1")) in
  let s0 := snd (logout (snd (saveNotes ["x"; "y"]%char (Raw "n5") s))) in
  let s1 := snd (resetAccountPassword "a1" "s2" (Raw "salt2") (Raw "n7") s0) in
  is_Some (find_account "a1" (accounts s0)) /\
  fst (loginWithAccount "a1" " s2 " (Raw "n8") s1) = Ok tt /\
  fst (loadNotes (snd (loginWithAccount "a1" " s2 " (Raw "n8") s1)))
    = Ok (Collection ["x"; "y"]%char).
Proof.
  cbv zeta.
  set (s := snd (loginWithAccount "a1" "s1" _ (registered "M" "s1"))).
  set (s0 := snd (logout (snd (saveNotes _ _ s)))).
  split; [eexists; reflexivity|].
  eapply (notes_survive_reset (L := ideal_laws) s0 "a1" "s2" (Raw "salt2")
            (Raw "n7") _ _ _ (Raw "master-salt") (Raw "dek-a1")
            ["x"; "y"]%char);
    [reflexivity | reflexivity | reflexivity | reflexivity | discriminate
    | reflexivity | reflexivity | reflexivity].
Defined.

(** A second [saveNotes] replaces the collection of the first. *)
Lemma saveNotes_frame_witness :
  let s := snd (loginWithAccount "a1" "s1" (Raw "n9") (registered "M" "s1")) in
  let s' := snd (saveNotes ["x"]%char (Raw "n5") s) in
  session s = Some ("a1", Raw "dek-a1") /\
  accounts s' = accounts s /\
  localStorage s' !! KEY_ACCOUNTS = localStorage s !! KEY_ACCOUNTS /\
  fst (loadNotes (snd (saveNotes ["y"; "z"]%char (Raw "n6") s')))
    = Ok (Collection ["y"; "z"]%char).
Proof.
  cbv zeta.
  set (s := snd (loginWithAccount "a1" "s1" _ (registered "M" "s1"))).
  assert (Hs : session s = Some ("a1", Raw "dek-a1")) by reflexivity.
  destruct (saveNotes_frame (L := ideal_laws) s "a1" (Raw "dek-a1")
              ["x"]%char ["y"; "z"]%char (Raw "n5") (Raw "n6") Hs)
    as (Ha & _ & Hk & _ & Hl).
  split; [exact Hs|]. split; [exact Ha|]. split; [|exact Hl].
  apply Hk. discriminate.
Defined.

(** The old account has no blob: [loadNotes] returns the empty
    collection. With the text of an open brace for blob it fails; with a
    blob that seals the text of an empty object it returns that value,
    which is no collection; with a blob that seals text which is not JSON
    it fails. *)
Lemma loadNotes_outcomes_witness :
  let s := snd (loginWithAccount "a0" "pw" (Raw "n9") (legacy "M" "pw")) in
  let put v := set_localStorage (<[ NOTES_KEY "a0" := v ]> (localStorage s)) s in
  let sealed plain := JEnvelope (encryptString plain (Raw "dek-a0") (Raw "n4")) in
  session s = Some ("a0", Raw "dek-a0") /\
  localStorage s !! NOTES_KEY "a0" = None /\
  fst (loadNotes s) = Ok (Collection []) /\
  snd (loadNotes s) = s /\
  fst (loadNotes (put (JText "{"))) = Err CorruptState /\
  fst (loadNotes (put (sealed "{}"))) = Ok Other /\
  fst (loadNotes (put (sealed "[x"))) = Err CorruptState.
Proof.
  cbv zeta.
  set (s := snd (loginWithAccount "a0" "pw" _ (legacy "M" "pw"))).
  set (put := fun v =>
    set_localStorage (<[ NOTES_KEY "a0" := v ]> (localStorage s)) s).
  assert (Hs : session s = Some ("a0", Raw "dek-a0")) by reflexivity.
  assert (Hc : forall v, session (put v) = Some ("a0", Raw "dek-a0"))
    by reflexivity.
  assert (Hn : localStorage s !! NOTES_KEY "a0" = None) by reflexivity.
  destruct (loadNotes_outcomes (L := ideal_laws) s "a0" (Raw "dek-a0") Hs)
    as (Hst & Hempty & _).
  split; [exact Hs|]. split; [exact Hn|].
  split; [exact (Hempty (or_introl Hn))|]. split; [exact Hst|].
  split; [|split].
  - destruct (loadNotes_outcomes (L := ideal_laws) (put (JText "{")) "a0"
                (Raw "dek-a0") (Hc _)) as (_ & _ & _ & _ & Hbad).
    apply (Hbad (JText "{")); [reflexivity | discriminate | discriminate].
  - destruct (loadNotes_outcomes (L := ideal_laws)
                (put (JEnvelope (@encryptString browser "{}" (Raw "dek-a0")
                                  (Raw "n4"))))
                "a0" (Raw "dek-a0") (Hc _)) as (_ & _ & _ & Hp & _).
    exact (proj1 (proj2 (Hp "{}" (Raw "n4") eq_refl)) eq_refl).
  - destruct (loadNotes_outcomes (L := ideal_laws)
                (put (JEnvelope (@encryptString browser "[x" (Raw "dek-a0")
                                  (Raw "n4"))))
                "a0" (Raw "dek-a0") (Hc _)) as (_ & _ & _ & Hp & _).
    exact (proj2 (proj2 (Hp "[x" (Raw "n4") eq_refl)) eq_refl).
Defined.
End IdealService.

(** ** The platform without cryptography: runs *)

Lemma plain_octets_laws : OctetsLaws Plain.browser Plain.plain_octets.
Proof. split. reflexivity. Qed.

Section PlainRuns.
#[local] Existing Instance Plain.browser.
#[local] Existing Instance Plain.plain_octets.

(** The two bytes of [Ma] and their base64. *)
Lemma b64dec_b64enc_witness :
  CryptoService.b64enc (list_ascii_of_string "Ma") = "TWE=" /\
  CryptoService.b64dec "TWE=" = Some (list_ascii_of_string "Ma") /\
  CryptoService.importDEK (CryptoService.exportDEK (list_ascii_of_string "key"))
    = Some (list_ascii_of_string "key").
Proof.
  destruct (b64dec_b64enc (OL := plain_octets_laws)
              (list_ascii_of_string "Ma") (list_ascii_of_string "key"))
    as (H1 & _ & H2).
  split; [reflexivity|]. split; [exact H1 | exact H2].
Defined.

(** A salt given in base64, and a string through [encryptString] and
    [decryptString]. *)
Lemma crypto_service_base64_witness :
  CryptoService.deriveKEK "pw" "c2FsdA=="
    = Some (deriveKEK "pw" (list_ascii_of_string "salt")) /\
  CryptoService.decryptString
    (CryptoService.encryptString "note" (list_ascii_of_string "k")
       (list_ascii_of_string "n"))
    (list_ascii_of_string "k")
    = Some "note".
Proof.
  destruct (crypto_service_base64 (OL := plain_octets_laws))
    as (Hk & _ & _ & He & Hd).
  split.
  - exact (Hk "pw" (list_ascii_of_string "salt")).
  - rewrite He, Hd. reflexivity.
Defined.

(** An asterisk is no base64. *)
Lemma malformed_base64_witness :
  In "*"%char (list_ascii_of_string "TW*=") /\
  Base64.value "*" = None /\
  CryptoService.b64dec "TW*=" = None /\
  CryptoService.deriveKEK "pw" "TW*=" = None.
Proof.
  assert (Hin : In "*"%char (list_ascii_of_string "TW*="))
    by (right; right; left; reflexivity).
  destruct (malformed_base64 "TW*=" "*" Hin eq_refl ltac:(discriminate) eq_refl)
    as (Hb & Hk & _).
  split; [exact Hin|]. split; [reflexivity|]. split; [exact Hb | exact (Hk "pw")].
Defined.
End PlainRuns.

(** A boolean kept under the key [seen]. *)
Lemma local_storage_round_trip_witness :
  (forall v, Plain.parse_bool (Plain.stringify_bool v) = Some v) /\
  Plain.parse_bool "" = None /\
  LocalStorageService.get Plain.parse_bool "seen" false
    (LocalStorageService.set Plain.stringify_bool "seen" true ∅) = true /\
  LocalStorageService.get Plain.parse_bool "seen" false
    (LocalStorageService.remove "seen"
       (LocalStorageService.set Plain.stringify_bool "seen" true ∅)) = false.
Proof.
  assert (H1 : forall v, Plain.parse_bool (Plain.stringify_bool v) = Some v)
    by (intros []; reflexivity).
  assert (H2 : Plain.parse_bool "" = None) by reflexivity.
  split; [exact H1|]. split; [exact H2|]. split.
  - exact (proj1 (local_storage_round_trip _ _ H1 H2 ∅ "seen" true false)).
  - exact (proj1 (proj2 (proj2
      (local_storage_round_trip _ _ H1 H2
         (LocalStorageService.set Plain.stringify_bool "seen" true ∅)
         "seen" true false)))).
Defined.

Section ComponentRuns.
Import Models AppComponent.

(** December 2026 and January 2027. *)
Lemma month_navigation_witness :
  (0 <= 11 <= 11)%Z /\
  nextMonth (2026, 11)%Z = (2027, 0)%Z /\
  prevMonth (2027, 0)%Z = (2026, 11)%Z.
Proof.
  assert (H : (0 <= 11 <= 11)%Z) by lia.
  split; [exact H|]. split; [reflexivity|].
  exact (proj1 (proj2 (proj2 (proj2 (proj2 (month_navigation 2026 11 H)))))).
Defined.

(** A second note saved from the form. *)
Lemma save_adds_note_witness :
  editId new_form = None /\
  List.map id (notes (save 200 "n2" "2026-11-03" "2026-11-03" new_form))
    = ["n2"; "n1"] /\
  title (base 200 "n2" "2026-11-03" new_form) = "second" /\
  selectedDate (save 200 "n2" "2026-11-03" "2026-11-03" new_form)
    = "2026-11-02".
Proof.
  destruct (save_adds_note 200 "n2" "2026-11-03" "2026-11-03" new_form eq_refl)
    as (Hn & _ & _ & _ & Ht & _ & _ & Hs & _).
  split; [reflexivity|]. split; [rewrite Hn; reflexivity|].
  split; [rewrite Ht; reflexivity|]. rewrite Hs. reflexivity.
Defined.

(** The first note edited and saved. *)
Lemma save_edits_note_witness :
  editId (startEdit one_note new_form) = Some "n1" /\
  List.map id (notes (save 200 "n2" "2026-11-03" "2026-11-03"
                  (startEdit one_note new_form))) = ["n1"] /\
  createdAt (base 200 "n2" "2026-11-03" (startEdit one_note new_form)) = 100%Z /\
  updatedAt (base 200 "n2" "2026-11-03" (startEdit one_note new_form)) = 200%Z.
Proof.
  destruct (save_edits_note 200 "n2" "2026-11-03" "2026-11-03" "n1"
              (startEdit one_note new_form) eq_refl ltac:(discriminate))
    as (_ & Hu & Hids & _ & _ & Hc & _).
  split; [reflexivity|]. split; [rewrite Hids; reflexivity|].
  split; [exact (proj1 (Hc one_note eq_refl)) | exact Hu].
Defined.
End ComponentRuns.

Section CalendarRuns.
Import Calendar.

(** November 2026: the first is a Sunday, the month has 30 days, October
    has 31. *)
Lemma calendarDays_grid_witness :
  let cells :=
    calendarDays AppComponent.dateToISO "2026-11-02" 2026 10 0 30 31 42 in
  (0 <= 0 <= 6)%Z /\ (0 <= 30)%Z /\ (6 <= 42)%nat /\ (Z.to_nat 30 <= 42)%nat /\
  List.length cells = 42%nat /\
  cells !! 0%nat
    = Some {| day := 26; iso := "2026-10-26"; inMonth := false;
              isToday := false |} /\
  cells !! 7%nat
    = Some {| day := 2; iso := "2026-11-02"; inMonth := true;
              isToday := true |} /\
  cells !! 41%nat
    = Some {| day := 6; iso := "2026-12-06"; inMonth := false;
              isToday := false |}.
Proof.
  cbv zeta.
  assert (H1 : (0 <= 0 <= 6)%Z) by lia.
  assert (H2 : (0 <= 30)%Z) by lia.
  assert (H3 : (6 <= 42)%nat) by lia.
  assert (H4 : (Z.to_nat 30 <= 42)%nat) by lia.
  destruct (calendarDays_grid AppComponent.dateToISO "2026-11-02" 2026 10 0 30
              31 42 H1 H2 H3 H4) as (_ & _ & _ & Hlead & Hmonth & Htrail).
  split; [exact H1|]. split; [exact H2|]. split; [exact H3|].
  split; [exact H4|]. split; [reflexivity|]. split; [|split].
  - exact (Hlead 0%nat ltac:(vm_compute; lia)).
  - exact (Hmonth 1%nat ltac:(vm_compute; lia)).
  - exact (proj1 (Htrail 5%nat ltac:(vm_compute; lia))).
Defined.
End CalendarRuns.

(** ** JavaScript strings *)

Section StringFacts.
#[local] Open Scope list_scope.

Lemma list_ascii_of_string_app (s t : string) :
  list_ascii_of_string (s ++ t)%string
    = list_ascii_of_string s ++ list_ascii_of_string t.
Proof.
  induction s as [|c s IH]; [reflexivity|].
  change (String c s ++ t)%string with (String c (s ++ t)).
  cbn [list_ascii_of_string app]. f_equal. exact IH.
Qed.

Lemma length_list_ascii_of_string (s : string) :
  List.length (list_ascii_of_string s) = String.length s.
Proof. induction s as [|c s IH]; [reflexivity|]. cbn. f_equal. exact IH. Qed.

Lemma list_ascii_of_string_inj (s t : string) :
  list_ascii_of_string s = list_ascii_of_string t -> s = t.
Proof.
  intros H. rewrite <- (string_of_list_ascii_of_string s),
    <- (string_of_list_ascii_of_string t), H. reflexivity.
Qed.

Lemma list_of_rev_app (s t : string) :
  list_ascii_of_string (String.rev_app s t)
    = List.rev (list_ascii_of_string s) ++ list_ascii_of_string t.
Proof.
  revert t. induction s as [|c s IH]; intros t; [reflexivity|].
  cbn [String.rev_app list_ascii_of_string List.rev]. rewrite IH.
  rewrite <- app_assoc. reflexivity.
Qed.

Lemma list_of_rev (s : string) :
  list_ascii_of_string (String.rev s) = List.rev (list_ascii_of_string s).
Proof. unfold String.rev. rewrite list_of_rev_app, app_nil_r. reflexivity. Qed.

Lemma list_of_trimStart (s : string) :
  list_ascii_of_string (trimStart s) = drop_space (list_ascii_of_string s).
Proof.
  induction s as [|c s IH]; [reflexivity|].
  cbn [trimStart list_ascii_of_string drop_space].
  destruct (is_white_space c); [exact IH | reflexivity].
Qed.

Lemma list_of_trim (s : string) :
  list_ascii_of_string (trim s)
    = List.rev (drop_space (List.rev (drop_space (list_ascii_of_string s)))).
Proof.
  unfold trim, trimEnd.
  rewrite list_of_rev, list_of_trimStart, list_of_rev, list_of_trimStart.
  reflexivity.
Qed.

Lemma drop_space_idem (l : list ascii) :
  drop_space (drop_space l) = drop_space l.
Proof.
  induction l as [|c l IH]; [reflexivity|]. cbn [drop_space].
  destruct (is_white_space c) eqn:E; [exact IH|].
  cbn [drop_space]. rewrite E. reflexivity.
Qed.

Lemma drop_space_snoc (l : list ascii) (c : ascii) :
  is_white_space c = false -> drop_space (l ++ [c]) = drop_space l ++ [c].
Proof.
  intros Hc. induction l as [|x l IH]; cbn [app drop_space].
  - rewrite Hc. reflexivity.
  - destruct (is_white_space x); [exact IH | reflexivity].
Qed.

(** Trimming the end of text that starts with no white space leaves it
    starting with none. *)
Lemma drop_space_trimmed_end (l : list ascii) :
  drop_space l = l ->
  drop_space (List.rev (drop_space (List.rev l)))
    = List.rev (drop_space (List.rev l)).
Proof.
  destruct l as [|c r]; [reflexivity|]. cbn [drop_space].
  destruct (is_white_space c) eqn:Hc.
  - intros H. exfalso.
    assert (Hlen : (List.length (drop_space r) <= List.length r)%nat).
    { clear. induction r as [|x r IH]; [reflexivity|]. cbn [drop_space].
      destruct (is_white_space x); cbn [List.length]; lia. }
    rewrite H in Hlen. cbn in Hlen. lia.
  - intros _. cbn [List.rev]. rewrite (drop_space_snoc _ _ Hc).
    rewrite List.rev_app_distr. cbn [List.rev app drop_space].
    rewrite Hc. reflexivity.
Qed.

Lemma trim_idempotent (s : string) : trim (trim s) = trim s.
Proof.
  apply list_ascii_of_string_inj.
  rewrite (list_of_trim (trim s)), list_of_trim.
  set (u := drop_space (list_ascii_of_string s)).
  rewrite (drop_space_trimmed_end u) by apply drop_space_idem.
  rewrite List.rev_involutive, drop_space_idem. reflexivity.
Qed.
End StringFacts.

(** ** app.component.ts: dates *)

Section Dates.
Import AppComponent.
#[local] Open Scope list_scope.

(** The integers from [lo], [n] of them. *)
Lemma In_range (lo : Z) (n : nat) (a : Z) :
  (lo <= a < lo + Z.of_nat n)%Z ->
  In a (List.map (fun k => lo + Z.of_nat k)%Z (seq 0 n)).
Proof.
  intros H. apply in_map_iff. exists (Z.to_nat (a - lo)).
  split; [lia|]. apply in_seq. lia.
Qed.

Lemma two_digits (lo : Z) (n : nat) (a b : Z) :
  two_digits_ok lo n = true ->
  (lo <= a < lo + Z.of_nat n)%Z -> (lo <= b < lo + Z.of_nat n)%Z ->
  String.length (padStart2 (pretty a)) = 2%nat /\
  (padStart2 (pretty a) = padStart2 (pretty b) -> a = b).
Proof.
  intros Hok Ha Hb. unfold two_digits_ok in Hok.
  rewrite List.forallb_forall in Hok.
  specialize (Hok a (In_range lo n a Ha)).
  apply andb_true_iff in Hok as [Hl Hinj].
  split; [apply Nat.eqb_eq; exact Hl|].
  intros E. rewrite List.forallb_forall in Hinj.
  specialize (Hinj b (In_range lo n b Hb)).
  rewrite E, String.eqb_refl in Hinj. cbn in Hinj. lia.
Qed.

(** X26. [dateToISO] prints the year followed by six characters, a dash
    and two digits for the month and for the day, so that two dates have
    the same text exactly when they have the same year, month and day. *)
Theorem dateToISO_inj (y m d y' m' d' : Z) :
  (0 <= m <= 11)%Z -> (1 <= d <= 31)%Z ->
  (0 <= m' <= 11)%Z -> (1 <= d' <= 31)%Z ->
  (dateToISO y m d = dateToISO y' m' d' <-> y = y' /\ m = m' /\ d = d') /\
  String.length (dateToISO y m d) = (String.length (pretty y) + 6)%nat.
Proof.
  intros Hm Hd Hm' Hd'.
  assert (Okm : two_digits_ok 1 12 = true) by (vm_compute; reflexivity).
  assert (Okd : two_digits_ok 1 31 = true) by (vm_compute; reflexivity).
  destruct (two_digits 1 12 (m + 1) (m' + 1) Okm ltac:(lia) ltac:(lia))
    as [Lm Im].
  destruct (two_digits 1 12 (m' + 1) (m + 1) Okm ltac:(lia) ltac:(lia))
    as [Lm' _].
  destruct (two_digits 1 31 d d' Okd ltac:(lia) ltac:(lia)) as [Ld Id].
  destruct (two_digits 1 31 d' d Okd ltac:(lia) ltac:(lia)) as [Ld' _].
  unfold dateToISO. split.
  - split.
    2:{ intros (-> & -> & ->). reflexivity. }
    intros E. apply (f_equal list_ascii_of_string) in E.
    rewrite !list_ascii_of_string_app in E.
    apply app_inj_2 in E as [Ey E].
    2:{ rewrite !List.length_app, !length_list_ascii_of_string.
        rewrite Lm, Lm', Ld, Ld'. reflexivity. }
    apply app_inj_1 in E as [_ E]; [|reflexivity].
    apply app_inj_1 in E as [Em E].
    2:{ rewrite !length_list_ascii_of_string, Lm, Lm'. reflexivity. }
    apply app_inj_1 in E as [_ E]; [|reflexivity].
    apply list_ascii_of_string_inj in Ey, Em, E.
    apply (inj pretty) in Ey. apply Im in Em. apply Id in E.
    split; [exact Ey|]. split; [lia | exact E].
  - rewrite <- !length_list_ascii_of_string, !list_ascii_of_string_app,
      !List.length_app, !length_list_ascii_of_string, Lm, Ld. cbn. lia.
Qed.

(** The second of November 2026. *)
Lemma dateToISO_inj_witness :
  (0 <= 10 <= 11)%Z /\ (1 <= 2 <= 31)%Z /\
  dateToISO 2026 10 2 = "2026-11-02" /\
  String.length (dateToISO 2026 10 2) = 10%nat /\
  dateToISO 2026 10 2 <> dateToISO 2026 0 12.
Proof.
  assert (Hm : (0 <= 10 <= 11)%Z) by lia.
  assert (Hd : (1 <= 2 <= 31)%Z) by lia.
  destruct (dateToISO_inj 2026 10 2 2026 0 12 Hm Hd ltac:(lia) ltac:(lia))
    as [Hi Hl].
  split; [exact Hm|]. split; [exact Hd|]. split; [reflexivity|].
  split; [exact Hl|].
  intros E. apply Hi in E as (_ & E & _). discriminate E.
Defined.
End Dates.

(** ** app.component.ts: the admin panel *)

Section AdminFacts.
Context {B : Browser} {L : BrowserLaws B}.
Import AdminPanel.

(** After a reset that ran, every secret that trims to the new password
    opens the account. *)
Lemma login_after_reset_run (s : State) (i pw : string) (salt iv : bytes)
    (acc : AccountMeta) (wm : Envelope) (mm : bytes) (d : key) :
  find_account i (accounts s) = Some acc ->
  dekWrappedByMaster acc = Some wm ->
  fst (getMasterMeta s) = Ok mm ->
  unwrapDEK wm (deriveKEK (MASTER_SECRET s) mm) = Some d ->
  let s1 := snd (resetAccountPassword i pw salt iv s) in
  forall x n, trim x = pw ->
    loginWithAccount i x n s1 = (Ok tt, logged_in i d s1).
Proof.
  intros Hf Hw Hm Hd.
  pose proof (resetAccountPassword_run s i pw salt iv acc wm mm d
                Hf Hw Hm Hd) as Hrun. cbv zeta in Hrun.
  rewrite Hrun; cbn [snd]. clear Hrun.
  set (upd := with_account acc salt (wrapDEK d (deriveKEK pw salt) iv)).
  set (s1 := set_localStorage _ _).
  intros x n Hx.
  assert (Hf1 : find_account i (accounts s1) = Some upd)
    by (apply find_account_replace; [exact Hf | reflexivity]).
  assert (Hm1 : fst (getMasterMeta s1) = Ok mm).
  { rewrite <- Hm. apply getMasterMeta_frame. subst s1; cbn.
    apply lookup_insert_ne, KEY_ACCOUNTS_not_master. }
  rewrite (loginWithAccount_found _ _ _ _ _ Hf1).
  destruct (truthy _ && _).
  - rewrite (login_master_some s1 i upd wm mm Hw Hm1).
    change (MASTER_SECRET s1) with (MASTER_SECRET s). rewrite Hd. reflexivity.
  - rewrite (login_account_accept _ _ _ _ _ d).
    + rewrite migrate_skip; [reflexivity|]. right. subst upd; cbn.
      rewrite Hw. eexists; reflexivity.
    + subst upd; cbn. rewrite Hx. apply unwrapDEK_wrapDEK.
Qed.

Lemma truthy_ne (x : string) : x <> "" -> truthy x = true.
Proof. destruct x; [contradiction|reflexivity]. Qed.

(** X27. The admin panel, opened on a registry whose first account the
    master secret opens, with a new password typed that has six characters
    or more or is confirmed: [openAdminPanel] selects the first account,
    [adminResetPassword] resets that account through the service, shows
    that it succeeded and closes the panel, the ids of the registry stay,
    and every secret that trims to the new password then opens the
    account. *)
Theorem admin_reset_flow (s : State) (p : Panel) (acc : AccountMeta)
    (rest : list AccountMeta) (pw : string) (confirmed : bool)
    (salt iv : bytes) :
  accounts s = acc :: rest ->
  id acc <> "" ->
  master_opens s acc ->
  (6 <= String.length pw)%nat \/ confirmed = true ->
  let p1 := type_adminNewPassword pw (openAdminPanel p s) in
  let r := adminResetPassword confirmed salt iv p1 s in
  adminSelectedAccountId p1 = Some (id acc) /\
  resetAccountPassword (id acc) pw salt iv s = (Ok tt, snd r) /\
  adminOpen (fst r) = false /\
  alerts (fst r) = ResetDone :: alerts p /\
  List.map id (accounts (snd r)) = List.map id (accounts s) /\
  (forall x n, trim x = pw ->
     fst (loginWithAccount (id acc) x n (snd r)) = Ok tt).
Proof.
  intros Ha Hid (wm & mm & d & Hw & Hm & Hd) Hlen p1 r.
  assert (Hf : find_account (id acc) (accounts s) = Some acc).
  { rewrite Ha. cbn. rewrite String.eqb_refl. reflexivity. }
  pose proof (resetAccountPassword_run s (id acc) pw salt iv acc wm mm d
                Hf Hw Hm Hd) as Hrun. cbv zeta in Hrun.
  assert (Hp1 : adminSelectedAccountId p1 = Some (id acc)).
  { subst p1. unfold openAdminPanel. rewrite Ha. reflexivity. }
  assert (Hal : alerts p1 = alerts p).
  { subst p1. unfold openAdminPanel. rewrite Ha. reflexivity. }
  assert (Hguard :
    (negb (truthy pw) || (String.length pw <? 6)%nat) && negb confirmed
    = false).
  { destruct Hlen as [Hlen | ->]; [|apply andb_false_r].
    destruct pw as [|c pw]; [cbn in Hlen; lia|].
    cbn [truthy negb orb].
    destruct (Nat.ltb_spec (String.length (String c pw)) 6); [lia|].
    reflexivity. }
  assert (Hr : r = (closeAdminPanel (alert ResetDone p1),
                    snd (resetAccountPassword (id acc) pw salt iv s))).
  { subst r. unfold adminResetPassword. rewrite Hp1, (truthy_ne _ Hid).
    change (adminNewPassword p1) with pw. rewrite Hguard, Hrun.
    reflexivity. }
  rewrite Hr; cbn [fst snd].
  split; [exact Hp1|]. split; [rewrite Hrun; reflexivity|].
  split; [reflexivity|].
  split; [unfold closeAdminPanel, alert; cbn [alerts]; rewrite Hal; reflexivity|].
  split.
  - rewrite Hrun; cbn. apply replace_account_ids. reflexivity.
  - intros x n Hx.
    rewrite (login_after_reset_run s (id acc) pw salt iv acc wm mm d
               Hf Hw Hm Hd x n Hx). reflexivity.
Qed.

End AdminFacts.

(** ** app.component.ts: the custom title *)

Section TitleFacts.
Import Title.

(** X29. The custom title: after [saveTitle()] the title is the trimmed
    input, the store holds it under [diary_custom_title] unless it is
    empty (and never holds the empty text), no other entry changes, and a
    component constructed on that store has the same title and displays
    the same; editing and saving without typing makes the displayed title,
    trimmed, the custom one, and leaves the store as it is when there was
    a custom title. *)
Theorem title_persisted (t : TitleState) (appTitle : string) :
  let t' := saveTitle t in
  customTitle (init (store t')) = customTitle t' /\
  displayTitle appTitle (init (store t')) = displayTitle appTitle t' /\
  customTitle t' = trim (titleInput t) /\
  trim (customTitle t') = customTitle t' /\
  store t' !! TITLE_KEY <> Some "" /\
  (forall k, k <> TITLE_KEY -> store t' !! k = store t !! k) /\
  customTitle (saveTitle (startEditTitle appTitle t'))
    = trim (displayTitle appTitle t') /\
  (customTitle t' <> "" ->
     store (saveTitle (startEditTitle appTitle t')) = store t').
Proof.
  intros t'.
  set (v := trim (titleInput t)).
  assert (Hv : trim v = v) by apply trim_idempotent.
  assert (Ht : customTitle t' = v) by reflexivity.
  assert (Hst : store t' = if truthy v then <[ TITLE_KEY := v ]> (store t)
                           else delete TITLE_KEY (store t)) by reflexivity.
  assert (Hk : store t' !! TITLE_KEY = if truthy v then Some v else None).
  { rewrite Hst. destruct (truthy v).
    - apply lookup_insert_eq.
    - apply lookup_delete_eq. }
  assert (Hs : customTitle (init (store t')) = v).
  { unfold init. cbn [customTitle]. rewrite Hk.
    destruct v; reflexivity. }
  split; [rewrite Hs, Ht; reflexivity|].
  split; [unfold displayTitle; rewrite Hs, Ht; reflexivity|].
  split; [exact Ht|]. split; [rewrite Ht; exact Hv|].
  split; [|split; [|split]].
  - rewrite Hk. destruct v; cbn [truthy]; discriminate.
  - intros k Hne. rewrite Hst. destruct (truthy v).
    + apply lookup_insert_ne. congruence.
    + apply lookup_delete_ne. congruence.
  - reflexivity.
  - rewrite Ht. intros Hne.
    assert (Htv : truthy v = true) by (destruct v; [contradiction|reflexivity]).
    unfold saveTitle at 1, startEditTitle.
    cbn [customTitle store titleInput]. rewrite Ht, Htv, Hv, Htv.
    rewrite Hst, Htv. apply insert_insert_eq.
Qed.
End TitleFacts.

(** ** theme.service.ts *)

Section ThemeFacts.
Import ThemeService.
Variable prefersDark : bool.
Variable stringify : Palette -> string.
Variable parse : string -> option (option Palette).

#[local] Abbreviation round_trip := (ThemeService.round_trip stringify parse).

#[local] Abbreviation new := (ThemeService.new prefersDark parse).
#[local] Abbreviation persisted := (ThemeService.persisted prefersDark parse).
#[local] Abbreviation effect := (ThemeService.effect prefersDark).
#[local] Abbreviation apply := (ThemeService.apply prefersDark).

Lemma lookup_setProperty (name value k : string) (st : gmap string string) :
  setProperty name value st !! k =
    if String.eqb name k then (if truthy value then Some value else None)
    else st !! k.
Proof.
  unfold setProperty. destruct (String.eqb_spec name k) as [->|Hne].
  - destruct (truthy value); [apply lookup_insert_eq | apply lookup_delete_eq].
  - destruct (truthy value);
      [apply lookup_insert_ne | apply lookup_delete_ne]; exact Hne.
Qed.

(** The custom properties after [apply] are those of the mode and the
    palette, whatever the style was. *)
Lemma apply_variables (mode : string) (p : Palette) (t t' : Theme)
    (v : string) :
  In v variables ->
  rootStyle (apply mode p t) !! v = rootStyle (apply mode p t') !! v.
Proof.
  intros Hv. unfold ThemeService.apply. cbn [rootStyle].
  rewrite !lookup_setProperty.
  repeat (destruct Hv as [<-|Hv]; [reflexivity|]). destruct Hv.
Qed.

Lemma new_persisted (ls root body : gmap string string) (t : Theme) :
  new ls root body = Some t -> persisted t.
Proof.
  unfold ThemeService.new. intros H root' body'.
  destruct (parse _) as [o|] eqn:Hp; [|discriminate].
  injection H as <-. cbn [store ThemeService.apply].
  unfold ThemeService.new. rewrite Hp. eexists. split; [reflexivity|].
  split; reflexivity.
Qed.

Lemma written_persisted (t : Theme) (mode : string) (p : Palette) :
  round_trip p ->
  mode <> "" ->
  store t !! THEME_KEY = Some mode ->
  store t !! PALETTE_KEY = Some (stringify p) ->
  _theme t = mode -> _palette t = p ->
  persisted t.
Proof.
  intros [Hne Hrt] Hm Ht Hp Hmode Hpal root body. unfold ThemeService.new.
  rewrite Ht, Hp.
  assert (truthy mode = true) as -> by (destruct mode; [contradiction|reflexivity]).
  assert (truthy (stringify p) = true) as ->
    by (destruct (stringify p); [contradiction|reflexivity]).
  rewrite Hrt. eexists. split; [reflexivity|].
  cbn. split; [symmetry; exact Hmode | symmetry; exact Hpal].
Qed.

(** X30. The theme service: the mode and the palette are what a
    constructor would read from the store, after the constructor, after
    [setCustom] and [resetCustom] (for a palette that [JSON.parse] reads
    back), and after [set(mode)] when they were before; a service
    restarted on the store then has the same mode and palette and gives
    the custom properties the values the running one gives them. *)
Theorem theme_persisted (t : Theme) :
  (forall ls root body t0, new ls root body = Some t0 -> persisted t0) /\
  (forall p, round_trip p -> persisted (effect (setCustom stringify p t))) /\
  (forall to, round_trip (defaultPalette to) ->
     persisted (effect (resetCustom stringify to t))) /\
  (persisted t ->
     (forall mode, mode <> "" -> persisted (effect (set mode t))) /\
     (forall root body t0 v,
        new (store t) root body = Some t0 -> In v variables ->
        _theme t0 = _theme t /\ _palette t0 = _palette t /\
        rootStyle t0 !! v = rootStyle (effect t) !! v)).
Proof.
  split; [intros ls root body t0; apply new_persisted|].
  split; [|split].
  - intros p Hrt. apply (written_persisted _ "custom" p); try reflexivity.
    + exact Hrt.
    + discriminate.
    + cbn. apply lookup_insert_eq.
    + cbn. rewrite lookup_insert_ne by discriminate. apply lookup_insert_eq.
  - intros to Hrt. apply (written_persisted _ "custom" (defaultPalette to));
      try reflexivity.
    + exact Hrt.
    + discriminate.
    + cbn. apply lookup_insert_eq.
    + cbn. rewrite lookup_insert_ne by discriminate. apply lookup_insert_eq.
  - intros Hp. split.
    + intros mode Hm root body.
      destruct (Hp root body) as (t0 & H0 & _ & Hpal).
      revert H0. unfold ThemeService.new. cbn [store ThemeService.effect
        ThemeService.apply ThemeService.set].
      rewrite lookup_insert_eq, lookup_insert_ne by discriminate.
      assert (truthy mode = true) as ->
        by (destruct mode; [contradiction|reflexivity]).
      destruct (parse _) as [o|]; [|discriminate].
      intros [= <-]. eexists. split; [reflexivity|].
      split; [reflexivity|]. exact Hpal.
    + intros root body t0 v H0 Hv.
      destruct (Hp root body) as (t1 & H1 & Hth & Hpal).
      rewrite H0 in H1. injection H1 as <-.
      split; [exact Hth|]. split; [exact Hpal|].
      revert H0. unfold ThemeService.new.
      destruct (parse _) as [o|]; [|discriminate].
      intros [= <-]. cbn [_theme _palette ThemeService.apply] in Hth, Hpal.
      unfold ThemeService.effect. rewrite <- Hth, <- Hpal.
      apply apply_variables. exact Hv.
Qed.
End ThemeFacts.

(** ** The admin panel on the ideal platform *)

Section IdealAdmin.
#[local] Existing Instance Ideal.browser.
Import Ideal AdminPanel.

(** The panel opened on the registered account, a password of seven
    characters typed, the reset run: the panel closes and the new password
    opens the account. *)
Lemma admin_reset_flow_witness :
  let s := registered "M" "s1" in
  let p1 := type_adminNewPassword "secret2" (openAdminPanel closed s) in
  let r := adminResetPassword false (Raw "salt2") (Raw "n7") p1 s in
  List.map id (accounts s) = ["a1"] /\
  adminSelectedAccountId p1 = Some "a1" /\
  adminOpen (fst r) = false /\
  alerts (fst r) = [ResetDone] /\
  fst (loginWithAccount "a1" " secret2" (Raw "n9") (snd r)) = Ok tt.
Proof.
  cbv zeta.
  set (s := registered "M" "s1").
  set (acc := List.hd (legacy_account "") (accounts s)).
  assert (Ha : accounts s = [acc]) by reflexivity.
  assert (Hid : id acc <> "") by discriminate.
  assert (Hm : master_opens s acc).
  { eexists _, _, _. split; [reflexivity|]. split; reflexivity. }
  destruct (admin_reset_flow (L := ideal_laws) s closed acc [] "secret2" false
              (Raw "salt2") (Raw "n7") Ha Hid Hm ltac:(left; cbn; lia))
    as (Hsel & _ & Hopen & Hal & _ & Hlogin).
  split; [reflexivity|]. split; [exact Hsel|]. split; [exact Hopen|].
  split; [exact Hal|]. exact (Hlogin " secret2" (Raw "n9") eq_refl).
Defined.

End IdealAdmin.

(** ** The theme service with the codec of one palette *)

Section ThemeRuns.
Import ThemeService.

(** A first start on an empty store and page, then [resetCustom('dark')]:
    a restart reads the mode [custom] and shows the dark palette. *)
Lemma theme_persisted_witness :
  let t0 :=
    {| _theme := "system"; _palette := defaultPalette "dark"; store := ∅;
       rootStyle := ∅; bodyStyle := ∅ |} in
  let t := effect false (resetCustom Plain.stringify_dark "dark" t0) in
  round_trip Plain.stringify_dark Plain.parse_dark (defaultPalette "dark") /\
  (exists t1,
     new false Plain.parse_dark (store t) ∅ ∅ = Some t1 /\
     _theme t1 = "custom" /\
     _palette t1 = defaultPalette "dark") /\
  rootStyle t !! "--bg" = Some "#0b1120".
Proof.
  cbv zeta.
  assert (Hrt : round_trip Plain.stringify_dark Plain.parse_dark
                  (defaultPalette "dark"))
    by (split; [discriminate | reflexivity]).
  split; [exact Hrt|]. split; [|reflexivity].
  destruct (theme_persisted false Plain.stringify_dark Plain.parse_dark
              {| _theme := "system"; _palette := defaultPalette "dark";
                 store := ∅; rootStyle := ∅; bodyStyle := ∅ |})
    as (_ & _ & Hreset & _).
  exact (Hreset "dark" Hrt ∅ ∅).
Defined.
End ThemeRuns.
